(** * Pilot discovery server: a shallow embedding of the ADS stream loop,
      the push coordinator and the v1alpha3 / v1 configuration generators.

    Layout:
    - [Go]       : the few runtime-library functions the sources call
                   (fmt.Sprint, fmt.Sprintf with a decimal verb, net.JoinHostPort,
                   strings.Split on one character);
    - [Model]    : pilot/pkg/model data (protocols, ports, services, proxies);
    - [V1]       : pilot/pkg/proxy/envoy/v1 (route.go, joinIPPort);
    - [V1alpha3] : pilot/pkg/networking/core/v1alpha3, cluster.go and the
                   listener generator;
    - [Ads]      : pilot/pkg/proxy/envoy/v2 ADS stream loop, registry and
                   adsPushAll;
    - [GoStrings], [V1Route] : strings.Join and sort.Strings, and the rest of
                   route.go (sharedHost, BuildVirtualHost, BuildTCPRoute);
    - [Eureka]   : pilot/pkg/serviceregistry/eureka, conversion.go. *)

From Stdlib Require Import ZArith Lia Ascii.
From stdpp Require Import base option strings pretty list sorting gmap fin_maps.

Open Scope string_scope.
Open Scope list_scope.
Open Scope Z_scope.

(** ** Go runtime-library functions used by the sources *)
Module Go.

(** An operand of a variadic [fmt] call: the sources pass strings and ints. *)
Inductive Operand :=
| OpString (s : string)
| OpInt (z : Z).

Definition isString (o : Operand) : bool :=
  match o with OpString _ => true | OpInt _ => false end.

(** The default format of an operand: a string as it is, an int in decimal. *)
Definition formatV (o : Operand) : string :=
  match o with OpString s => s | OpInt z => pretty z end.

(** [fmt.Sprint]: operands in their default format; a space goes between two
    operands when neither is a string. *)
Fixpoint SprintFrom (argNum : nat) (prevString : bool) (ops : list Operand) : string :=
  match ops with
  | [] => ""
  | o :: rest =>
      (if negb (Nat.eqb argNum 0) && negb (isString o) && negb prevString
       then " " else "")
      +:+ formatV o +:+ SprintFrom (S argNum) (isString o) rest
  end.

Definition Sprint (ops : list Operand) : string := SprintFrom 0 false ops.

(** [fmt.Sprintf("%d", n)]. *)
Definition SprintfD (n : Z) : string := pretty n.

Fixpoint containsChar (c : ascii) (s : string) : bool :=
  match s with
  | EmptyString => false
  | String a rest => if Ascii.eqb a c then true else containsChar c rest
  end.

(** [net.JoinHostPort]: a host with a colon is taken for a literal IPv6
    address and bracketed. *)
Definition JoinHostPort (host port : string) : string :=
  if containsChar ":" host
  then "[" +:+ host +:+ "]:" +:+ port
  else host +:+ ":" +:+ port.

(** [strings.Split(s, sep)] for a separator of one character: the pieces
    between the separators, one more than there are separators. *)
Fixpoint SplitGo (sep : ascii) (cur : string) (s : string) : list string :=
  match s with
  | EmptyString => [String.rev cur]
  | String a rest =>
      if Ascii.eqb a sep
      then String.rev cur :: SplitGo sep "" rest
      else SplitGo sep (String a cur) rest
  end.

Definition Split (s : string) (sep : ascii) : list string := SplitGo sep "" s.

End Go.

(** ** pilot/pkg/model *)
Module Model.

(** The protocol constants the sources name. *)
Inductive Protocol :=
| ProtocolGRPC
| ProtocolHTTPS
| ProtocolHTTP2
| ProtocolHTTP
| ProtocolTCP
| ProtocolUDP
| ProtocolMongo
| ProtocolRedis
| ProtocolUnsupported.

#[global] Instance Protocol_eq_dec : EqDecision Protocol.
Proof. solve_decision. Defined.

(** Modelled from the spec: the protocol classification of the model package
    is not in src; the HTTP family is HTTP, HTTP2 and GRPC, the TCP family is
    the rest of the list buildMgmtPortListeners accepts, and UDP and
    unsupported protocols are in neither. *)
Definition IsHTTP (p : Protocol) : bool :=
  match p with
  | ProtocolHTTP | ProtocolHTTP2 | ProtocolGRPC => true
  | _ => false
  end.

Definition IsTCP (p : Protocol) : bool :=
  match p with
  | ProtocolTCP | ProtocolHTTPS | ProtocolMongo | ProtocolRedis => true
  | _ => false
  end.

Definition IsHTTP2 (p : Protocol) : bool :=
  match p with
  | ProtocolHTTP2 | ProtocolGRPC => true
  | _ => false
  end.

Inductive Resolution :=
| ClientSideLB
| DNSLB
| Passthrough.

#[global] Instance Resolution_eq_dec : EqDecision Resolution.
Proof. solve_decision. Defined.

(** Proxy roles (spec: type is one of sidecar, ingress, router). *)
Inductive NodeType :=
| Sidecar
| Ingress
| Router.

#[global] Instance NodeType_eq_dec : EqDecision NodeType.
Proof. solve_decision. Defined.

Record Port := mkPort {
  Name : string;
  PortNum : Z;
  PortProtocol : Protocol;
}.

Abbreviation Labels := (gmap string string).

Record Service := mkService {
  Hostname : string;
  Address : string;
  Ports : list Port;
  ExternalName : string;
  MeshExternal : bool;
  SvcResolution : Resolution;
}.

Record Proxy := mkProxy {
  Type_ : NodeType;
  IPAddress : string;
  ID : string;
  Domain : string;
  Metadata : gmap string string;
}.

Record NetworkEndpoint := mkNetworkEndpoint {
  EpAddress : string;
  EpPort : Z;
  ServicePort : Port;
}.

Record ServiceInstance := mkServiceInstance {
  Endpoint : NetworkEndpoint;
  InstService : Service;
  InstLabels : Labels;
}.

Inductive TrafficDirection :=
| TrafficDirectionInbound
| TrafficDirectionOutbound.

Definition directionString (d : TrafficDirection) : string :=
  match d with
  | TrafficDirectionInbound => "inbound"
  | TrafficDirectionOutbound => "outbound"
  end.

(** Modelled from the spec: BuildSubsetKey is not in src; the cluster name is
    the canonical encoding direction|port|subset|host. *)
Definition BuildSubsetKey (d : TrafficDirection) (subset : string)
    (hostname : string) (port : Z) : string :=
  directionString d +:+ "|" +:+ Go.SprintfD port +:+ "|" +:+ subset +:+ "|" +:+ hostname.

Definition parseNodeType (s : string) : option NodeType :=
  if decide (s = "sidecar") then Some Sidecar
  else if decide (s = "ingress") then Some Ingress
  else if decide (s = "router") then Some Router
  else None.

(** Modelled from the spec: ParseServiceNode is not in src; a node id is
    type~ip~id~domain, four tilde-separated fields, with the type one of
    sidecar, ingress, router; anything else is malformed. *)
Definition ParseServiceNode (s : string) : Proxy + string :=
  match Go.Split s "~" with
  | [t; ip; id; domain] =>
      match parseNodeType t with
      | Some nt => inl (mkProxy nt ip id domain ∅)
      | None => inr ("missing parts in the service node " +:+ s)
      end
  | _ => inr ("missing parts in the service node " +:+ s)
  end.

End Model.

(** ** pilot/pkg/proxy/envoy/v1: route.go *)
Module V1.
Import Model.

Definition InboundClusterPrefix : string := "in.".
Definition OutboundClusterPrefix : string := "out.".

Inductive ClusterType :=
| ClusterTypeSDS
| ClusterTypeStrictDNS
| ClusterTypeStatic
| ClusterTypeOriginalDST.

Inductive LbType :=
| DefaultLbType
| LbTypeOriginalDST.

Record Host := mkHost { URL : string }.

Record Cluster := mkCluster {
  Name : string;
  ServiceName : string;
  ConnectTimeoutMs : Z;
  Type_ : ClusterType;
  LbType_ : LbType;
  Hosts : list Host;
  Features : string;
  outbound : bool;
  ClHostname : string;
  ClPort : option Port;
  labels : Labels;
}.

(** joinIPPort, as written: the port goes through [fmt.Sprint] together with
    the string operand "%d". *)
Definition joinIPPort (ip : string) (port : Z) : string :=
  Go.JoinHostPort ip (Go.Sprint [Go.OpString "%d"; Go.OpInt port]).

Section Route.
(** Parts of the v1 package and of the model package that are not in src. *)
Variable ServiceKey : string -> Port -> Labels -> string.
Variable TruncateClusterName : string -> string.
Variable MakeHTTP2 : Cluster -> Cluster.

Definition BuildOutboundCluster (hostname : string) (port : Port)
    (lbls : Labels) (isExternal : bool) : Cluster :=
  let key := ServiceKey hostname port lbls in
  let name := TruncateClusterName (OutboundClusterPrefix +:+ key) in
  let clusterType := if isExternal then ClusterTypeStrictDNS else ClusterTypeSDS in
  let hosts :=
    if isExternal
    then [mkHost ("tcp://" +:+ joinIPPort hostname (PortNum port))]
    else [] in
  let cluster :=
    {| Name := name;
       ServiceName := key;
       ConnectTimeoutMs := 0;
       Type_ := clusterType;
       LbType_ := DefaultLbType;
       Hosts := hosts;
       Features := "";
       outbound := negb isExternal;
       ClHostname := hostname;
       ClPort := Some port;
       labels := lbls |} in
  if decide (PortProtocol port = ProtocolGRPC \/ PortProtocol port = ProtocolHTTP2)
  then MakeHTTP2 cluster
  else cluster.
End Route.

End V1.

(** ** pilot/pkg/networking/core/v1alpha3: cluster.go and the listener
       generator *)
Module V1alpha3.
Import Model.

(** *** Wire types (go-control-plane and istio.io/api), as plain records *)

(** A protobuf duration. *)
Record Duration := mkDuration { Seconds : Z; Nanos : Z }.

Inductive DiscoveryType :=
| Cluster_STATIC
| Cluster_STRICT_DNS
| Cluster_LOGICAL_DNS
| Cluster_EDS
| Cluster_ORIGINAL_DST.

#[global] Instance DiscoveryType_eq_dec : EqDecision DiscoveryType.
Proof. solve_decision. Defined.

Inductive LbPolicy :=
| Cluster_ROUND_ROBIN
| Cluster_LEAST_REQUEST
| Cluster_RING_HASH
| Cluster_RANDOM
| Cluster_ORIGINAL_DST_LB.

Inductive DnsLookupFamily :=
| Cluster_AUTO
| Cluster_V4_ONLY
| Cluster_V6_ONLY.

(** A socket address, as util.BuildAddress makes it. *)
Record Address := mkAddress { SockAddress : string; SockPort : Z }.

#[global] Instance Address_eq_dec : EqDecision Address.
Proof. solve_decision. Defined.

Definition uint32 (z : Z) : Z := z mod 2 ^ 32.

Inductive SimpleLB :=
| LoadBalancerSettings_ROUND_ROBIN
| LoadBalancerSettings_LEAST_CONN
| LoadBalancerSettings_RANDOM
| LoadBalancerSettings_PASSTHROUGH.

(** The load balancer oneof: a simple policy, or consistent hashing. *)
Inductive LoadBalancerSettings :=
| LbSimple (s : SimpleLB)
| LbConsistentHash.

(** GetSimple: the zero value of the enum when the oneof holds something else. *)
Definition GetSimple (lb : LoadBalancerSettings) : SimpleLB :=
  match lb with
  | LbSimple s => s
  | LbConsistentHash => LoadBalancerSettings_ROUND_ROBIN
  end.

Record TCPSettings := mkTCPSettings {
  MaxConnections : Z;
  TcpConnectTimeout : option Duration;
}.

Record HTTPSettings := mkHTTPSettings {
  Http1MaxPendingRequests : Z;
  Http2MaxRequests : Z;
  HttpMaxRequestsPerConnection : Z;
  MaxRetries : Z;
}.

Record ConnectionPoolSettings := mkConnectionPoolSettings {
  Tcp : option TCPSettings;
  Http : option HTTPSettings;
}.

Record HTTPOutlier := mkHTTPOutlier {
  ConsecutiveErrors : Z;
  Interval : option Duration;
  BaseEjectionTime : option Duration;
  MaxEjectionPercent : Z;
}.

Record OutlierDetectionSettings := mkOutlierDetectionSettings {
  OutlierHttp : option HTTPOutlier;
}.

Inductive TLSMode :=
| TLSSettings_DISABLE
| TLSSettings_SIMPLE
| TLSSettings_MUTUAL
| TLSSettings_ISTIO_MUTUAL.

#[global] Instance TLSMode_eq_dec : EqDecision TLSMode.
Proof. solve_decision. Defined.

Record TLSSettings := mkTLSSettings {
  Mode : TLSMode;
  ClientCertificate : string;
  PrivateKey : string;
  CaCertificates : string;
  SubjectAltNames : list string;
  Sni : string;
}.

(** The port selector oneof; it may be left unset. *)
Inductive PortSelector :=
| PortSelector_Name (name : string)
| PortSelector_Number (number : Z)
| PortSelector_Unset.

Record PortTrafficPolicy := mkPortTrafficPolicy {
  PtpPort : option PortSelector;
  PtpLoadBalancer : option LoadBalancerSettings;
  PtpConnectionPool : option ConnectionPoolSettings;
  PtpOutlierDetection : option OutlierDetectionSettings;
  PtpTls : option TLSSettings;
}.

Record TrafficPolicy := mkTrafficPolicy {
  LoadBalancer : option LoadBalancerSettings;
  ConnectionPool : option ConnectionPoolSettings;
  OutlierDetection : option OutlierDetectionSettings;
  Tls : option TLSSettings;
  PortLevelSettings : list PortTrafficPolicy;
}.

Record Subset := mkSubset {
  SubsetName : string;
  SubsetTrafficPolicy : option TrafficPolicy;
}.

Record DestinationRule := mkDestinationRule {
  DrTrafficPolicy : option TrafficPolicy;
  Subsets : list Subset;
}.

Inductive AuthPolicy :=
| MeshConfig_NONE
| MeshConfig_MUTUAL_TLS.

#[global] Instance AuthPolicy_eq_dec : EqDecision AuthPolicy.
Proof. solve_decision. Defined.

Record MeshConfig := mkMeshConfig {
  ConnectTimeout : Duration;
  MeshAuthPolicy : AuthPolicy;
  ProxyListenPort : Z;
  ProxyHttpPort : Z;
  RdsRefreshDelay : Duration;
  AccessLogFile : string;
  EnableTracing : bool;
}.

(** model.Environment: the registry and configuration oracle. A call that
    can fail returns the error on the right. *)
Record Environment := mkEnvironment {
  Services : list Service + string;
  GetProxyServiceInstances : Proxy -> list ServiceInstance + string;
  ManagementPorts : string -> list Port;
  GetDestinationRule : string -> option DestinationRule;
  InstancesByPort : string -> Z -> list ServiceInstance + string;
  GetIstioServiceAccounts : string -> list string -> list string;
  Mesh : MeshConfig;
}.

Record Thresholds := mkThresholds {
  ThMaxConnections : option Z;
  ThMaxPendingRequests : option Z;
  ThMaxRequests : option Z;
  ThMaxRetries : option Z;
}.

Record ClusterOutlierDetection := mkClusterOutlierDetection {
  Consecutive_5Xx : option Z;
  OdInterval : option Duration;
  OdBaseEjectionTime : option Duration;
  OdMaxEjectionPercent : option Z;
}.

Record TlsCertificate := mkTlsCertificate {
  CertificateChain : string;
  CertPrivateKey : string;
}.

Record CertificateValidationContext := mkCertificateValidationContext {
  TrustedCa : option string;
  VerifySubjectAltName : list string;
}.

Record UpstreamTlsContext := mkUpstreamTlsContext {
  TlsCertificates : list TlsCertificate;
  ValidationContext : option CertificateValidationContext;
  AlpnProtocols : list string;
  TlsSni : string;
}.

(** EdsClusterConfig with the ADS config source. *)
Record EdsClusterConfig := mkEdsClusterConfig { EdsServiceName : string }.

Record Http2ProtocolOptions := mkHttp2ProtocolOptions { MaxConcurrentStreams : Z }.

(** v2.Cluster; ConnectTimeout is a time.Duration, in nanoseconds. *)
Record Cluster := mkCluster {
  Name : string;
  Type_ : DiscoveryType;
  Hosts : list Address;
  ClConnectTimeout : Z;
  ClLbPolicy : LbPolicy;
  ClDnsLookupFamily : DnsLookupFamily;
  ClEdsClusterConfig : option EdsClusterConfig;
  CircuitBreakers : option (list Thresholds);
  ClOutlierDetection : option ClusterOutlierDetection;
  TlsContext : option UpstreamTlsContext;
  ClHttp2ProtocolOptions : option Http2ProtocolOptions;
  MaxRequestsPerConnection : option Z;
}.

(** The zero value of v2.Cluster with the three fields of a literal set. *)
Definition newCluster (name : string) (t : DiscoveryType) (hosts : list Address) : Cluster :=
  {| Name := name; Type_ := t; Hosts := hosts; ClConnectTimeout := 0;
     ClLbPolicy := Cluster_ROUND_ROBIN; ClDnsLookupFamily := Cluster_AUTO;
     ClEdsClusterConfig := None; CircuitBreakers := None;
     ClOutlierDetection := None; TlsContext := None;
     ClHttp2ProtocolOptions := None; MaxRequestsPerConnection := None |}.

Definition setConnectTimeout (t : Z) (c : Cluster) : Cluster :=
  {| Name := Name c; Type_ := Type_ c; Hosts := Hosts c; ClConnectTimeout := t;
     ClLbPolicy := ClLbPolicy c; ClDnsLookupFamily := ClDnsLookupFamily c;
     ClEdsClusterConfig := ClEdsClusterConfig c; CircuitBreakers := CircuitBreakers c;
     ClOutlierDetection := ClOutlierDetection c; TlsContext := TlsContext c;
     ClHttp2ProtocolOptions := ClHttp2ProtocolOptions c;
     MaxRequestsPerConnection := MaxRequestsPerConnection c |}.

Definition setType (t : DiscoveryType) (c : Cluster) : Cluster :=
  {| Name := Name c; Type_ := t; Hosts := Hosts c; ClConnectTimeout := ClConnectTimeout c;
     ClLbPolicy := ClLbPolicy c; ClDnsLookupFamily := ClDnsLookupFamily c;
     ClEdsClusterConfig := ClEdsClusterConfig c; CircuitBreakers := CircuitBreakers c;
     ClOutlierDetection := ClOutlierDetection c; TlsContext := TlsContext c;
     ClHttp2ProtocolOptions := ClHttp2ProtocolOptions c;
     MaxRequestsPerConnection := MaxRequestsPerConnection c |}.

Definition setLbPolicy (p : LbPolicy) (c : Cluster) : Cluster :=
  {| Name := Name c; Type_ := Type_ c; Hosts := Hosts c; ClConnectTimeout := ClConnectTimeout c;
     ClLbPolicy := p; ClDnsLookupFamily := ClDnsLookupFamily c;
     ClEdsClusterConfig := ClEdsClusterConfig c; CircuitBreakers := CircuitBreakers c;
     ClOutlierDetection := ClOutlierDetection c; TlsContext := TlsContext c;
     ClHttp2ProtocolOptions := ClHttp2ProtocolOptions c;
     MaxRequestsPerConnection := MaxRequestsPerConnection c |}.

Definition setDnsLookupFamily (f : DnsLookupFamily) (c : Cluster) : Cluster :=
  {| Name := Name c; Type_ := Type_ c; Hosts := Hosts c; ClConnectTimeout := ClConnectTimeout c;
     ClLbPolicy := ClLbPolicy c; ClDnsLookupFamily := f;
     ClEdsClusterConfig := ClEdsClusterConfig c; CircuitBreakers := CircuitBreakers c;
     ClOutlierDetection := ClOutlierDetection c; TlsContext := TlsContext c;
     ClHttp2ProtocolOptions := ClHttp2ProtocolOptions c;
     MaxRequestsPerConnection := MaxRequestsPerConnection c |}.

Definition setEdsClusterConfig (e : option EdsClusterConfig) (c : Cluster) : Cluster :=
  {| Name := Name c; Type_ := Type_ c; Hosts := Hosts c; ClConnectTimeout := ClConnectTimeout c;
     ClLbPolicy := ClLbPolicy c; ClDnsLookupFamily := ClDnsLookupFamily c;
     ClEdsClusterConfig := e; CircuitBreakers := CircuitBreakers c;
     ClOutlierDetection := ClOutlierDetection c; TlsContext := TlsContext c;
     ClHttp2ProtocolOptions := ClHttp2ProtocolOptions c;
     MaxRequestsPerConnection := MaxRequestsPerConnection c |}.

Definition setCircuitBreakers (b : option (list Thresholds)) (c : Cluster) : Cluster :=
  {| Name := Name c; Type_ := Type_ c; Hosts := Hosts c; ClConnectTimeout := ClConnectTimeout c;
     ClLbPolicy := ClLbPolicy c; ClDnsLookupFamily := ClDnsLookupFamily c;
     ClEdsClusterConfig := ClEdsClusterConfig c; CircuitBreakers := b;
     ClOutlierDetection := ClOutlierDetection c; TlsContext := TlsContext c;
     ClHttp2ProtocolOptions := ClHttp2ProtocolOptions c;
     MaxRequestsPerConnection := MaxRequestsPerConnection c |}.

Definition setOutlierDetection (o : option ClusterOutlierDetection) (c : Cluster) : Cluster :=
  {| Name := Name c; Type_ := Type_ c; Hosts := Hosts c; ClConnectTimeout := ClConnectTimeout c;
     ClLbPolicy := ClLbPolicy c; ClDnsLookupFamily := ClDnsLookupFamily c;
     ClEdsClusterConfig := ClEdsClusterConfig c; CircuitBreakers := CircuitBreakers c;
     ClOutlierDetection := o; TlsContext := TlsContext c;
     ClHttp2ProtocolOptions := ClHttp2ProtocolOptions c;
     MaxRequestsPerConnection := MaxRequestsPerConnection c |}.

Definition setTlsContext (t : option UpstreamTlsContext) (c : Cluster) : Cluster :=
  {| Name := Name c; Type_ := Type_ c; Hosts := Hosts c; ClConnectTimeout := ClConnectTimeout c;
     ClLbPolicy := ClLbPolicy c; ClDnsLookupFamily := ClDnsLookupFamily c;
     ClEdsClusterConfig := ClEdsClusterConfig c; CircuitBreakers := CircuitBreakers c;
     ClOutlierDetection := ClOutlierDetection c; TlsContext := t;
     ClHttp2ProtocolOptions := ClHttp2ProtocolOptions c;
     MaxRequestsPerConnection := MaxRequestsPerConnection c |}.

Definition setHttp2ProtocolOptions (h : option Http2ProtocolOptions) (c : Cluster) : Cluster :=
  {| Name := Name c; Type_ := Type_ c; Hosts := Hosts c; ClConnectTimeout := ClConnectTimeout c;
     ClLbPolicy := ClLbPolicy c; ClDnsLookupFamily := ClDnsLookupFamily c;
     ClEdsClusterConfig := ClEdsClusterConfig c; CircuitBreakers := CircuitBreakers c;
     ClOutlierDetection := ClOutlierDetection c; TlsContext := TlsContext c;
     ClHttp2ProtocolOptions := h;
     MaxRequestsPerConnection := MaxRequestsPerConnection c |}.

Definition setMaxRequestsPerConnection (m : option Z) (c : Cluster) : Cluster :=
  {| Name := Name c; Type_ := Type_ c; Hosts := Hosts c; ClConnectTimeout := ClConnectTimeout c;
     ClLbPolicy := ClLbPolicy c; ClDnsLookupFamily := ClDnsLookupFamily c;
     ClEdsClusterConfig := ClEdsClusterConfig c; CircuitBreakers := CircuitBreakers c;
     ClOutlierDetection := ClOutlierDetection c; TlsContext := TlsContext c;
     ClHttp2ProtocolOptions := ClHttp2ProtocolOptions c;
     MaxRequestsPerConnection := m |}.

(** *** Listener wire types *)

Record HttpFilter := mkHttpFilter { HfName : string }.

Inductive TraceOperation :=
| INGRESS
| EGRESS.

(** A route configuration is built outside these files; its name and an
    opaque body are kept. *)
Record RouteConfiguration := mkRouteConfiguration {
  RcName : string;
  RcBody : list string;
}.

Inductive RouteSpecifier :=
| HttpConnectionManager_Rds (routeConfigName : string) (clusterNames : list string)
    (refreshDelay : Z)
| HttpConnectionManager_RouteConfig (rc : option RouteConfiguration).

Record AccessLog := mkAccessLog {
  AlName : string;
  AlConfig : option string;
}.

Inductive CodecType :=
| AUTO
| HTTP1
| HTTP2.

Record HttpConnectionManager := mkHttpConnectionManager {
  CmCodecType : CodecType;
  CmAccessLog : list AccessLog;
  CmHttpFilters : list HttpFilter;
  CmStatPrefix : string;
  CmUseRemoteAddress : option bool;
  CmRouteSpecifier : option RouteSpecifier;
  CmTracing : option TraceOperation;
  CmGenerateRequestId : option bool;
  CmAllowAbsoluteUrl : option bool;
}.

(** The zero value of HttpConnectionManager. *)
Definition emptyConnectionManager : HttpConnectionManager :=
  {| CmCodecType := AUTO; CmAccessLog := []; CmHttpFilters := [];
     CmStatPrefix := ""; CmUseRemoteAddress := None; CmRouteSpecifier := None;
     CmTracing := None; CmGenerateRequestId := None; CmAllowAbsoluteUrl := None |}.

(** What util.MessageToStruct is applied to in these files. *)
Inductive FilterConfig :=
| ConfigTcpProxy (statPrefix cluster : string)
| ConfigHttpConnectionManager (cm : HttpConnectionManager)
| ConfigOpaque (body : string).

Record Filter := mkFilter {
  FilterName : string;
  FilterCfg : FilterConfig;
}.

Record DownstreamTlsContext := mkDownstreamTlsContext { DtcBody : string }.

Record FilterChainMatch := mkFilterChainMatch { SniDomains : list string }.

Record FilterChain := mkFilterChain {
  FcMatch : option FilterChainMatch;
  FcTlsContext : option DownstreamTlsContext;
  Filters : list Filter;
}.

Record Listener := mkListener {
  LName : string;
  LAddress : Address;
  FilterChains : list FilterChain;
  (** DeprecatedV1.BindToPort, when DeprecatedV1 is set *)
  DeprecatedV1 : option bool;
  UseOriginalDst : option bool;
  Transparent : option bool;
}.

Definition setFilterChains (fcs : list FilterChain) (l : Listener) : Listener :=
  {| LName := LName l; LAddress := LAddress l; FilterChains := fcs;
     DeprecatedV1 := DeprecatedV1 l; UseOriginalDst := UseOriginalDst l;
     Transparent := Transparent l |}.

Definition appendFilters (fs : list Filter) (fc : FilterChain) : FilterChain :=
  {| FcMatch := FcMatch fc; FcTlsContext := FcTlsContext fc;
     Filters := Filters fc ++ fs |}.

(** *** The plugin package *)

Inductive ListenerType :=
| ListenerTypeUnknown
| ListenerTypeTCP
| ListenerTypeHTTP.

(** Modelled from the spec: plugin.ModelProtocolToListenerType is not in src;
    HTTP chains are built for the HTTP family, TCP chains for the TCP family,
    and no listener for anything else. *)
Definition ModelProtocolToListenerType (p : Protocol) : ListenerType :=
  match p with
  | ProtocolHTTP | ProtocolHTTP2 | ProtocolGRPC => ListenerTypeHTTP
  | ProtocolTCP | ProtocolHTTPS | ProtocolMongo | ProtocolRedis => ListenerTypeTCP
  | _ => ListenerTypeUnknown
  end.

(** plugin.FilterChain: the filters a plugin adds to one chain. *)
Record PluginFilterChain := mkPluginFilterChain {
  TCP : list Filter;
  HTTP : list HttpFilter;
}.

Record MutableObjects := mkMutableObjects {
  MoListener : Listener;
  MoFilterChains : list PluginFilterChain;
}.

Record InputParams := mkInputParams {
  IpListenerType : ListenerType;
  IpEnv : Environment;
  IpNode : Proxy;
  IpProxyInstances : list ServiceInstance;
  IpServiceInstance : option ServiceInstance;
  IpService : option Service;
}.

(** The plugin interface. A hook that takes a mutable object returns the
    object as it leaves it; a listener hook may also return an error. *)
Record Plugin := mkPlugin {
  OnOutboundListener : InputParams -> MutableObjects -> MutableObjects * option string;
  OnInboundListener : InputParams -> MutableObjects -> MutableObjects * option string;
  OnOutboundCluster : Environment -> Proxy -> Service -> Port -> Cluster -> Cluster;
  OnInboundCluster : Environment -> Proxy -> Service -> Port -> Cluster -> Cluster;
}.

Record ConfigGeneratorImpl := mkConfigGeneratorImpl { Plugins : list Plugin }.

(** *** What these files use and src does not hold *)
Class Externals := {
  (** util.GogoDurationToDuration *)
  GogoDurationToDuration : Duration -> Z;
  (** util.BlackHoleCluster *)
  BlackHoleCluster : string;
  (** path.Join(model.AuthCertsPath, file) for the three certificate files *)
  RootCertPath : string;
  CertChainPath : string;
  KeyPath : string;
  (** Service.GetServiceAddressForProxy *)
  GetServiceAddressForProxy : Service -> Proxy -> string;
  BuildSidecarOutboundHTTPRouteConfig :
    Environment -> Proxy -> list ServiceInstance -> list Service -> string ->
    option RouteConfiguration;
  buildSidecarInboundHTTPRouteConfig :
    Environment -> Proxy -> ServiceInstance -> option RouteConfiguration;
  buildInboundNetworkFilters : ServiceInstance -> list Filter;
  buildOutboundNetworkFilters : string -> list string -> Port -> list Filter;
  (** Listener.Validate of the generated protobuf code *)
  Validate : Listener -> option string;
  buildGatewayListeners : Environment -> Proxy -> list Listener + string;
  (** log.DebugEnabled *)
  DebugEnabled : bool;
}.

(** *** cluster.go *)

Definition ManagementClusterHostname : string := "mgmtCluster".

(** 5 * time.Second, in nanoseconds. *)
Definition defaultClusterConnectTimeout : Z := 5 * 1000000000.

Definition BuildAddress (ip : string) (port : Z) : Address := mkAddress ip port.

Section ClusterGo.
Context {E : Externals}.

Definition convertResolution (resolution : Resolution) : DiscoveryType :=
  match resolution with
  | ClientSideLB => Cluster_EDS
  | DNSLB => Cluster_STRICT_DNS
  | Passthrough => Cluster_ORIGINAL_DST
  end.

Definition updateEds (env : Environment) (cluster : Cluster) (serviceName : string) : Cluster :=
  if decide (Type_ cluster <> Cluster_EDS) then cluster
  else setEdsClusterConfig (Some (mkEdsClusterConfig (Name cluster))) cluster.

Definition buildClusterHosts (env : Environment) (service : Service) (port : Z)
    : list Address :=
  if decide (SvcResolution service <> DNSLB) then []
  else
    match InstancesByPort env (Hostname service) port with
    | inr _ => []
    | inl instances =>
        map (fun instance =>
               BuildAddress (EpAddress (Endpoint instance))
                            (uint32 (EpPort (Endpoint instance))))
            instances
    end.

Definition buildIstioMutualTLS (upstreamServiceAccount : list string) : TLSSettings :=
  {| Mode := TLSSettings_ISTIO_MUTUAL;
     CaCertificates := RootCertPath;
     ClientCertificate := CertChainPath;
     PrivateKey := KeyPath;
     SubjectAltNames := upstreamServiceAccount;
     Sni := "" |}.

(** The closure [converter] of convertIstioMutual, on an optional setting. *)
Definition converter (upstreamServiceAccount : list string) (tls : option TLSSettings)
    : option TLSSettings :=
  match tls with
  | None => None
  | Some t =>
      if decide (Mode t = TLSSettings_ISTIO_MUTUAL)
      then Some (buildIstioMutualTLS upstreamServiceAccount)
      else Some t
  end.

Definition convertPortTLS (accts : list string) (p : PortTrafficPolicy) : PortTrafficPolicy :=
  {| PtpPort := PtpPort p; PtpLoadBalancer := PtpLoadBalancer p;
     PtpConnectionPool := PtpConnectionPool p;
     PtpOutlierDetection := PtpOutlierDetection p;
     PtpTls := converter accts (PtpTls p) |}.

Definition convertPolicyTLS (accts : list string) (portLevel : bool) (tp : TrafficPolicy)
    : TrafficPolicy :=
  {| LoadBalancer := LoadBalancer tp; ConnectionPool := ConnectionPool tp;
     OutlierDetection := OutlierDetection tp;
     Tls := converter accts (Tls tp);
     PortLevelSettings :=
       if portLevel then map (convertPortTLS accts) (PortLevelSettings tp)
       else PortLevelSettings tp |}.

(** convertIstioMutual rewrites the rule in place; here the rule as it is
    afterwards. For a subset only the policy's own TLS setting is converted. *)
Definition convertIstioMutual (destinationRule : DestinationRule)
    (upstreamServiceAccount : list string) : DestinationRule :=
  {| DrTrafficPolicy :=
       option_map (convertPolicyTLS upstreamServiceAccount true)
                  (DrTrafficPolicy destinationRule);
     Subsets :=
       map (fun subset =>
              {| SubsetName := SubsetName subset;
                 SubsetTrafficPolicy :=
                   option_map (convertPolicyTLS upstreamServiceAccount false)
                              (SubsetTrafficPolicy subset) |})
           (Subsets destinationRule) |}.

Definition emptyThresholds : Thresholds :=
  {| ThMaxConnections := None; ThMaxPendingRequests := None;
     ThMaxRequests := None; ThMaxRetries := None |}.

Definition applyConnectionPool (cluster : Cluster) (settings : option ConnectionPoolSettings)
    : Cluster :=
  match settings with
  | None => cluster
  | Some settings =>
      let threshold := emptyThresholds in
      let '(threshold, cluster) :=
        match Http settings with
        | Some http =>
            let threshold :=
              if 0 <? Http2MaxRequests http
              then {| ThMaxConnections := ThMaxConnections threshold;
                      ThMaxPendingRequests := ThMaxPendingRequests threshold;
                      ThMaxRequests := Some (uint32 (Http2MaxRequests http));
                      ThMaxRetries := ThMaxRetries threshold |}
              else threshold in
            let threshold :=
              if 0 <? Http1MaxPendingRequests http
              then {| ThMaxConnections := ThMaxConnections threshold;
                      ThMaxPendingRequests := Some (uint32 (Http1MaxPendingRequests http));
                      ThMaxRequests := ThMaxRequests threshold;
                      ThMaxRetries := ThMaxRetries threshold |}
              else threshold in
            let cluster :=
              if 0 <? HttpMaxRequestsPerConnection http
              then setMaxRequestsPerConnection
                     (Some (uint32 (HttpMaxRequestsPerConnection http))) cluster
              else cluster in
            let threshold :=
              if 0 <? MaxRetries http
              then {| ThMaxConnections := ThMaxConnections threshold;
                      ThMaxPendingRequests := ThMaxPendingRequests threshold;
                      ThMaxRequests := ThMaxRequests threshold;
                      ThMaxRetries := Some (uint32 (MaxRetries http)) |}
              else threshold in
            (threshold, cluster)
        | None => (threshold, cluster)
        end in
      let '(threshold, cluster) :=
        match Tcp settings with
        | Some tcp =>
            let cluster :=
              match TcpConnectTimeout tcp with
              | Some d => setConnectTimeout (GogoDurationToDuration d) cluster
              | None => cluster
              end in
            let threshold :=
              if 0 <? MaxConnections tcp
              then {| ThMaxConnections := Some (uint32 (MaxConnections tcp));
                      ThMaxPendingRequests := ThMaxPendingRequests threshold;
                      ThMaxRequests := ThMaxRequests threshold;
                      ThMaxRetries := ThMaxRetries threshold |}
              else threshold in
            (threshold, cluster)
        | None => (threshold, cluster)
        end in
      setCircuitBreakers (Some [threshold]) cluster
  end.

Definition applyOutlierDetection (cluster : Cluster)
    (outlier : option OutlierDetectionSettings) : Cluster :=
  match outlier with
  | None => cluster
  | Some outlier =>
      match OutlierHttp outlier with
      | None => cluster
      | Some http =>
          setOutlierDetection
            (Some {| OdBaseEjectionTime := BaseEjectionTime http;
                     Consecutive_5Xx :=
                       if 0 <? ConsecutiveErrors http
                       then Some (uint32 (ConsecutiveErrors http)) else None;
                     OdInterval := Interval http;
                     OdMaxEjectionPercent :=
                       if 0 <? MaxEjectionPercent http
                       then Some (uint32 (MaxEjectionPercent http)) else None |})
            cluster
      end
  end.

Definition applyLoadBalancer (cluster : Cluster) (lb : option LoadBalancerSettings) : Cluster :=
  match lb with
  | None => cluster
  | Some lb =>
      match GetSimple lb with
      | LoadBalancerSettings_LEAST_CONN => setLbPolicy Cluster_LEAST_REQUEST cluster
      | LoadBalancerSettings_RANDOM => setLbPolicy Cluster_RANDOM cluster
      | LoadBalancerSettings_ROUND_ROBIN => setLbPolicy Cluster_ROUND_ROBIN cluster
      | LoadBalancerSettings_PASSTHROUGH =>
          setType Cluster_ORIGINAL_DST (setLbPolicy Cluster_ORIGINAL_DST_LB cluster)
      end
  end.

Definition ALPNH2Only : list string := ["h2"].
Definition ALPNInMeshH2 : list string := ["istio"; "h2"].
Definition ALPNInMesh : list string := ["istio"].

Definition applyUpstreamTLSSettings (cluster : Cluster) (tls : option TLSSettings) : Cluster :=
  match tls with
  | None => cluster
  | Some tls =>
      let trustedCa :=
        if decide (String.length (CaCertificates tls) <> 0%nat)
        then Some (CaCertificates tls) else None in
      let certValidationContext :=
        if decide (trustedCa <> None \/ (0 < length (SubjectAltNames tls))%nat)
        then Some {| TrustedCa := trustedCa;
                     VerifySubjectAltName := SubjectAltNames tls |}
        else None in
      match Mode tls with
      | TLSSettings_DISABLE => setTlsContext None cluster
      | TLSSettings_SIMPLE =>
          setTlsContext
            (Some {| TlsCertificates := [];
                     ValidationContext := certValidationContext;
                     AlpnProtocols :=
                       match ClHttp2ProtocolOptions cluster with
                       | Some _ => ALPNH2Only
                       | None => []
                       end;
                     TlsSni := Sni tls |})
            cluster
      | TLSSettings_MUTUAL | TLSSettings_ISTIO_MUTUAL =>
          setTlsContext
            (Some {| TlsCertificates :=
                       [ {| CertificateChain := ClientCertificate tls;
                            CertPrivateKey := PrivateKey tls |} ];
                     ValidationContext := certValidationContext;
                     AlpnProtocols :=
                       match ClHttp2ProtocolOptions cluster with
                       | Some _ => ALPNInMeshH2
                       | None => ALPNInMesh
                       end;
                     TlsSni := Sni tls |})
            cluster
      end
  end.

(** The loop of applyTrafficPolicy over the port level settings: the first
    entry whose selector names the port, by name or by number. *)
Fixpoint findPortLevel (port : Port) (ps : list PortTrafficPolicy)
    : option PortTrafficPolicy :=
  match ps with
  | [] => None
  | p :: rest =>
      let foundPort :=
        match PtpPort p with
        | Some (PortSelector_Name name) => bool_decide (Model.Name port = name)
        | Some (PortSelector_Number number) => bool_decide (uint32 (PortNum port) = number)
        | _ => false
        end in
      if foundPort then Some p else findPortLevel port rest
  end.

Definition applyTrafficPolicy (cluster : Cluster) (policy : option TrafficPolicy)
    (port : option Port) : Cluster :=
  match policy with
  | None => cluster
  | Some policy =>
      let override :=
        match port with
        | Some port =>
            if decide (0 < length (PortLevelSettings policy))%nat
            then findPortLevel port (PortLevelSettings policy)
            else None
        | None => None
        end in
      let connectionPool :=
        match override with Some p => PtpConnectionPool p | None => ConnectionPool policy end in
      let outlierDetection :=
        match override with
        | Some p => PtpOutlierDetection p | None => OutlierDetection policy end in
      let loadBalancer :=
        match override with Some p => PtpLoadBalancer p | None => LoadBalancer policy end in
      let tls := match override with Some p => PtpTls p | None => Tls policy end in
      let cluster := applyConnectionPool cluster connectionPool in
      let cluster := applyOutlierDetection cluster outlierDetection in
      let cluster := applyLoadBalancer cluster loadBalancer in
      applyUpstreamTLSSettings cluster tls
  end.

Definition setUpstreamProtocol (cluster : Cluster) (port : Port) : Cluster :=
  if IsHTTP2 (PortProtocol port)
  then setHttp2ProtocolOptions (Some (mkHttp2ProtocolOptions 1073741824)) cluster
  else cluster.

Definition buildBlackHoleCluster : Cluster :=
  setLbPolicy Cluster_ROUND_ROBIN
    (setConnectTimeout defaultClusterConnectTimeout
       (newCluster BlackHoleCluster Cluster_STATIC [])).

Definition buildDefaultTrafficPolicy (env : Environment) (discoveryType : DiscoveryType)
    : TrafficPolicy :=
  let lbPolicy :=
    if decide (discoveryType = Cluster_ORIGINAL_DST)
    then LoadBalancerSettings_PASSTHROUGH
    else LoadBalancerSettings_ROUND_ROBIN in
  {| LoadBalancer := Some (LbSimple lbPolicy);
     ConnectionPool :=
       Some {| Tcp := Some {| MaxConnections := 0;
                              TcpConnectTimeout :=
                                Some {| Seconds := Seconds (ConnectTimeout (Mesh env));
                                        Nanos := Nanos (ConnectTimeout (Mesh env)) |} |};
               Http := None |};
     OutlierDetection := None;
     Tls := None;
     PortLevelSettings := [] |}.

Definition buildDefaultCluster (env : Environment) (name : string)
    (discoveryType : DiscoveryType) (hosts : list Address) : Cluster :=
  let cluster := newCluster name discoveryType hosts in
  let cluster :=
    if decide (discoveryType = Cluster_STRICT_DNS \/ discoveryType = Cluster_LOGICAL_DNS)
    then setDnsLookupFamily Cluster_V4_ONLY cluster
    else cluster in
  let defaultTrafficPolicy := buildDefaultTrafficPolicy env discoveryType in
  applyTrafficPolicy cluster (Some defaultTrafficPolicy) None.

Variable configgen : ConfigGeneratorImpl.

(** The plugin loops over a cluster. *)
Definition callOnOutboundCluster (env : Environment) (proxy : Proxy) (service : Service)
    (port : Port) (cluster : Cluster) : Cluster :=
  fold_left (fun c p => OnOutboundCluster p env proxy service port c)
            (Plugins configgen) cluster.

Definition callOnInboundCluster (env : Environment) (proxy : Proxy) (service : Service)
    (port : Port) (cluster : Cluster) : Cluster :=
  fold_left (fun c p => OnInboundCluster p env proxy service port c)
            (Plugins configgen) cluster.

(** One round of the inner loop of buildOutboundClusters: the default cluster
    of a service port, as it is when the round ends, and the subset clusters
    behind it. The default cluster is appended before the destination rule
    and the plugins change it, through the pointer the list holds. *)
Definition outboundClustersForPort (env : Environment) (proxy : Proxy) (service : Service)
    (config : option DestinationRule) (port : Port) : list Cluster :=
  let hosts := buildClusterHosts env service (PortNum port) in
  let clusterName :=
    BuildSubsetKey TrafficDirectionOutbound "" (Hostname service) (PortNum port) in
  let upstreamServiceAccounts :=
    GetIstioServiceAccounts env (Hostname service) [Model.Name port] in
  let defaultCluster :=
    buildDefaultCluster env clusterName (convertResolution (SvcResolution service)) hosts in
  let defaultCluster := updateEds env defaultCluster (Hostname service) in
  let defaultCluster := setUpstreamProtocol defaultCluster port in
  let '(defaultCluster, subsetClusters) :=
    match config with
    | Some destinationRule =>
        let destinationRule := convertIstioMutual destinationRule upstreamServiceAccounts in
        let defaultCluster :=
          applyTrafficPolicy defaultCluster (DrTrafficPolicy destinationRule) (Some port) in
        let subsetClusters :=
          map (fun subset =>
                 let subsetClusterName :=
                   BuildSubsetKey TrafficDirectionOutbound (SubsetName subset)
                                  (Hostname service) (PortNum port) in
                 let subsetCluster :=
                   buildDefaultCluster env subsetClusterName
                     (convertResolution (SvcResolution service)) hosts in
                 let subsetCluster := updateEds env subsetCluster (Hostname service) in
                 let subsetCluster := setUpstreamProtocol subsetCluster port in
                 let subsetCluster :=
                   applyTrafficPolicy subsetCluster (DrTrafficPolicy destinationRule)
                                      (Some port) in
                 let subsetCluster :=
                   applyTrafficPolicy subsetCluster (SubsetTrafficPolicy subset)
                                      (Some port) in
                 callOnOutboundCluster env proxy service port subsetCluster)
              (Subsets destinationRule) in
        (defaultCluster, subsetClusters)
    | None =>
        let defaultCluster :=
          if bool_decide (MeshAuthPolicy (Mesh env) = MeshConfig_MUTUAL_TLS)
             && negb (MeshExternal service)
          then applyUpstreamTLSSettings defaultCluster
                 (Some (buildIstioMutualTLS upstreamServiceAccounts))
          else defaultCluster in
        (defaultCluster, [])
    end in
  callOnOutboundCluster env proxy service port defaultCluster :: subsetClusters.

Definition buildOutboundClusters (env : Environment) (proxy : Proxy)
    (services : list Service) : list Cluster :=
  flat_map (fun service =>
              let config := GetDestinationRule env (Hostname service) in
              flat_map (outboundClustersForPort env proxy service config) (Ports service))
           services.

Definition inboundClusterForInstance (env : Environment) (proxy : Proxy)
    (instance : ServiceInstance) : Cluster :=
  let clusterName :=
    BuildSubsetKey TrafficDirectionInbound "" (Hostname (InstService instance))
                   (PortNum (ServicePort (Endpoint instance))) in
  let address := BuildAddress "::1" (uint32 (EpPort (Endpoint instance))) in
  let localCluster := buildDefaultCluster env clusterName Cluster_STATIC [address] in
  let localCluster := setUpstreamProtocol localCluster (ServicePort (Endpoint instance)) in
  let localCluster :=
    callOnInboundCluster env proxy (InstService instance)
                         (ServicePort (Endpoint instance)) localCluster in
  match GetDestinationRule env (Hostname (InstService instance)) with
  | Some destinationRule =>
      match DrTrafficPolicy destinationRule with
      | Some tp => applyConnectionPool localCluster (ConnectionPool tp)
      | None => localCluster
      end
  | None => localCluster
  end.

Definition mgmtClusterForPort (env : Environment) (port : Port) : Cluster :=
  let clusterName :=
    BuildSubsetKey TrafficDirectionInbound "" ManagementClusterHostname (PortNum port) in
  let address := BuildAddress "::1" (uint32 (PortNum port)) in
  let mgmtCluster := buildDefaultCluster env clusterName Cluster_STATIC [address] in
  setUpstreamProtocol mgmtCluster port.

Definition buildInboundClusters (env : Environment) (proxy : Proxy)
    (instances : list ServiceInstance) (managementPorts : list Port) : list Cluster :=
  map (inboundClusterForInstance env proxy) instances
  ++ map (mgmtClusterForPort env) managementPorts.

(** The loop of BuildClusters over the clusters built so far. *)
Definition ensureConnectTimeout (c : Cluster) : Cluster :=
  if decide (ClConnectTimeout c = 0)
  then setConnectTimeout defaultClusterConnectTimeout c
  else c.

Definition BuildClusters (env : Environment) (proxy : Proxy) : list Cluster + string :=
  let clusters : list Cluster := [] in
  match Services env with
  | inr err => inr err
  | inl services =>
      let clusters := clusters ++ buildOutboundClusters env proxy services in
      let clusters := map ensureConnectTimeout clusters in
      let inbound :=
        if decide (Model.Type_ proxy = Sidecar)
        then
          match GetProxyServiceInstances env proxy with
          | inr err => inr err
          | inl instances =>
              let managementPorts := ManagementPorts env (IPAddress proxy) in
              inl (clusters ++ buildInboundClusters env proxy instances managementPorts)
          end
        else inl clusters in
      match inbound with
      | inr err => inr err
      | inl clusters => inl (clusters ++ [buildBlackHoleCluster])
      end
  end.

End ClusterGo.

(** *** The listener generator *)

Definition fileAccessLog : string := "envoy.file_access_log".
Definition envoyHTTPConnectionManager : string := "envoy.http_connection_manager".
Definition HTTPStatPrefix : string := "http".
Definition RDSName : string := "rds".
Definition RDSHttpProxy : string := "http_proxy".
Definition VirtualListenerName : string := "virtual".
Definition WildcardAddress : string := "::0".
Definition LocalhostAddress : string := "::1".

(** The filter names of go-control-plane's util package. *)
Definition xdsutil_CORS : string := "envoy.cors".
Definition xdsutil_Fault : string := "envoy.fault".
Definition xdsutil_Router : string := "envoy.router".
Definition xdsutil_TCPProxy : string := "envoy.tcp_proxy".

Record httpListenerOpts := mkHttpListenerOpts {
  routeConfig : option RouteConfiguration;
  rds : string;
  useRemoteAddress : bool;
  direction : TraceOperation;
  connectionManager : option HttpConnectionManager;
}.

Record filterChainOpts := mkFilterChainOpts {
  sniHosts : list string;
  tlsContext : option DownstreamTlsContext;
  httpOpts : option httpListenerOpts;
  networkFilters : list Filter;
}.

(** buildListenerOpts; [boEnv] is absent where the source leaves the field at
    its zero value. *)
Record buildListenerOpts := mkBuildListenerOpts {
  boEnv : option Environment;
  boProxy : option Proxy;
  boProxyInstances : list ServiceInstance;
  ip : string;
  port : Z;
  protocol : Protocol;
  bindToPort : bool;
  boFilterChainOpts : list filterChainOpts;
}.

(** What the generator writes to the log, and the two gauges it moves. *)
Inductive LogEntry :=
| LogWarn (msg : string)
| LogDebug (msg : string)
(** the warning of buildSidecarOutboundListeners on a listener conflict: the
    protocol of the port, the protocol recorded for the key, the key, the
    cluster name of the port and the name of the listener that stays *)
| LogListenerConflict (new current : Protocol) (key clusterName currentName : string).

Record GenState := mkGenState {
  conflictingOutbound : Z;
  invalidOutboundListeners : Z;
  genLog : list LogEntry;
}.

Definition logEntry (e : LogEntry) (st : GenState) : GenState :=
  {| conflictingOutbound := conflictingOutbound st;
     invalidOutboundListeners := invalidOutboundListeners st;
     genLog := genLog st ++ [e] |}.

Definition addConflictingOutbound (d : Z) (st : GenState) : GenState :=
  {| conflictingOutbound := conflictingOutbound st + d;
     invalidOutboundListeners := invalidOutboundListeners st;
     genLog := genLog st |}.

Definition addInvalidOutboundListeners (d : Z) (st : GenState) : GenState :=
  {| conflictingOutbound := conflictingOutbound st;
     invalidOutboundListeners := invalidOutboundListeners st + d;
     genLog := genLog st |}.

(** What marshalFilters ends in: the listener with its filters, an error, or
    an index out of range. *)
Inductive MarshalResult :=
| MarshalOk (l : Listener)
| MarshalErr (msg : string)
| MarshalPanic.

Definition hostnameLe (a b : Service) : Prop :=
  String.leb (Hostname a) (Hostname b) = true.

#[global] Instance hostnameLe_dec a b : Decision (hostnameLe a b).
Proof. unfold hostnameLe. apply _. Defined.

(** Modelled from the spec: util.GetByAddress is not in src; a management
    listener collides with a listener already bound to the same address. *)
Definition GetByAddress (listeners : list Listener) (addr : Address) : option Listener :=
  find (fun l => bool_decide (LAddress l = addr)) listeners.

Section ListenerGo.
Context {E : Externals}.
Variable configgen : ConfigGeneratorImpl.

Definition buildHTTPConnectionManager (mesh : MeshConfig) (httpOpts : httpListenerOpts)
    (httpFilters : list HttpFilter) : HttpConnectionManager :=
  let filters :=
    httpFilters ++ [mkHttpFilter xdsutil_CORS; mkHttpFilter xdsutil_Fault;
                    mkHttpFilter xdsutil_Router] in
  let refresh := Seconds (RdsRefreshDelay mesh) * 1000000000 in
  let refresh := if decide (refresh = 0) then 5 * 1000000000 else refresh in
  let connectionManager :=
    match connectionManager httpOpts with
    | Some cm => cm
    | None => emptyConnectionManager
    end in
  let routeSpecifier :=
    if decide (rds httpOpts <> "")
    then Some (HttpConnectionManager_Rds (rds httpOpts) [RDSName] refresh)
    else Some (HttpConnectionManager_RouteConfig (routeConfig httpOpts)) in
  let routeSpecifier :=
    match routeSpecifier with
    | None => Some (HttpConnectionManager_RouteConfig (routeConfig httpOpts))
    | Some r => Some r
    end in
  let accessLog :=
    if decide (AccessLogFile mesh <> "")
    then [ {| AlName := fileAccessLog; AlConfig := Some (AccessLogFile mesh) |} ]
    else [ {| AlName := ""; AlConfig := None |} ] in
  {| CmCodecType := AUTO;
     CmAccessLog := accessLog;
     CmHttpFilters := filters;
     CmStatPrefix := HTTPStatPrefix;
     CmUseRemoteAddress := Some (useRemoteAddress httpOpts);
     CmRouteSpecifier := routeSpecifier;
     CmTracing :=
       if EnableTracing mesh then Some (direction httpOpts)
       else CmTracing connectionManager;
     CmGenerateRequestId :=
       if EnableTracing mesh then Some true
       else CmGenerateRequestId connectionManager;
     CmAllowAbsoluteUrl := CmAllowAbsoluteUrl connectionManager |}.

Definition sniMatch (hosts : list string) : option FilterChainMatch :=
  if decide (0 < length hosts)%nat
  then
    let fullWildcardFound := existsb (fun h => bool_decide (h = "*")) hosts in
    if fullWildcardFound then None else Some (mkFilterChainMatch hosts)
  else None.

Definition buildListener (opts : buildListenerOpts) : Listener :=
  let filterChains :=
    map (fun chain =>
           {| FcMatch := sniMatch (sniHosts chain);
              FcTlsContext := tlsContext chain;
              Filters := [] |})
        (boFilterChainOpts opts) in
  let deprecatedV1 := if negb (bindToPort opts) then Some false else None in
  {| LName := ip opts +:+ "_" +:+ Go.SprintfD (port opts);
     LAddress := BuildAddress (ip opts) (uint32 (port opts));
     FilterChains := filterChains;
     DeprecatedV1 := deprecatedV1;
     UseOriginalDst := None;
     Transparent := None |}.

(** The loop of marshalFilters, from chain [i] on. *)
Fixpoint marshalChains (opts : buildListenerOpts) (i : nat)
    (chains : list PluginFilterChain) (l : Listener) : MarshalResult :=
  match chains with
  | [] => MarshalOk l
  | chain :: rest =>
      match boFilterChainOpts opts !! i with
      | None => MarshalPanic
      | Some opt =>
          if ((0 <? length (TCP chain))%nat || (0 <? length (networkFilters opt))%nat)
             && ((0 <? length (HTTP chain))%nat || bool_decide (httpOpts opt <> None))
          then MarshalErr ("listener " +:+ LName l +:+ " filter chain "
                           +:+ pretty i
                           +:+ " cannot set both network and HTTP filter chains")
          else
            match FilterChains l !! i with
            | None => MarshalPanic
            | Some fc =>
                let fc := appendFilters (TCP chain) fc in
                let fc := appendFilters (networkFilters opt) fc in
                match httpOpts opt with
                | Some ho =>
                    match boEnv opts with
                    | None => MarshalPanic
                    | Some env =>
                        let cm := buildHTTPConnectionManager (Mesh env) ho (HTTP chain) in
                        let fc :=
                          appendFilters
                            [ {| FilterName := envoyHTTPConnectionManager;
                                 FilterCfg := ConfigHttpConnectionManager cm |} ] fc in
                        marshalChains opts (S i) rest
                          (setFilterChains (<[i := fc]> (FilterChains l)) l)
                    end
                | None =>
                    marshalChains opts (S i) rest
                      (setFilterChains (<[i := fc]> (FilterChains l)) l)
                end
            end
      end
  end.

Definition marshalFilters (l : Listener) (opts : buildListenerOpts)
    (chains : list PluginFilterChain) : MarshalResult :=
  if decide (length (boFilterChainOpts opts) = 0%nat)
  then MarshalErr ("must have more than 0 chains in listener: " +:+ LName l)
  else marshalChains opts 0 chains l.

Definition emptyPluginFilterChain : PluginFilterChain := {| TCP := []; HTTP := [] |}.

Definition isMgmtProtocol (p : Protocol) : bool :=
  match p with
  | ProtocolHTTP | ProtocolHTTP2 | ProtocolGRPC | ProtocolTCP
  | ProtocolHTTPS | ProtocolMongo | ProtocolRedis => true
  | _ => false
  end.

(** buildMgmtPortListeners; [None] when marshalFilters runs out of range. *)
Fixpoint mgmtPortLoop (managementIP : string) (managementPorts : list Port)
    (listeners : list Listener) (st : GenState) : option (list Listener * GenState) :=
  match managementPorts with
  | [] => Some (listeners, st)
  | mPort :: rest =>
      if isMgmtProtocol (PortProtocol mPort)
      then
        let instance :=
          {| Endpoint := {| EpAddress := managementIP; EpPort := PortNum mPort;
                            ServicePort := mPort |};
             InstService := mkService ManagementClusterHostname "" [] "" false ClientSideLB;
             InstLabels := ∅ |} in
        let listenerOpts :=
          {| boEnv := None; boProxy := None; boProxyInstances := [];
             ip := managementIP; port := PortNum mPort; protocol := ProtocolTCP;
             bindToPort := false;
             boFilterChainOpts :=
               [ {| sniHosts := []; tlsContext := None; httpOpts := None;
                    networkFilters := buildInboundNetworkFilters instance |} ] |} in
        let l := buildListener listenerOpts in
        match marshalFilters l listenerOpts [emptyPluginFilterChain] with
        | MarshalPanic => None
        | MarshalErr msg =>
            mgmtPortLoop managementIP rest listeners
              (logEntry (LogWarn ("buildMgmtPortListeners " +:+ msg)) st)
        | MarshalOk l => mgmtPortLoop managementIP rest (listeners ++ [l]) st
        end
      else
        mgmtPortLoop managementIP rest listeners
          (logEntry (LogWarn ("Unsupported inbound protocol for management port "
                              +:+ Go.SprintfD (PortNum mPort))) st)
  end.

Definition buildMgmtPortListeners (managementPorts : list Port) (managementIP : string)
    (st : GenState) : option (list Listener * GenState) :=
  let managementIP := if decide (managementIP = "") then "::1" else managementIP in
  mgmtPortLoop managementIP managementPorts [] st.

(** The plugin loops over a listener under construction; an error of a hook
    is logged and the loop goes on. *)
Definition callListenerPlugins
    (hook : Plugin -> InputParams -> MutableObjects -> MutableObjects * option string)
    (params : InputParams) (mutable : MutableObjects) (st : GenState)
    : MutableObjects * GenState :=
  fold_left (fun '(m, st) p =>
               match hook p params m with
               | (m, Some err) => (m, logEntry (LogWarn err) st)
               | (m, None) => (m, st)
               end)
            (Plugins configgen) (mutable, st).

(** One round of the loop of buildSidecarInboundListeners; [None] when
    marshalFilters runs out of range. *)
Definition inboundListenerForInstance (env : Environment) (node : Proxy)
    (proxyInstances : list ServiceInstance) (instance : ServiceInstance)
    (acc : list Listener * gmap string Listener * GenState)
    : option (list Listener * gmap string Listener * GenState) :=
  let '(listeners, listenerMap, st) := acc in
  let endpoint := Endpoint instance in
  let protocol := PortProtocol (ServicePort endpoint) in
  let listenerMapKey := EpAddress endpoint +:+ ":" +:+ Go.SprintfD (EpPort endpoint) in
  match listenerMap !! listenerMapKey with
  | Some l =>
      Some (listeners, listenerMap,
            logEntry (LogWarn ("Conflicting inbound listeners on " +:+ listenerMapKey
                               +:+ ": previous listener " +:+ LName l)) st)
  | None =>
      let listenerType := ModelProtocolToListenerType protocol in
      let chainOpts :=
        match listenerType with
        | ListenerTypeHTTP =>
            Some [ {| sniHosts := []; tlsContext := None;
                      httpOpts :=
                        Some {| routeConfig :=
                                  buildSidecarInboundHTTPRouteConfig env node instance;
                                rds := ""; useRemoteAddress := false;
                                direction := INGRESS; connectionManager := None |};
                      networkFilters := [] |} ]
        | ListenerTypeTCP =>
            Some [ {| sniHosts := []; tlsContext := None; httpOpts := None;
                      networkFilters := buildInboundNetworkFilters instance |} ]
        | ListenerTypeUnknown => None
        end in
      match chainOpts with
      | None =>
          Some (listeners, listenerMap,
                logEntry (LogWarn ("Unsupported inbound protocol for port "
                                   +:+ Go.SprintfD (PortNum (ServicePort endpoint)))) st)
      | Some chainOpts =>
          let listenerOpts :=
            {| boEnv := Some env; boProxy := Some node;
               boProxyInstances := proxyInstances;
               ip := EpAddress endpoint; port := EpPort endpoint; protocol := protocol;
               bindToPort := false; boFilterChainOpts := chainOpts |} in
          let l := buildListener listenerOpts in
          let mutable :=
            {| MoListener := l;
               MoFilterChains :=
                 replicate (length (FilterChains l)) emptyPluginFilterChain |} in
          let params :=
            {| IpListenerType := listenerType; IpEnv := env; IpNode := node;
               IpProxyInstances := proxyInstances;
               IpServiceInstance := Some instance; IpService := None |} in
          let '(mutable, st) := callListenerPlugins OnInboundListener params mutable st in
          match marshalFilters (MoListener mutable) listenerOpts (MoFilterChains mutable) with
          | MarshalPanic => None
          | MarshalErr msg =>
              Some (listeners, listenerMap,
                    logEntry (LogWarn ("buildSidecarInboundListeners " +:+ msg)) st)
          | MarshalOk ml =>
              Some (listeners ++ [ml], <[listenerMapKey := ml]> listenerMap, st)
          end
      end
  end.

Definition buildSidecarInboundListeners (env : Environment) (node : Proxy)
    (proxyInstances : list ServiceInstance) (st : GenState)
    : option (list Listener * GenState) :=
  match
    foldl (fun acc instance =>
             acc ≫= inboundListenerForInstance env node proxyInstances instance)
          (Some ([], ∅, st)) proxyInstances
  with
  | Some (listeners, _, st) => Some (listeners, st)
  | None => None
  end.

(** The two maps of buildSidecarOutboundListeners and the generator state. *)
Record OutboundState := mkOutboundState {
  listenerTypeMap : gmap string Protocol;
  listenerMap : gmap string Listener;
  obGen : GenState;
}.

(** listenerTypeMap[key]: a key that is not there gives the zero protocol,
    which is in no family; [ProtocolUnsupported] stands for it. *)
Definition typeOf (m : gmap string Protocol) (key : string) : Protocol :=
  default ProtocolUnsupported (m !! key).

Definition withGen (g : GenState) (s : OutboundState) : OutboundState :=
  {| listenerTypeMap := listenerTypeMap s; listenerMap := listenerMap s; obGen := g |}.

(** The conflict branch: the gauge goes up by one and the warning is logged;
    the caller goes on to the next port. *)
Definition reportConflict (servicePort : Port) (key clusterName : string)
    (current : Listener) (s : OutboundState) : OutboundState :=
  withGen
    (logEntry
       (LogListenerConflict (PortProtocol servicePort) (typeOf (listenerTypeMap s) key)
                            key clusterName (LName current))
       (addConflictingOutbound 1 (obGen s)))
    s.

(** The part of a round after the switch: build the listener, run the
    plugins, serialize the filters, then merge into the listener of the key
    or record a new one. *)
Definition finishOutboundListener (env : Environment) (node : Proxy)
    (proxyInstances : list ServiceInstance) (service : Service) (servicePort : Port)
    (listenAddress listenerMapKey : string) (currentListener : option Listener)
    (chainOpts : list filterChainOpts) (s : OutboundState) : option OutboundState :=
  let listenerOpts :=
    {| boEnv := Some env; boProxy := Some node; boProxyInstances := proxyInstances;
       ip := listenAddress; port := PortNum servicePort;
       protocol := PortProtocol servicePort; bindToPort := false;
       boFilterChainOpts := chainOpts |} in
  let l := buildListener listenerOpts in
  let mutable :=
    {| MoListener := l;
       MoFilterChains := replicate (length (FilterChains l)) emptyPluginFilterChain |} in
  let params :=
    {| IpListenerType := ModelProtocolToListenerType (PortProtocol servicePort);
       IpEnv := env; IpNode := node; IpProxyInstances := proxyInstances;
       IpServiceInstance := None; IpService := Some service |} in
  let '(mutable, g) := callListenerPlugins OnOutboundListener params mutable (obGen s) in
  match marshalFilters (MoListener mutable) listenerOpts (MoFilterChains mutable) with
  | MarshalPanic => None
  | MarshalErr msg =>
      Some (withGen (logEntry (LogWarn ("buildSidecarOutboundListeners: " +:+ msg)) g) s)
  | MarshalOk ml =>
      let s :=
        match currentListener with
        | Some cur =>
            let newFilterChains := FilterChains cur ++ FilterChains ml in
            {| listenerTypeMap := listenerTypeMap s;
               listenerMap :=
                 <[listenerMapKey := setFilterChains newFilterChains cur]> (listenerMap s);
               obGen := g |}
        | None =>
            {| listenerTypeMap :=
                 <[listenerMapKey := PortProtocol servicePort]> (listenerTypeMap s);
               listenerMap := <[listenerMapKey := ml]> (listenerMap s);
               obGen := g |}
        end in
      if (DebugEnabled && (1 <? length (FilterChains ml))%nat)
         || bool_decide (currentListener <> None)
      then
        let numChains :=
          match currentListener with
          | Some cur => length (FilterChains cur ++ FilterChains ml)
          | None => length (FilterChains ml)
          end in
        Some (withGen
                (logEntry
                   (LogDebug ("buildSidecarOutboundListeners: multiple filter chain listener "
                              +:+ LName ml +:+ " with " +:+ pretty numChains +:+ " chains"))
                   (obGen s))
                s)
      else Some s
  end.

(** One round of the inner loop of buildSidecarOutboundListeners. *)
Definition outboundListenerForPort (env : Environment) (node : Proxy)
    (proxyInstances : list ServiceInstance) (services : list Service)
    (service : Service) (servicePort : Port) (s : OutboundState) : option OutboundState :=
  let clusterName :=
    BuildSubsetKey TrafficDirectionOutbound "" (Hostname service) (PortNum servicePort) in
  let listenAddress := WildcardAddress in
  match ModelProtocolToListenerType (PortProtocol servicePort) with
  | ListenerTypeHTTP =>
      let listenerMapKey :=
        listenAddress +:+ ":" +:+ Go.SprintfD (PortNum servicePort) in
      match listenerMap s !! listenerMapKey with
      | Some l =>
          if negb (IsHTTP (typeOf (listenerTypeMap s) listenerMapKey))
          then Some (reportConflict servicePort listenerMapKey clusterName l s)
          else Some s
      | None =>
          let operation := if decide (Model.Type_ node = Router) then INGRESS else EGRESS in
          let useRemoteAddress := bool_decide (Model.Type_ node = Router) in
          let chainOpts :=
            [ {| sniHosts := []; tlsContext := None;
                 httpOpts :=
                   Some {| routeConfig :=
                             BuildSidecarOutboundHTTPRouteConfig env node proxyInstances
                               services (Go.SprintfD (PortNum servicePort));
                           rds := ""; useRemoteAddress := useRemoteAddress;
                           direction := operation; connectionManager := None |};
                 networkFilters := [] |} ] in
          finishOutboundListener env node proxyInstances service servicePort
            listenAddress listenerMapKey None chainOpts s
      end
  | ListenerTypeTCP =>
      let '(listenAddress, addresses) :=
        if decide (SvcResolution service <> Passthrough)
        then (GetServiceAddressForProxy service node,
              [GetServiceAddressForProxy service node])
        else (listenAddress, []) in
      let listenerMapKey :=
        listenAddress +:+ ":" +:+ Go.SprintfD (PortNum servicePort) in
      let currentListener := listenerMap s !! listenerMapKey in
      let conflict :=
        match currentListener with
        | Some cur =>
            if negb (IsTCP (typeOf (listenerTypeMap s) listenerMapKey))
               || bool_decide (PortProtocol servicePort <> ProtocolHTTPS)
               || negb (MeshExternal service)
            then Some cur else None
        | None => None
        end in
      match conflict with
      | Some cur => Some (reportConflict servicePort listenerMapKey clusterName cur s)
      | None =>
          let filterChainOption :=
            {| sniHosts :=
                 if bool_decide (PortProtocol servicePort = ProtocolHTTPS)
                    && MeshExternal service
                 then [Hostname service] else [];
               tlsContext := None; httpOpts := None;
               networkFilters :=
                 buildOutboundNetworkFilters clusterName addresses servicePort |} in
          finishOutboundListener env node proxyInstances service servicePort
            listenAddress listenerMapKey currentListener [filterChainOption] s
      end
  | ListenerTypeUnknown => Some s
  end.

(** The last loop of buildSidecarOutboundListeners, over listenerMap. Go
    walks a map in no fixed order; the order here is that of [map_to_list]. *)
Definition collectOutbound (s : OutboundState) : list Listener * GenState :=
  let '(tcpListeners, httpListeners, g) :=
    foldl (fun '(tcpListeners, httpListeners, g) '(name, l) =>
             let ltype := typeOf (listenerTypeMap s) name in
             match Validate l with
             | Some err =>
                 (tcpListeners, httpListeners,
                  addInvalidOutboundListeners 1
                    (logEntry (LogWarn ("buildSidecarOutboundListeners: error validating listener "
                                        +:+ name +:+ ": " +:+ err)) g))
             | None =>
                 if IsTCP ltype
                 then (tcpListeners ++ [l], httpListeners, g)
                 else (tcpListeners, httpListeners ++ [l], g)
             end)
          ([], [], obGen s) (map_to_list (listenerMap s)) in
  (tcpListeners ++ httpListeners, g).

(** The two nested loops over services and their ports. *)
Definition outboundLoop (env : Environment) (node : Proxy)
    (proxyInstances : list ServiceInstance) (services : list Service)
    (s : OutboundState) : option OutboundState :=
  foldl (fun acc service =>
           foldl (fun acc servicePort =>
                    acc ≫= outboundListenerForPort env node proxyInstances services
                             service servicePort)
                 acc (Ports service))
        (Some s) services.

Definition buildSidecarOutboundListeners (env : Environment) (node : Proxy)
    (proxyInstances : list ServiceInstance) (services : list Service) (st : GenState)
    : option (list Listener * GenState) :=
  collectOutbound <$>
    outboundLoop env node proxyInstances services
      {| listenerTypeMap := ∅; listenerMap := ∅; obGen := st |}.

(** The loop of buildSidecarListeners over the management listeners: one
    whose address a listener already has is left out. *)
Definition appendMgmtListeners (mgmtListeners : list Listener)
    (acc : list Listener * GenState) : list Listener * GenState :=
  foldl (fun '(listeners, st) m =>
           match GetByAddress listeners (LAddress m) with
           | Some l =>
               (listeners,
                logEntry (LogWarn ("Omitting listener for management address "
                                   +:+ LName m +:+ " due to collision with service listener "
                                   +:+ LName l)) st)
           | None => (listeners ++ [m], st)
           end)
        acc mgmtListeners.

Definition virtualListener (mesh : MeshConfig) (node : Proxy) : Listener :=
  let transparent :=
    if decide (default "" (Metadata node !! "INTERCEPTION_MODE") = "TPROXY")
    then Some true else None in
  {| LName := VirtualListenerName;
     LAddress := BuildAddress WildcardAddress (uint32 (ProxyListenPort mesh));
     Transparent := transparent;
     UseOriginalDst := Some true;
     FilterChains :=
       [ {| FcMatch := None; FcTlsContext := None;
            Filters := [ {| FilterName := xdsutil_TCPProxy;
                            FilterCfg := ConfigTcpProxy BlackHoleCluster BlackHoleCluster |} ] |} ];
     DeprecatedV1 := None |}.

(** The options of the HTTP proxy listener. *)
Definition httpProxyOpts (env : Environment) (node : Proxy)
    (proxyInstances : list ServiceInstance) (services : list Service) : buildListenerOpts :=
  let isRouter := bool_decide (Model.Type_ node = Router) in
  let useRemoteAddress := isRouter in
  let traceOperation := if isRouter then INGRESS else EGRESS in
  let listenAddress := if isRouter then WildcardAddress else LocalhostAddress in
  {| boEnv := Some env; boProxy := Some node; boProxyInstances := proxyInstances;
     ip := listenAddress; port := ProxyHttpPort (Mesh env); protocol := ProtocolHTTP;
     boFilterChainOpts :=
       [ {| sniHosts := []; tlsContext := None;
            httpOpts :=
              Some {| routeConfig :=
                        BuildSidecarOutboundHTTPRouteConfig env node proxyInstances
                          services RDSHttpProxy;
                      rds := ""; useRemoteAddress := useRemoteAddress;
                      direction := traceOperation;
                      connectionManager :=
                        Some {| CmCodecType := AUTO; CmAccessLog := [];
                                CmHttpFilters := []; CmStatPrefix := "";
                                CmUseRemoteAddress := None; CmRouteSpecifier := None;
                                CmTracing := None; CmGenerateRequestId := None;
                                CmAllowAbsoluteUrl := Some true |} |};
            networkFilters := [] |} ];
     bindToPort := true |}.

(** buildSidecarListeners: the listeners or the error of the registry, with
    the generator state; [None] when a marshalFilters ran out of range. *)
Definition buildSidecarListeners (env : Environment) (node : Proxy) (st : GenState)
    : option ((list Listener + string) * GenState) :=
  let mesh := Mesh env in
  let managementPorts := ManagementPorts env (IPAddress node) in
  match GetProxyServiceInstances env node with
  | inr err => Some (inr err, st)
  | inl proxyInstances =>
      match Services env with
      | inr err => Some (inr err, st)
      | inl services =>
          let services := merge_sort hostnameLe services in
          let listeners : list Listener := [] in
          '(listeners, st) ←
            (if decide (0 < ProxyListenPort mesh)
             then
               '(inbound, st) ← buildSidecarInboundListeners env node proxyInstances st;
               '(outbound, st) ←
                 buildSidecarOutboundListeners env node proxyInstances services st;
               let listeners := listeners ++ inbound in
               let listeners := listeners ++ outbound in
               '(mgmtListeners, st) ←
                 buildMgmtPortListeners managementPorts (IPAddress node) st;
               let '(listeners, st) := appendMgmtListeners mgmtListeners (listeners, st) in
               Some (listeners ++ [virtualListener mesh node], st)
             else Some (listeners, st));
          if decide (0 < ProxyHttpPort mesh)
          then
            let opts := httpProxyOpts env node proxyInstances services in
            let l := buildListener opts in
            match marshalFilters l opts [emptyPluginFilterChain] with
            | MarshalPanic => None
            | MarshalErr msg =>
                Some (inl listeners, logEntry (LogWarn ("buildSidecarListeners " +:+ msg)) st)
            | MarshalOk l => Some (inl (listeners ++ [l]), st)
            end
          else Some (inl listeners, st)
      end
  end.

(** The key of listenerMap a round of buildSidecarOutboundListeners works
    under, as the two cases of its switch compute it. *)
Definition outboundListenerMapKey (node : Proxy) (service : Service) (servicePort : Port)
    : string :=
  match ModelProtocolToListenerType (PortProtocol servicePort) with
  | ListenerTypeTCP =>
      (if decide (SvcResolution service <> Passthrough)
       then GetServiceAddressForProxy service node else WildcardAddress)
      +:+ ":" +:+ Go.SprintfD (PortNum servicePort)
  | _ => WildcardAddress +:+ ":" +:+ Go.SprintfD (PortNum servicePort)
  end.

Definition BuildListeners (env : Environment) (node : Proxy) (st : GenState)
    : option ((list Listener + string) * GenState) :=
  match Model.Type_ node with
  | Sidecar => buildSidecarListeners env node st
  | Router | Ingress => Some (buildGatewayListeners env node, st)
  end.

End ListenerGo.

(** *** Notions the properties of the generator are stated with *)

(** The protocol of a port and the protocol recorded for a listener are
    incompatible when the port asks for a chain of one family and the
    listener was built for a protocol outside that family. *)
Definition incompatible (new current : Protocol) : bool :=
  match ModelProtocolToListenerType new with
  | ListenerTypeHTTP => negb (IsHTTP current)
  | ListenerTypeTCP => negb (IsTCP current)
  | ListenerTypeUnknown => false
  end.

End V1alpha3.

(** ** pilot/pkg/proxy/envoy/v2: the ADS stream loop, the registry and
       adsPushAll *)
Module Ads.
Import Model.

(** A time.Time, in nanoseconds from the zero time. *)
Definition timeZero : Z := 0.
Definition IsZero (t : Z) : bool := t =? 0.
Definition Second : Z := 1000000000.
Definition SendTimeout : Z := 5 * Second.
Definition PushTimeout : Z := 5 * Second.

(** Modelled from the spec: the type URL constants are not in src; they are
    the exact strings of the upstream schema. *)
Definition ClusterType : string := "type.googleapis.com/envoy.api.v2.Cluster".
Definition EndpointType : string := "type.googleapis.com/envoy.api.v2.ClusterLoadAssignment".
Definition ListenerType : string := "type.googleapis.com/envoy.api.v2.Listener".
Definition RouteType : string := "type.googleapis.com/envoy.api.v2.RouteConfiguration".

(** The node message of a request: its id and its metadata. *)
Record Node := mkNode {
  Id : string;
  NodeMeta : gmap string string;
}.

(** The fields of a DiscoveryRequest the stream loop reads.  The node is a
    pointer in the Go struct: a request can come without one. *)
Record DiscoveryRequest := mkDiscoveryRequest {
  ReqNode : option Node;
  TypeUrl : string;
  ResourceNames : list string;
  VersionInfo : string;
  ResponseNonce : string;
  ErrorDetail : option string;
}.

(** discReq.Node.Id and discReq.Node.Metadata, as the loop reads them once it
    has got past its first read of the node (which is where a request
    without a node fails, see handleRequest). *)
Definition NodeId (discReq : DiscoveryRequest) : string :=
  match ReqNode discReq with
  | Some node => Id node
  | None => ""
  end.

Definition NodeMetadata (discReq : DiscoveryRequest) : gmap string string :=
  match ReqNode discReq with
  | Some node => NodeMeta node
  | None => ∅
  end.

(** A DiscoveryResponse as the stream sees it: its type and the names of the
    resources it was generated for (version and nonce are opaque). *)
Record DiscoveryResponse := mkDiscoveryResponse {
  RespTypeUrl : string;
  RespResources : list string;
}.

(** A pointer to an XdsConnection. *)
Abbreviation loc := nat.

Record XdsConnection := mkXdsConnection {
  PeerAddr : string;
  Connect : Z;
  ConID : string;
  modelNode : option Proxy;
  (** whether doneChannel has been closed *)
  doneChannelClosed : bool;
  RouteConfigs : gmap string (option V1alpha3.RouteConfiguration);
  Clusters : list string;
  Routes : list string;
  LDSWatch : bool;
  CDSWatch : bool;
  added : bool;
  LastPush : Z;
  LastPushFailure : Z;
}.

Definition newXdsConnection (peerAddr : string) (now : Z) : XdsConnection :=
  {| PeerAddr := peerAddr; Connect := now; ConID := ""; modelNode := None;
     doneChannelClosed := false; RouteConfigs := ∅; Clusters := []; Routes := [];
     LDSWatch := false; CDSWatch := false; added := false;
     LastPush := timeZero; LastPushFailure := timeZero |}.

Definition setModelNode (n : option Proxy) (c : XdsConnection) : XdsConnection :=
  {| PeerAddr := PeerAddr c; Connect := Connect c; ConID := ConID c; modelNode := n;
     doneChannelClosed := doneChannelClosed c; RouteConfigs := RouteConfigs c;
     Clusters := Clusters c; Routes := Routes c; LDSWatch := LDSWatch c;
     CDSWatch := CDSWatch c; added := added c; LastPush := LastPush c;
     LastPushFailure := LastPushFailure c |}.

Definition setConID (i : string) (c : XdsConnection) : XdsConnection :=
  {| PeerAddr := PeerAddr c; Connect := Connect c; ConID := i; modelNode := modelNode c;
     doneChannelClosed := doneChannelClosed c; RouteConfigs := RouteConfigs c;
     Clusters := Clusters c; Routes := Routes c; LDSWatch := LDSWatch c;
     CDSWatch := CDSWatch c; added := added c; LastPush := LastPush c;
     LastPushFailure := LastPushFailure c |}.

Definition setDone (b : bool) (c : XdsConnection) : XdsConnection :=
  {| PeerAddr := PeerAddr c; Connect := Connect c; ConID := ConID c;
     modelNode := modelNode c; doneChannelClosed := b; RouteConfigs := RouteConfigs c;
     Clusters := Clusters c; Routes := Routes c; LDSWatch := LDSWatch c;
     CDSWatch := CDSWatch c; added := added c; LastPush := LastPush c;
     LastPushFailure := LastPushFailure c |}.

Definition setRouteConfigs (r : gmap string (option V1alpha3.RouteConfiguration))
    (c : XdsConnection) : XdsConnection :=
  {| PeerAddr := PeerAddr c; Connect := Connect c; ConID := ConID c;
     modelNode := modelNode c; doneChannelClosed := doneChannelClosed c;
     RouteConfigs := r; Clusters := Clusters c; Routes := Routes c;
     LDSWatch := LDSWatch c; CDSWatch := CDSWatch c; added := added c;
     LastPush := LastPush c; LastPushFailure := LastPushFailure c |}.

Definition setClusters (l : list string) (c : XdsConnection) : XdsConnection :=
  {| PeerAddr := PeerAddr c; Connect := Connect c; ConID := ConID c;
     modelNode := modelNode c; doneChannelClosed := doneChannelClosed c;
     RouteConfigs := RouteConfigs c; Clusters := l; Routes := Routes c;
     LDSWatch := LDSWatch c; CDSWatch := CDSWatch c; added := added c;
     LastPush := LastPush c; LastPushFailure := LastPushFailure c |}.

Definition setRoutes (l : list string) (c : XdsConnection) : XdsConnection :=
  {| PeerAddr := PeerAddr c; Connect := Connect c; ConID := ConID c;
     modelNode := modelNode c; doneChannelClosed := doneChannelClosed c;
     RouteConfigs := RouteConfigs c; Clusters := Clusters c; Routes := l;
     LDSWatch := LDSWatch c; CDSWatch := CDSWatch c; added := added c;
     LastPush := LastPush c; LastPushFailure := LastPushFailure c |}.

Definition setLDSWatch (b : bool) (c : XdsConnection) : XdsConnection :=
  {| PeerAddr := PeerAddr c; Connect := Connect c; ConID := ConID c;
     modelNode := modelNode c; doneChannelClosed := doneChannelClosed c;
     RouteConfigs := RouteConfigs c; Clusters := Clusters c; Routes := Routes c;
     LDSWatch := b; CDSWatch := CDSWatch c; added := added c;
     LastPush := LastPush c; LastPushFailure := LastPushFailure c |}.

Definition setCDSWatch (b : bool) (c : XdsConnection) : XdsConnection :=
  {| PeerAddr := PeerAddr c; Connect := Connect c; ConID := ConID c;
     modelNode := modelNode c; doneChannelClosed := doneChannelClosed c;
     RouteConfigs := RouteConfigs c; Clusters := Clusters c; Routes := Routes c;
     LDSWatch := LDSWatch c; CDSWatch := b; added := added c;
     LastPush := LastPush c; LastPushFailure := LastPushFailure c |}.

Definition setAdded (b : bool) (c : XdsConnection) : XdsConnection :=
  {| PeerAddr := PeerAddr c; Connect := Connect c; ConID := ConID c;
     modelNode := modelNode c; doneChannelClosed := doneChannelClosed c;
     RouteConfigs := RouteConfigs c; Clusters := Clusters c; Routes := Routes c;
     LDSWatch := LDSWatch c; CDSWatch := CDSWatch c; added := b;
     LastPush := LastPush c; LastPushFailure := LastPushFailure c |}.

Definition setLastPush (t : Z) (c : XdsConnection) : XdsConnection :=
  {| PeerAddr := PeerAddr c; Connect := Connect c; ConID := ConID c;
     modelNode := modelNode c; doneChannelClosed := doneChannelClosed c;
     RouteConfigs := RouteConfigs c; Clusters := Clusters c; Routes := Routes c;
     LDSWatch := LDSWatch c; CDSWatch := CDSWatch c; added := added c;
     LastPush := t; LastPushFailure := LastPushFailure c |}.

Definition setLastPushFailure (t : Z) (c : XdsConnection) : XdsConnection :=
  {| PeerAddr := PeerAddr c; Connect := Connect c; ConID := ConID c;
     modelNode := modelNode c; doneChannelClosed := doneChannelClosed c;
     RouteConfigs := RouteConfigs c; Clusters := Clusters c; Routes := Routes c;
     LDSWatch := LDSWatch c; CDSWatch := CDSWatch c; added := added c;
     LastPush := LastPush c; LastPushFailure := t |}.

(** *** Metrics and log *)

(** A counter or gauge vector, by label. *)
Abbreviation Vec := (gmap string Z).

Definition vecAdd (label : string) (d : Z) (v : Vec) : Vec :=
  <[label := default 0 (v !! label) + d]> v.

Definition vecGet (label : string) (v : Vec) : Z := default 0 (v !! label).

Record Metrics := mkMetrics {
  cdsReject : Vec;
  edsReject : Vec;
  ldsReject : Vec;
  xdsClients : Z;
  writeTimeout : Z;
  pushTimeouts : Z;
  pushes : Vec;
  pushErrors : Vec;
}.

Definition emptyMetrics : Metrics :=
  {| cdsReject := ∅; edsReject := ∅; ldsReject := ∅; xdsClients := 0;
     writeTimeout := 0; pushTimeouts := 0; pushes := ∅; pushErrors := ∅ |}.

(** The label pair of a reject gauge, node and error message, as one key. *)
Definition rejectLabel (node err : string) : string := node +:+ "|" +:+ err.

Definition addCdsReject (node err : string) (m : Metrics) : Metrics :=
  {| cdsReject := vecAdd (rejectLabel node err) 1 (cdsReject m);
     edsReject := edsReject m; ldsReject := ldsReject m; xdsClients := xdsClients m;
     writeTimeout := writeTimeout m; pushTimeouts := pushTimeouts m;
     pushes := pushes m; pushErrors := pushErrors m |}.

Definition addEdsReject (node err : string) (m : Metrics) : Metrics :=
  {| cdsReject := cdsReject m;
     edsReject := vecAdd (rejectLabel node err) 1 (edsReject m);
     ldsReject := ldsReject m; xdsClients := xdsClients m;
     writeTimeout := writeTimeout m; pushTimeouts := pushTimeouts m;
     pushes := pushes m; pushErrors := pushErrors m |}.

Definition addLdsReject (node err : string) (m : Metrics) : Metrics :=
  {| cdsReject := cdsReject m; edsReject := edsReject m;
     ldsReject := vecAdd (rejectLabel node err) 1 (ldsReject m);
     xdsClients := xdsClients m;
     writeTimeout := writeTimeout m; pushTimeouts := pushTimeouts m;
     pushes := pushes m; pushErrors := pushErrors m |}.

Definition setXdsClients (n : Z) (m : Metrics) : Metrics :=
  {| cdsReject := cdsReject m; edsReject := edsReject m; ldsReject := ldsReject m;
     xdsClients := n;
     writeTimeout := writeTimeout m; pushTimeouts := pushTimeouts m;
     pushes := pushes m; pushErrors := pushErrors m |}.

Definition addWriteTimeout (d : Z) (m : Metrics) : Metrics :=
  {| cdsReject := cdsReject m; edsReject := edsReject m; ldsReject := ldsReject m;
     xdsClients := xdsClients m;
     writeTimeout := writeTimeout m + d; pushTimeouts := pushTimeouts m;
     pushes := pushes m; pushErrors := pushErrors m |}.

Definition addPushTimeouts (d : Z) (m : Metrics) : Metrics :=
  {| cdsReject := cdsReject m; edsReject := edsReject m; ldsReject := ldsReject m;
     xdsClients := xdsClients m;
     writeTimeout := writeTimeout m; pushTimeouts := pushTimeouts m + d;
     pushes := pushes m; pushErrors := pushErrors m |}.

Definition addPushes (label : string) (m : Metrics) : Metrics :=
  {| cdsReject := cdsReject m; edsReject := edsReject m; ldsReject := ldsReject m;
     xdsClients := xdsClients m;
     writeTimeout := writeTimeout m; pushTimeouts := pushTimeouts m;
     pushes := vecAdd label 1 (pushes m); pushErrors := pushErrors m |}.

Definition addPushErrors (label : string) (m : Metrics) : Metrics :=
  {| cdsReject := cdsReject m; edsReject := edsReject m; ldsReject := ldsReject m;
     xdsClients := xdsClients m;
     writeTimeout := writeTimeout m; pushTimeouts := pushTimeouts m;
     pushes := pushes m; pushErrors := vecAdd label 1 (pushErrors m) |}.

Inductive LogEntry :=
| LogInfo (msg : string)
| LogWarn (msg : string)
| LogError (msg : string)
| LogDebug (msg : string).

(** *** The process-wide tables *)

(** Modelled from the spec: EdsCluster is not in src; per cluster the index
    holds the connections watching it, by connection id, and the most recent
    endpoint assignment. *)
Record EdsCluster := mkEdsCluster {
  LoadAssignment : option (list string);
  EdsClients : gmap string loc;
}.

Record Server := mkServer {
  adsClients : gmap string loc;
  adsSidecarIDConnectionsMap : gmap string (gmap string loc);
  edsClusters : gmap string EdsCluster;
  connectionNumber : nat;
  metrics : Metrics;
  adsLog : list LogEntry;
}.

Definition emptyServer : Server :=
  {| adsClients := ∅; adsSidecarIDConnectionsMap := ∅; edsClusters := ∅;
     connectionNumber := 0; metrics := emptyMetrics; adsLog := [] |}.

Definition setAdsClients (m : gmap string loc) (s : Server) : Server :=
  {| adsClients := m; adsSidecarIDConnectionsMap := adsSidecarIDConnectionsMap s;
     edsClusters := edsClusters s; connectionNumber := connectionNumber s;
     metrics := metrics s; adsLog := adsLog s |}.

Definition setSidecarMap (m : gmap string (gmap string loc)) (s : Server) : Server :=
  {| adsClients := adsClients s; adsSidecarIDConnectionsMap := m;
     edsClusters := edsClusters s; connectionNumber := connectionNumber s;
     metrics := metrics s; adsLog := adsLog s |}.

Definition setEdsClusters (m : gmap string EdsCluster) (s : Server) : Server :=
  {| adsClients := adsClients s;
     adsSidecarIDConnectionsMap := adsSidecarIDConnectionsMap s;
     edsClusters := m; connectionNumber := connectionNumber s;
     metrics := metrics s; adsLog := adsLog s |}.

Definition setConnectionNumber (n : nat) (s : Server) : Server :=
  {| adsClients := adsClients s;
     adsSidecarIDConnectionsMap := adsSidecarIDConnectionsMap s;
     edsClusters := edsClusters s; connectionNumber := n;
     metrics := metrics s; adsLog := adsLog s |}.

Definition setMetrics (m : Metrics) (s : Server) : Server :=
  {| adsClients := adsClients s;
     adsSidecarIDConnectionsMap := adsSidecarIDConnectionsMap s;
     edsClusters := edsClusters s; connectionNumber := connectionNumber s;
     metrics := m; adsLog := adsLog s |}.

Definition logAds (e : LogEntry) (s : Server) : Server :=
  {| adsClients := adsClients s;
     adsSidecarIDConnectionsMap := adsSidecarIDConnectionsMap s;
     edsClusters := edsClusters s; connectionNumber := connectionNumber s;
     metrics := metrics s; adsLog := adsLog s ++ [e] |}.

(** Modelled from the spec: connectionID is not in src; the connection id
    combines the node id with a monotonically increasing counter: the node
    id, a dash and the counter in decimal. *)
Definition connectionID (node : string) (counter : nat) : string :=
  node +:+ "-" +:+ pretty counter.

(** Modelled from the spec: ParseMetadata is not in src; the metadata of the
    node as a map from string to string. *)
Definition ParseMetadata (m : gmap string string) : gmap string string := m.

(** Modelled from the spec: addEdsCon is not in src; it enters the connection
    in the index entry of the cluster, under its connection id, making the
    entry when the cluster has none. *)
Definition addEdsCon (clusterName : string) (node : string) (connection : loc)
    (s : Server) : Server :=
  let c := default (mkEdsCluster None ∅) (edsClusters s !! clusterName) in
  setEdsClusters
    (<[clusterName := mkEdsCluster (LoadAssignment c) (<[node := connection]> (EdsClients c))]>
       (edsClusters s))
    s.

(** Modelled from the spec: removeEdsCon is not in src; it takes the
    connection id out of the index entry of the cluster. *)
Definition removeEdsCon (clusterName : string) (node : string) (connection : loc)
    (s : Server) : Server :=
  match edsClusters s !! clusterName with
  | None => s
  | Some c =>
      setEdsClusters
        (<[clusterName := mkEdsCluster (LoadAssignment c) (delete node (EdsClients c))]>
           (edsClusters s))
        s
  end.

Definition addCon (conID : string) (p : loc) (con : XdsConnection) (s : Server) : Server :=
  let s := setAdsClients (<[conID := p]> (adsClients s)) s in
  let s := setMetrics (setXdsClients (Z.of_nat (size (adsClients s))) (metrics s)) s in
  match modelNode con with
  | Some node =>
      match adsSidecarIDConnectionsMap s !! ID node with
      | None =>
          setSidecarMap (<[ID node := {[conID := p]}]> (adsSidecarIDConnectionsMap s)) s
      | Some m =>
          setSidecarMap (<[ID node := <[conID := p]> m]> (adsSidecarIDConnectionsMap s)) s
      end
  | None => s
  end.

Definition removeCon (conID : string) (p : loc) (con : XdsConnection) (s : Server) : Server :=
  let s := foldl (fun s c => removeEdsCon c conID p s) s (Clusters con) in
  let s :=
    match adsClients s !! conID with
    | None => logAds (LogError "ADS: Removing connection for non-existing node") s
    | Some _ => s
    end in
  let s := setAdsClients (delete conID (adsClients s)) s in
  let s := setMetrics (setXdsClients (Z.of_nat (size (adsClients s))) (metrics s)) s in
  match modelNode con with
  | Some node =>
      match adsSidecarIDConnectionsMap s !! ID node with
      | Some m =>
          setSidecarMap (<[ID node := delete conID m]> (adsSidecarIDConnectionsMap s)) s
      | None => s
      end
  | None => s
  end.

(** *** Pushes *)

(** What the stream does with one Send: it returns, with or without an
    error, before the send timer fires, or it does not. *)
Inductive SendOutcome :=
| SendReturns (err : option string)
| SendTimesOut.

(** What a push meets outside the stream loop: the generator of a resource
    type may fail, the transport decides each send, and the route generator
    gives the route configuration of a name. *)
Record PushEnv := mkPushEnv {
  generate : string -> option string;
  transport : string -> SendOutcome;
  BuildRoute : Proxy -> string -> option V1alpha3.RouteConfiguration;
}.

(** The state a handler of the stream loop works on: the tables, the
    connection of the stream, and the responses sent on the stream so far. *)
Record Ctx := mkCtx {
  cSrv : Server;
  cCon : XdsConnection;
  cSent : list DiscoveryResponse;
}.

Definition withSrv (f : Server -> Server) (x : Ctx) : Ctx :=
  {| cSrv := f (cSrv x); cCon := cCon x; cSent := cSent x |}.

Definition withCon (f : XdsConnection -> XdsConnection) (x : Ctx) : Ctx :=
  {| cSrv := cSrv x; cCon := f (cCon x); cSent := cSent x |}.

Definition withMetrics (f : Metrics -> Metrics) (x : Ctx) : Ctx :=
  withSrv (fun s => setMetrics (f (metrics s)) s) x.

Definition record (res : DiscoveryResponse) (x : Ctx) : Ctx :=
  {| cSrv := cSrv x; cCon := cCon x; cSent := cSent x ++ [res] |}.

(** XdsConnection.send: the send, under the watchdog of SendTimeout. *)
Definition send (o : SendOutcome) (res : DiscoveryResponse) (x : Ctx) : option string * Ctx :=
  match o with
  | SendTimesOut =>
      (Some "timeout sending",
       withMetrics (addWriteTimeout 1)
         (withSrv (logAds (LogInfo ("Timeout writing " +:+ ConID (cCon x)))) x))
  | SendReturns (Some err) => (Some err, x)
  | SendReturns None => (None, record res x)
  end.

(** What a push returns: nil, an error, or a nil dereference of modelNode. *)
Inductive PushResult :=
| PushOk
| PushErr (err : string)
| PushPanic.

Definition pushRoute (env : PushEnv) (x : Ctx) : PushResult * Ctx :=
  match generate env RouteType with
  | Some err =>
      (PushErr err,
       withMetrics (addPushes "rds_conferr")
         (withSrv (logAds (LogWarn "ADS: RDS: Failed to retrieve proxy service instances")) x))
  | None =>
      match modelNode (cCon x) with
      | None => (PushPanic, x)
      | Some node =>
          let x :=
            withCon (fun con =>
                       setRouteConfigs
                         (foldl (fun m routeName => <[routeName := BuildRoute env node routeName]> m)
                                (RouteConfigs con) (Routes con))
                         con) x in
          let response := {| RespTypeUrl := RouteType; RespResources := Routes (cCon x) |} in
          match send (transport env RouteType) response x with
          | (Some err, x) =>
              (PushErr err,
               withMetrics (addPushes "rds_senderr")
                 (withSrv (logAds (LogWarn "ADS: RDS: Send failure, closing grpc")) x))
          | (None, x) =>
              (PushOk,
               withSrv (logAds (LogInfo "ADS: RDS: PUSH"))
                 (withMetrics (addPushes "rds") x))
          end
      end
  end.

(** Modelled from the spec: pushCds, pushLds and pushEds are not in src; a
    push regenerates the resources of its type for the connection and sends
    one DiscoveryResponse; a generator error and a send failure are returned
    to the stream loop, and the push counter of the type counts the push, as
    pushRoute does for routes. *)
Definition pushOther (typeUrl label : string) (names : list string) (env : PushEnv)
    (x : Ctx) : PushResult * Ctx :=
  match generate env typeUrl with
  | Some err => (PushErr err, withMetrics (addPushes (label +:+ "_conferr")) x)
  | None =>
      let response := {| RespTypeUrl := typeUrl; RespResources := names |} in
      match send (transport env typeUrl) response x with
      | (Some err, x) => (PushErr err, withMetrics (addPushes (label +:+ "_senderr")) x)
      | (None, x) => (PushOk, withMetrics (addPushes label) x)
      end
  end.

(** pushCds and pushLds are called with [*con.modelNode]. *)
Definition pushCds (env : PushEnv) (x : Ctx) : PushResult * Ctx :=
  match modelNode (cCon x) with
  | None => (PushPanic, x)
  | Some _ => pushOther ClusterType "cds" [] env x
  end.

Definition pushLds (env : PushEnv) (x : Ctx) : PushResult * Ctx :=
  match modelNode (cCon x) with
  | None => (PushPanic, x)
  | Some _ => pushOther ListenerType "lds" [] env x
  end.

Definition pushEds (env : PushEnv) (x : Ctx) : PushResult * Ctx :=
  pushOther EndpointType "eds" (Clusters (cCon x)) env x.

(** *** The stream loop *)

(** How one round of the loop of StreamAggregatedResources ends: the loop
    goes on, the function returns (with the error, if any), or it panics. *)
Inductive Flow :=
| Continue
| Return (err : option string)
| Panic.

(** How a case of the switch on the type URL ends: at the end of the switch,
    with [continue], or with a return or a panic of a push. *)
Inductive Dispatch :=
| EndOfSwitch
| ContinueLoop
| Leave (f : Flow).

Definition afterPush (r : PushResult * Ctx) : Dispatch * Ctx :=
  match r with
  | (PushOk, x) => (EndOfSwitch, x)
  | (PushErr err, x) => (Leave (Return (Some err)), x)
  | (PushPanic, x) => (Leave Panic, x)
  end.

Definition caseClusterType (env : PushEnv) (discReq : DiscoveryRequest) (x : Ctx)
    : Dispatch * Ctx :=
  if CDSWatch (cCon x)
  then
    let x :=
      match ErrorDetail discReq with
      | Some msg =>
          withMetrics (addCdsReject (NodeId discReq) msg)
            (withSrv (logAds (LogWarn "ADS:CDS: ACK ERROR")) x)
      | None => x
      end in
    (ContinueLoop, withSrv (logAds (LogDebug "ADS:CDS: ACK")) x)
  else
    let x := withSrv (logAds (LogInfo "ADS:CDS: REQ")) x in
    let x := withCon (setCDSWatch true) x in
    afterPush (pushCds env x).

Definition caseListenerType (env : PushEnv) (discReq : DiscoveryRequest) (x : Ctx)
    : Dispatch * Ctx :=
  if LDSWatch (cCon x)
  then
    let x :=
      match ErrorDetail discReq with
      | Some msg =>
          withMetrics (addLdsReject (NodeId discReq) msg)
            (withSrv (logAds (LogWarn "ADS:LDS: ACK ERROR")) x)
      | None => x
      end in
    (ContinueLoop, withSrv (logAds (LogDebug "ADS:LDS: ACK")) x)
  else
    let x := withSrv (logAds (LogInfo "ADS:LDS: REQ")) x in
    let x := withCon (setLDSWatch true) x in
    afterPush (pushLds env x).

(** The rest of the route case, from the assignment to con.Routes on. *)
Definition watchRoutes (env : PushEnv) (routes : list string) (x : Ctx) : Dispatch * Ctx :=
  let x := withCon (setRoutes routes) x in
  let x := withSrv (logAds (LogInfo "ADS:RDS: REQ")) x in
  afterPush (pushRoute env x).

Definition caseRouteType (env : PushEnv) (discReq : DiscoveryRequest) (x : Ctx)
    : Dispatch * Ctx :=
  let routes := ResourceNames discReq in
  if bool_decide (length routes = length (Routes (cCon x)))
     || bool_decide (length routes = 0%nat)
  then
    let x :=
      match ErrorDetail discReq with
      | Some _ => withSrv (logAds (LogWarn "ADS:RDS: ACK ERROR")) x
      | None => x
      end in
    let x := withSrv (logAds (LogDebug "ADS:RDS: ACK")) x in
    if decide (0 < length (Routes (cCon x)))%nat
    then (ContinueLoop, x)
    else watchRoutes env routes x
  else watchRoutes env routes x.

(** The rest of the endpoint case, from the assignment to con.Clusters on. *)
Definition watchClusters (p : loc) (env : PushEnv) (clusters : list string) (x : Ctx)
    : Dispatch * Ctx :=
  let x := withCon (setClusters clusters) x in
  let x :=
    foldl (fun x c => withSrv (addEdsCon c (ConID (cCon x)) p) x) x (Clusters (cCon x)) in
  let x := withSrv (logAds (LogInfo "ADS:EDS: REQ")) x in
  afterPush (pushEds env x).

Definition caseEndpointType (p : loc) (env : PushEnv) (discReq : DiscoveryRequest)
    (x : Ctx) : Dispatch * Ctx :=
  let clusters := ResourceNames discReq in
  if bool_decide (length clusters = length (Clusters (cCon x)))
     || bool_decide (length clusters = 0%nat)
  then
    let x :=
      match ErrorDetail discReq with
      | Some msg =>
          withMetrics (addEdsReject (NodeId discReq) msg)
            (withSrv (logAds (LogWarn "ADS:EDS: ACK ERROR")) x)
      | None => x
      end in
    if decide (0 < length (Clusters (cCon x)))%nat
    then (ContinueLoop, x)
    else watchClusters p env clusters x
  else watchClusters p env clusters x.

(** The switch on discReq.TypeUrl. *)
Definition dispatch (p : loc) (env : PushEnv) (discReq : DiscoveryRequest) (x : Ctx)
    : Dispatch * Ctx :=
  if decide (TypeUrl discReq = ClusterType) then caseClusterType env discReq x
  else if decide (TypeUrl discReq = ListenerType) then caseListenerType env discReq x
  else if decide (TypeUrl discReq = RouteType) then caseRouteType env discReq x
  else if decide (TypeUrl discReq = EndpointType) then caseEndpointType p env discReq x
  else (EndOfSwitch, withSrv (logAds (LogWarn "ADS: Unknown watched resources")) x).

(** The statement after the switch: the connection enters the registry, and
    removeCon is deferred, the first time the loop gets here. *)
Definition registerCon (p : loc) (x : Ctx) : Ctx :=
  if added (cCon x) then x
  else
    let x := withCon (setAdded true) x in
    withSrv (addCon (ConID (cCon x)) p (cCon x)) x.

(** The first request sets the connection id, from the counter. *)
Definition assignConID (discReq : DiscoveryRequest) (x : Ctx) : Ctx :=
  if decide (ConID (cCon x) = "")
  then
    let c := S (connectionNumber (cSrv x)) in
    withCon (setConID (connectionID (NodeId discReq) c))
      (withSrv (setConnectionNumber c) x)
  else x.

(** The case of the select for a request that has arrived on the stream
    [p]. *)
Definition handleRequest (p : loc) (env : PushEnv) (discReq : DiscoveryRequest) (x : Ctx)
    : Flow * Ctx :=
  match ReqNode discReq with
  | None => (Panic, x)
  | Some _ =>
  if decide (NodeId discReq = "")
  then (Continue, withSrv (logAds (LogInfo "Missing node id")) x)
  else
    match ParseServiceNode (NodeId discReq) with
    | inr err => (Return (Some err), x)
    | inl nt =>
        let nt :=
          {| Model.Type_ := Model.Type_ nt; IPAddress := IPAddress nt; ID := ID nt;
             Domain := Domain nt; Metadata := ParseMetadata (NodeMetadata discReq) |} in
        let x := withCon (setModelNode (Some nt)) x in
        let x := assignConID discReq x in
        match dispatch p env discReq x with
        | (EndOfSwitch, x) => (Continue, registerCon p x)
        | (ContinueLoop, x) => (Continue, x)
        | (Leave f, x) => (f, x)
        end
    end
  end.

(** One guarded push of the push-channel case, and then the next. *)
Definition pushIf (watched : bool) (push : Ctx -> PushResult * Ctx)
    (next : Ctx -> Flow * Ctx) (x : Ctx) : Flow * Ctx :=
  if watched
  then
    match push x with
    | (PushOk, x) => next x
    | (PushErr err, x) => (Return (Some err), x)
    | (PushPanic, x) => (Panic, x)
    end
  else next x.

(** The case of the select for a signal on the push channel. *)
Definition handlePush (env : PushEnv) (x : Ctx) : Flow * Ctx :=
  pushIf (CDSWatch (cCon x)) (pushCds env)
    (fun x =>
       pushIf (bool_decide (0 < length (Routes (cCon x)))%nat) (pushRoute env)
         (fun x =>
            pushIf (bool_decide (0 < length (Clusters (cCon x)))%nat) (pushEds env)
              (fun x =>
                 pushIf (LDSWatch (cCon x)) (pushLds env)
                   (fun x => (Continue, x))
                   x)
              x)
         x)
    x.

(** What runs when StreamAggregatedResources returns: the deferred removeCon,
    which was deferred when the connection was added, and the close of
    doneChannel. *)
Definition teardown (p : loc) (x : Ctx) : Ctx :=
  let x :=
    if added (cCon x)
    then withSrv (removeCon (ConID (cCon x)) p (cCon x)) x
    else x in
  withCon (setDone true) x.

(** *** adsPushAll *)

(** Which case of the select of adsPushAll runs for a client: the send on
    pushChannel, the receive from doneChannel, or the timer of PushTimeout;
    the first and the last come with the reading of the clock they take. *)
Inductive SelectOutcome :=
| Signalled (now : Z)
| DoneFired
| Deadline (now : Z).

(** What a broadcast meets outside: the recomputed endpoints of a cluster, or
    the error of updateCluster, and the select outcome for each client, by
    its key in adsClients. *)
Record BroadcastEnv := mkBroadcastEnv {
  computeAssignment : string -> list string + string;
  selectOutcome : string -> SelectOutcome;
}.

(** Modelled from the spec: updateCluster is not in src; it recomputes the
    endpoint assignment of a cluster against the current model, and may
    fail. *)
Definition updateCluster (benv : BroadcastEnv) (clusterName : string) (c : EdsCluster)
    : EdsCluster * option string :=
  match computeAssignment benv clusterName with
  | inl a => (mkEdsCluster (Some a) (EdsClients c), None)
  | inr err => (c, Some err)
  end.

(** The first loop of adsPushAll, over the copy of edsClusters. *)
Definition updateClusters (benv : BroadcastEnv) (s : Server) : Server :=
  foldl (fun s '(clusterName, edsCluster) =>
           match updateCluster benv clusterName edsCluster with
           | (c, Some _) =>
               logAds (LogError ("updateCluster failed with clusterName " +:+ clusterName))
                 (setEdsClusters (<[clusterName := c]> (edsClusters s)) s)
           | (c, None) => setEdsClusters (<[clusterName := c]> (edsClusters s)) s
           end)
        s (map_to_list (edsClusters s)).

(** The body of the second loop of adsPushAll, for one client. *)
Definition pushClient (o : SelectOutcome) (client : XdsConnection) (s : Server)
    : XdsConnection * Server :=
  match o with
  | Signalled now => (setLastPushFailure timeZero (setLastPush now client), s)
  | DoneFired => (client, s)
  | Deadline now =>
      let s := setMetrics (addPushTimeouts 1 (metrics s)) s in
      if IsZero (LastPushFailure client)
      then
        (setLastPushFailure now client,
         setMetrics (addPushErrors "short" (metrics s))
           (logAds (LogWarn ("Failed to push, client busy " +:+ ConID client)) s))
      else
        if 10 * Second <? now - LastPushFailure client
        then
          (client,
           setMetrics (addPushErrors "long" (metrics s))
             (logAds (LogWarn ("Repeated failure to push " +:+ ConID client)) s))
        else (client, s)
  end.

(** The second loop, over the copy of adsClients; the clients live on the
    heap and the loop writes through the pointers. Go walks a map in no
    fixed order; the order here is that of [map_to_list]. *)
Definition pushLoop (benv : BroadcastEnv) (clients : list (string * loc))
    (st : gmap loc XdsConnection * Server) : gmap loc XdsConnection * Server :=
  foldl (fun '(heap, s) '(k, p) =>
           match heap !! p with
           | Some client =>
               let '(client, s) := pushClient (selectOutcome benv k) client s in
               (<[p := client]> heap, s)
           | None => (heap, s)
           end)
        st clients.

Definition adsPushAll (benv : BroadcastEnv) (st : gmap loc XdsConnection * Server)
    : gmap loc XdsConnection * Server :=
  let '(heap, s) := st in
  let s := updateClusters benv s in
  let tmpMap := adsClients s in
  pushLoop benv (map_to_list tmpMap) (heap, s).

(** *** The server as a transition system *)

Record System := mkSystem {
  heap : gmap loc XdsConnection;
  server : Server;
  nextLoc : loc;
  (** every response sent, with the stream it went out on *)
  wire : list (loc * DiscoveryResponse);
  (** a stream loop has panicked *)
  crashed : bool;
}.

Definition initial : System :=
  {| heap := ∅; server := emptyServer; nextLoc := 0%nat; wire := []; crashed := false |}.

Inductive Event :=
(** a stream is accepted: StreamAggregatedResources starts *)
| EvAccept (peerAddr : string) (now : Z)
(** the loop of stream [p] receives a request *)
| EvRequest (p : loc) (discReq : DiscoveryRequest) (env : PushEnv)
(** the loop of stream [p] receives a signal on its push channel *)
| EvPush (p : loc) (env : PushEnv)
(** the request channel of stream [p] is closed: the remote side is gone *)
| EvRecvClosed (p : loc) (receiveError : option string)
(** the change notifier calls adsPushAll *)
| EvBroadcast (benv : BroadcastEnv).

(** One round of the loop of stream [p], with the teardown when the round
    leaves the loop. *)
Definition runHandler (p : loc) (handler : Ctx -> Flow * Ctx) (sys : System) : System :=
  match heap sys !! p with
  | Some con =>
      if doneChannelClosed con then sys
      else
        let '(flow, x) := handler {| cSrv := server sys; cCon := con; cSent := [] |} in
        let x := match flow with Continue => x | _ => teardown p x end in
        {| heap := <[p := cCon x]> (heap sys);
           server := cSrv x;
           nextLoc := nextLoc sys;
           wire := wire sys ++ map (pair p) (cSent x);
           crashed := match flow with Panic => true | _ => crashed sys end |}
  | None => sys
  end.

Definition step (ev : Event) (sys : System) : System :=
  if crashed sys then sys
  else
    match ev with
    | EvAccept peerAddr now =>
        {| heap := <[nextLoc sys := newXdsConnection peerAddr now]> (heap sys);
           server := server sys;
           nextLoc := S (nextLoc sys);
           wire := wire sys;
           crashed := false |}
    | EvRequest p discReq env => runHandler p (handleRequest p env discReq) sys
    | EvPush p env => runHandler p (handlePush env) sys
    | EvRecvClosed p receiveError =>
        runHandler p (fun x => (Return receiveError, x)) sys
    | EvBroadcast benv =>
        let '(h, s) := adsPushAll benv (heap sys, server sys) in
        {| heap := h; server := s; nextLoc := nextLoc sys; wire := wire sys;
           crashed := false |}
    end.

(** The system after a run of events, the first event first. *)
Definition run (evs : list Event) (sys : System) : System :=
  foldl (fun sys ev => step ev sys) sys evs.

(** *** Notions the properties of the stream loop are stated with *)

(** A type URL the switch of the stream loop has no case for. *)
Definition unrecognized (typeUrl : string) : Prop :=
  typeUrl <> ClusterType /\ typeUrl <> ListenerType
  /\ typeUrl <> RouteType /\ typeUrl <> EndpointType.

(** No watch is established on the connection. *)
Definition noWatch (c : XdsConnection) : Prop :=
  CDSWatch c = false /\ LDSWatch c = false /\ Routes c = [] /\ Clusters c = [].

(** The watch state of two connections is the same. *)
Definition sameWatch (c c' : XdsConnection) : Prop :=
  CDSWatch c' = CDSWatch c /\ LDSWatch c' = LDSWatch c
  /\ Routes c' = Routes c /\ Clusters c' = Clusters c.

(** A push of the type meets no generator error and no send failure. *)
Definition pushSucceeds (env : PushEnv) (typeUrl : string) : Prop :=
  generate env typeUrl = None /\ transport env typeUrl = SendReturns None.

(** The error a push of the type meets, if any: the error of the generator,
    or else the error of the send, which for a send that does not return in
    time is the error of the watchdog. *)
Definition pushError (env : PushEnv) (typeUrl : string) : option string :=
  match generate env typeUrl with
  | Some err => Some err
  | None =>
      match transport env typeUrl with
      | SendReturns err => err
      | SendTimesOut => Some "timeout sending"
      end
  end.

(** The state a request is dispatched in: the node is stored and the
    connection id assigned. *)
Definition prepared (discReq : DiscoveryRequest) (nt : Proxy) (x : Ctx) : Ctx :=
  assignConID discReq
    (withCon (setModelNode
                (Some {| Model.Type_ := Model.Type_ nt; IPAddress := IPAddress nt;
                         ID := ID nt; Domain := Domain nt;
                         Metadata := ParseMetadata (NodeMetadata discReq) |})) x).

(** Two tables differ in metrics and log at most. *)
Definition sameTables (s s' : Server) : Prop :=
  adsClients s' = adsClients s
  /\ adsSidecarIDConnectionsMap s' = adsSidecarIDConnectionsMap s
  /\ edsClusters s' = edsClusters s
  /\ connectionNumber s' = connectionNumber s.

(** Two connections differ in the stored route configurations at most. *)
Definition sameCon (c c' : XdsConnection) : Prop :=
  setRouteConfigs (RouteConfigs c) c' = c.

(** The identity of a connection: what only the first request, the
    registration and the teardown set. *)
Definition sameIdentity (c c' : XdsConnection) : Prop :=
  ConID c' = ConID c /\ modelNode c' = modelNode c
  /\ doneChannelClosed c' = doneChannelClosed c /\ added c' = added c.

(** The registry and the connection counter are the same. *)
Definition sameRegistry (s s' : Server) : Prop :=
  adsClients s' = adsClients s
  /\ adsSidecarIDConnectionsMap s' = adsSidecarIDConnectionsMap s
  /\ connectionNumber s' = connectionNumber s.

(** The entries the endpoint case makes in the index. *)
Definition addEdsCons (clusters : list string) (conID : string) (p : loc) (s : Server)
    : Server :=
  foldl (fun s c => addEdsCon c conID p s) s clusters.

(** The responses a signal on the push channel asks for: one for each
    resource type the connection watches, clusters first, then routes, then
    endpoints, then listeners. *)
Definition watchedResponses (c : XdsConnection) : list DiscoveryResponse :=
  (if CDSWatch c then [mkDiscoveryResponse ClusterType []] else [])
  ++ (if bool_decide (Routes c <> [])
      then [mkDiscoveryResponse RouteType (Routes c)] else [])
  ++ (if bool_decide (Clusters c <> [])
      then [mkDiscoveryResponse EndpointType (Clusters c)] else [])
  ++ (if LDSWatch c then [mkDiscoveryResponse ListenerType []] else []).

(** How a run of pushes for the responses [asked] ends, from the responses
    [sent0] on: all pushes succeed, all responses go out in order and the
    loop goes on; or the first push that fails, on a generator error or on a
    send failure, ends the stream function with that error, after the
    responses before it. *)
Definition pushesEnd (env : PushEnv) (asked sent0 : list DiscoveryResponse)
    (r : Flow * Ctx) : Prop :=
  exists sentNow,
    cSent r.2 = sent0 ++ sentNow
    /\ ((Forall (fun res => pushSucceeds env (RespTypeUrl res)) asked
         /\ r.1 = Continue /\ sentNow = asked)
        \/ (exists before failed after err,
              asked = before ++ failed :: after
              /\ Forall (fun res => pushSucceeds env (RespTypeUrl res)) before
              /\ pushError env (RespTypeUrl failed) = Some err
              /\ sentNow = before
              /\ r.1 = Return (Some err))).

(** For a client of the broadcast, by its entry in adsClients: the timer
    fired; the timer fired and no failure was on record; the timer fired and
    the failure on record is more than ten seconds old. *)
Definition timedOut (benv : BroadcastEnv) (heap : gmap loc XdsConnection)
    (kp : string * loc) : bool :=
  match selectOutcome benv kp.1, heap !! kp.2 with
  | Deadline _, Some _ => true
  | _, _ => false
  end.

Definition firstFailure (benv : BroadcastEnv) (heap : gmap loc XdsConnection)
    (kp : string * loc) : bool :=
  match selectOutcome benv kp.1, heap !! kp.2 with
  | Deadline _, Some c => IsZero (LastPushFailure c)
  | _, _ => false
  end.

Definition repeatedFailure (benv : BroadcastEnv) (heap : gmap loc XdsConnection)
    (kp : string * loc) : bool :=
  match selectOutcome benv kp.1, heap !! kp.2 with
  | Deadline now, Some c =>
      negb (IsZero (LastPushFailure c)) && (10 * Second <? now - LastPushFailure c)
  | _, _ => false
  end.

(** How many entries of a list pass a test. *)
Definition count {A} (f : A -> bool) (l : list A) : Z :=
  Z.of_nat (length (filter (fun a => f a = true) l)).

(** The connection the index holds for a cluster under a connection id. *)
Definition indexOf (s : Server) (clusterName conID : string) : option loc :=
  edsClusters s !! clusterName ≫= fun e => EdsClients e !! conID.

(** The entries removeCon takes out of the index. *)
Definition removeEdsCons (clusters : list string) (conID : string) (p : loc) (s : Server)
    : Server :=
  foldl (fun s c => removeEdsCon c conID p s) s clusters.

(** A round either leaves the watch list and the index alone, or sets the
    watch list to the requested names and enters the connection under each
    of them. *)
Definition clustersEffect (p : loc) (names : list string) (conID : string)
    (x x' : Ctx) : Prop :=
  (Clusters (cCon x') = Clusters (cCon x)
   /\ edsClusters (cSrv x') = edsClusters (cSrv x))
  \/ (Clusters (cCon x') = names
      /\ edsClusters (cSrv x') = edsClusters (addEdsCons names conID p (cSrv x))).

(** What the invariant reads of a connection. *)
Definition view (c : XdsConnection) : string * list string * bool :=
  (ConID c, Clusters c, doneChannelClosed c).

(** The invariant: pointers are below the allocation mark; a connection id
    that is set was made from a counter value that has been used; no two
    connections share a connection id; a connection with a watch list has a
    connection id; and every name in the watch list of a live connection has
    the connection in its index entry, under the connection id. *)
Definition Inv (sys : System) : Prop :=
  (forall p c, heap sys !! p = Some c -> (p < nextLoc sys)%nat)
  /\ (forall p c, heap sys !! p = Some c -> ConID c <> "" ->
        exists node j, ConID c = connectionID node j
                       /\ (j <= connectionNumber (server sys))%nat)
  /\ (forall p q c d, heap sys !! p = Some c -> heap sys !! q = Some d ->
        ConID c <> "" -> ConID c = ConID d -> p = q)
  /\ (forall p c, heap sys !! p = Some c -> Clusters c <> [] -> ConID c <> "")
  /\ (forall p c n, heap sys !! p = Some c -> doneChannelClosed c = false ->
        n ∈ Clusters c -> indexOf (server sys) n (ConID c) = Some p).

(** What one round of the loop of stream [p], with the teardown when it
    leaves the loop, does to what the invariant reads. *)
Definition RoundEffect (p : loc) (x x' : Ctx) : Prop :=
  ((ConID (cCon x') = ConID (cCon x)
    /\ connectionNumber (cSrv x') = connectionNumber (cSrv x))
   \/ (ConID (cCon x) = ""
       /\ (exists node,
             ConID (cCon x') = connectionID node (S (connectionNumber (cSrv x))))
       /\ connectionNumber (cSrv x') = S (connectionNumber (cSrv x))))
  /\ (forall n k, k <> ConID (cCon x') -> indexOf (cSrv x') n k = indexOf (cSrv x) n k)
  /\ (Clusters (cCon x') = Clusters (cCon x) \/ ConID (cCon x') <> "")
  /\ (doneChannelClosed (cCon x') = false ->
      (forall n, n ∈ Clusters (cCon x) -> indexOf (cSrv x) n (ConID (cCon x)) = Some p) ->
      (Clusters (cCon x) <> [] -> ConID (cCon x) <> "") ->
      forall n, n ∈ Clusters (cCon x') -> indexOf (cSrv x') n (ConID (cCon x')) = Some p).

(** What a handler does, before the teardown: the statement of
    [handleRequest_effect]. *)
Definition HandlerEffect (p : loc) (x x1 : Ctx) : Prop :=
  doneChannelClosed (cCon x1) = doneChannelClosed (cCon x)
  /\ ((ConID (cCon x1) = ConID (cCon x)
       /\ connectionNumber (cSrv x1) = connectionNumber (cSrv x))
      \/ (ConID (cCon x) = ""
          /\ (exists node,
                ConID (cCon x1) = connectionID node (S (connectionNumber (cSrv x))))
          /\ connectionNumber (cSrv x1) = S (connectionNumber (cSrv x))))
  /\ ((Clusters (cCon x1) = Clusters (cCon x)
       /\ edsClusters (cSrv x1) = edsClusters (cSrv x))
      \/ (exists names,
            ConID (cCon x1) <> ""
            /\ Clusters (cCon x1) = names
            /\ edsClusters (cSrv x1)
               = edsClusters (addEdsCons names (ConID (cCon x1)) p (cSrv x)))).

(** The registry holds streams whose loop is running and that have been
    registered, each under its connection id, which is set. *)
Definition Registry (sys : System) : Prop :=
  forall k p, adsClients (server sys) !! k = Some p ->
    k <> ""
    /\ exists c, heap sys !! p = Some c /\ ConID c = k /\ added c = true
                 /\ doneChannelClosed c = false.

(** What a handler of the loop of stream [p] does to the registry, before
    the teardown: nothing, or it registers the stream and the loop goes on. *)
Definition RegistryEffect (p : loc) (flow : Flow) (x x1 : Ctx) : Prop :=
  doneChannelClosed (cCon x1) = doneChannelClosed (cCon x)
  /\ (ConID (cCon x) <> "" -> ConID (cCon x1) = ConID (cCon x))
  /\ ((added (cCon x1) = added (cCon x)
       /\ adsClients (cSrv x1) = adsClients (cSrv x))
      \/ (added (cCon x) = false /\ added (cCon x1) = true /\ flow = Continue
          /\ ConID (cCon x1) <> ""
          /\ adsClients (cSrv x1) = <[ConID (cCon x1) := p]> (adsClients (cSrv x)))).

(** All of a connection but its two push times. *)
Definition besidesPushTimes (c : XdsConnection) :=
  (PeerAddr c, Connect c, ConID c, modelNode c, doneChannelClosed c, RouteConfigs c,
   Clusters c, Routes c, LDSWatch c, CDSWatch c, added c).

(** A connection is set up for the pushes: while it is not in the registry
    it has no watch, and once it is there its node is stored. *)
Definition Registered (c : XdsConnection) : Prop :=
  (added c = false -> noWatch c) /\ (added c = true -> modelNode c <> None).

(** What that reads of a connection. *)
Definition registration (c : XdsConnection)
    : bool * (bool * bool * list string * list string) * option Proxy * bool :=
  (added c, (CDSWatch c, LDSWatch c, Routes c, Clusters c), modelNode c,
   doneChannelClosed c).

End Ads.

(** ** More of the Go runtime library: strings.Join and sort.Strings *)
Module GoStrings.

(** [strings.Join]. *)
Fixpoint Join (elems : list string) (sep : string) : string :=
  match elems with
  | [] => ""
  | [e] => e
  | e :: rest => e +:+ sep +:+ Join rest sep
  end.

(** [sort.Sort(sort.StringSlice(x))]: the slice in ascending order, strings
    compared byte by byte. Go's sort is not stable; on strings, where equal
    elements are the same string, every sort gives the same slice. *)
Definition SortStrings (l : list string) : list string := merge_sort String.le l.

End GoStrings.

(** ** pilot/pkg/proxy/envoy/v1: the rest of route.go *)
Module V1Route.
Import Model V1.

(** [host[len(host)-i]] for [i] from 1 on: the [i]-th element from the end;
    [None] where the index is out of range. *)
Definition fromEnd (host : list string) (i : nat) : option string :=
  if decide (i <= length host)%nat then host !! (length host - i)%nat else None.

(** The inner loop of sharedHost at depth [i], from host number [j] on:
    the part the hosts share at that depth and whether all of them do;
    [None] when a host is too short. *)
Fixpoint sharedAt (i j : nat) (part : string) (hosts : list (list string))
    : option (string * bool) :=
  match hosts with
  | [] => Some (part, true)
  | host :: rest =>
      match fromEnd host i with
      | None => None
      | Some hostpart =>
          if decide (j = 0%nat) then sharedAt i (S j) hostpart rest
          else if decide (part <> hostpart) then Some (part, false)
          else sharedAt i (S j) part rest
      end
  end.

(** The outer loop of sharedHost, with [n] rounds left, at depth [i]. *)
Fixpoint sharedLoop (n i : nat) (parts : list (list string)) (out : list string)
    : option (list string) :=
  match n with
  | O => Some out
  | S n =>
      match sharedAt i 0 "" parts with
      | None => None
      | Some (part, true) => sharedLoop n (S i) parts (out ++ [part])
      | Some (_, false) => Some out
      end
  end.

(** sharedHost; [None] is the index out of range. *)
Definition sharedHost (parts : list (list string)) : option (list string) :=
  match parts with
  | [] => Some []
  | [p] => Some p
  | p0 :: _ => reverse <$> sharedLoop (length p0) 1 parts []
  end.

Record VirtualHost (Route : Type) := mkVirtualHost {
  VhName : string;
  Domains : list string;
  VhRoutes : list Route;
}.
Arguments mkVirtualHost {Route}.
Arguments VhName {Route}.
Arguments Domains {Route}.
Arguments VhRoutes {Route}.

(** The loop of BuildVirtualHost over the shared parts: the host so far and
    the hosts collected. *)
Definition extendHost (acc : string * list string) (part : string) : string * list string :=
  let '(host, hosts) := acc in
  let host := if decide (0 < String.length host)%nat then host +:+ "." else host in
  let host := host +:+ part in
  (host, hosts ++ [host]).

Definition withPort (port : Port) (host : string) : list string :=
  [host +:+ ":" +:+ Go.SprintfD (PortNum port); host].

Section VirtualHosts.
(** Service.Key of the model package is not in src. *)
Variable ServiceKey : string -> Port -> Labels -> string.
Context {Route : Type}.

(** BuildVirtualHost; [None] where sharedHost or the slice expression runs
    out of range. *)
Definition BuildVirtualHost (svc : Service) (port : Port) (suffix : list string)
    (routes : list Route) : option (VirtualHost Route) :=
  let parts := Go.Split (Hostname svc) "." in
  match sharedHost [suffix; parts] with
  | None => None
  | Some shared =>
      if decide (length shared <= length parts)%nat
      then
        let host := GoStrings.Join (take (length parts - length shared) parts) "." in
        let hosts := if decide (0 < String.length host)%nat then [host] else [] in
        let '(_, hosts) := foldl extendHost (host, hosts) shared in
        let hosts :=
          if decide (0 < String.length (Address svc))%nat
          then hosts ++ [Address svc] else hosts in
        let domains := flat_map (withPort port) hosts in
        Some {| VhName := ServiceKey (Hostname svc) port ∅;
                Domains := domains;
                VhRoutes := routes |}
      else None
  end.
End VirtualHosts.

Record TCPRoute := mkTCPRoute {
  TrCluster : string;
  clusterRef : Cluster;
  DestinationIPList : list string;
}.

(** The address of a TCP route: a CIDR range as it is, a plain address with
    /32. *)
Definition tcpRouteAddr (addr : string) : string :=
  if negb (Go.containsChar "/" addr) then addr +:+ "/32" else addr.

(** BuildTCPRoute sorts the slice it is given in place: the route, and the
    slice as the caller finds it afterwards. *)
Definition BuildTCPRoute (cluster : Cluster) (addresses : list string)
    : TCPRoute * list string :=
  let addresses := GoStrings.SortStrings addresses in
  ({| TrCluster := Name cluster;
      clusterRef := cluster;
      DestinationIPList := map tcpRouteAddr addresses |},
   addresses).

(** *** Notions the properties of sharedHost are stated with *)

(** The hosts agree on their last [k] elements, which are [out] reversed. *)
Definition agree (parts : list (list string)) (k : nat) (out : list string) : Prop :=
  length out = k /\ forall p, p ∈ parts -> take k (reverse p) = out.

End V1Route.

(** ** pilot/pkg/serviceregistry/eureka: conversion.go *)
Module Eureka.
Import Model.

(** The client types of the package, as conversion.go reads them. A
    metadata map may be nil: [None]. *)
Record port := mkEurekaPort {
  EPort : Z;
  Enabled : bool;
}.

Definition metadata : Type := option (gmap string string).

Record instance := mkInstance {
  IHostname : string;
  IIPAddress : string;
  Status : string;
  IPort : port;
  SecurePort : port;
  IMetadata : metadata;
}.

Record application := mkApplication {
  AppName : string;
  Instances : list instance;
}.

Definition protocolMetadata : string := "istio.protocol".

(** [md[key]]: the zero value for a missing key and for a nil map. *)
Definition mdGet (md : metadata) (key : string) : string :=
  default "" (md ≫= fun m => m !! key).

(** PortList.GetByPort of the model package is not in src. What the
    conversion needs of it: it finds no port exactly when no port of the
    list has the number, and a port it finds is a port of the list with the
    number. *)
Definition looksUpByNumber (GetByPort : list Port -> Z -> option Port) : Prop :=
  (forall ports num, GetByPort ports num = None <-> num ∉ map PortNum ports)
  /\ (forall ports num p, GetByPort ports num = Some p -> p ∈ ports /\ PortNum p = num).

Definition setPorts (ports : list Port) (s : Service) : Service :=
  {| Hostname := Hostname s; Address := Address s; Ports := ports;
     ExternalName := ExternalName s; MeshExternal := MeshExternal s;
     SvcResolution := SvcResolution s |}.

(** *** Notions the properties of the conversion are stated with *)

(** The whitelist lets a host name through: it is empty, or holds the name
    with the value true. *)
Definition allowed (hostnames : gmap string bool) (hostname : string) : Prop :=
  size hostnames = 0%nat \/ hostnames !! hostname = Some true.

(** A port as convertPorts makes it: a supported protocol, and the number in
    decimal for a name. *)
Definition converted (p : Port) : Prop :=
  PortProtocol p <> ProtocolUnsupported /\ Name p = pretty (PortNum p).

(** The ports of a service: distinct numbers, each port as convertPorts
    makes it. *)
Definition goodPorts (ports : list Port) : Prop :=
  NoDup (map PortNum ports) /\ Forall converted ports.

(** The instances of the applications, in the order of the two loops. *)
Definition instancesOfApps (apps : list application) : list instance :=
  flat_map Instances apps.

Section Conversion.
(** model.ParseProtocol, the status constant of the client and
    PortList.GetByPort are not in src. *)
Variable ParseProtocol : string -> Protocol.
Variable statusUp : string.
Variable GetByPort : list Port -> Z -> option Port.

(** convertProtocol: the protocol, and what it logs. *)
Definition convertProtocol (md : metadata) : Protocol * list string :=
  let name := mdGet md protocolMetadata in
  match md with
  | Some _ =>
      let protocol := ParseProtocol name in
      if decide (protocol = ProtocolUnsupported)
      then (ProtocolTCP, ["unsupported protocol value: " +:+ name])
      else (protocol, [])
  | None => (ProtocolTCP, [])
  end.

Definition convertLabels (md : metadata) : Labels :=
  let labels : Labels := default ∅ md in
  let labels := delete protocolMetadata labels in
  delete "@class" labels.

Definition convertPorts (inst : instance) : list Port * list string :=
  let '(protocol, log) := convertProtocol (IMetadata inst) in
  (foldl (fun out p =>
            if negb (Enabled p) then out
            else out ++ [ {| Name := Go.Sprint [Go.OpInt (EPort p)];
                             PortNum := EPort p;
                             PortProtocol := protocol |} ])
         [] [IPort inst; SecurePort inst],
   log).

(** The loop of convertServices over the ports of an instance: a port
    number the service has is skipped, with a warning when the protocols
    differ. *)
Definition addPort (inst : instance) (protocol : Protocol)
    (acc : Service * list string) (p : Port) : Service * list string :=
  let '(service, log) := acc in
  match GetByPort (Ports service) (PortNum p) with
  | Some servicePort =>
      if decide (PortProtocol servicePort <> protocol)
      then (service,
            log ++ ["invalid Eureka config: " +:+ IHostname inst +:+ ":"
                    +:+ Go.SprintfD (PortNum servicePort)
                    +:+ " has conflicting protocol definitions"])
      else (service, log)
  | None => (setPorts (Ports service ++ [p]) service, log)
  end.

(** One instance of the inner loop of convertServices. *)
Definition convertInstance (hostnames : gmap string bool)
    (acc : gmap string Service * list string) (inst : instance)
    : gmap string Service * list string :=
  let '(services, log) := acc in
  let hostname := IHostname inst in
  if bool_decide (0 < size hostnames)%nat && negb (default false (hostnames !! hostname))
  then acc
  else if decide (Status inst <> statusUp) then acc
  else
    let '(ports, plog) := convertPorts inst in
    let log := log ++ plog in
    if decide (length ports = 0%nat) then (services, log)
    else
      let service :=
        match services !! hostname with
        | Some service => service
        | None =>
            {| Hostname := IHostname inst; Address := "::0"; Ports := [];
               ExternalName := ""; MeshExternal := false;
               SvcResolution := ClientSideLB |}
        end in
      let '(protocol, clog) := convertProtocol (IMetadata inst) in
      let log := log ++ clog in
      let '(service, log) := foldl (addPort inst protocol) (service, log) ports in
      (<[hostname := service]> services, log).

Definition convertServices (apps : list application) (hostnames : gmap string bool)
    : gmap string Service * list string :=
  foldl (fun acc app => foldl (convertInstance hostnames) acc (Instances app))
        (∅, []) apps.

(** One instance of the inner loop of convertServiceInstances. *)
Definition instancesOf (services : gmap string Service)
    (acc : list ServiceInstance * list string) (inst : instance)
    : list ServiceInstance * list string :=
  let '(out, log) := acc in
  match services !! IHostname inst with
  | None => acc
  | Some service =>
      if decide (Status inst <> statusUp) then acc
      else
        let '(ports, plog) := convertPorts inst in
        (out ++ map (fun p =>
                       {| Endpoint := {| EpAddress := IIPAddress inst;
                                         EpPort := PortNum p;
                                         ServicePort := p |};
                          InstService := service;
                          InstLabels := convertLabels (IMetadata inst) |})
                    ports,
         log ++ plog)
  end.

Definition convertServiceInstances (services : gmap string Service)
    (apps : list application) : list ServiceInstance * list string :=
  foldl (fun acc app => foldl (instancesOf services) acc (Instances app))
        ([], []) apps.

(** An instance convertServices takes into account: let through by the
    whitelist, up, and with a port enabled. *)
Definition counted (hostnames : gmap string bool) (inst : instance) : Prop :=
  allowed hostnames (IHostname inst) /\ Status inst = statusUp
  /\ (Enabled (IPort inst) = true \/ Enabled (SecurePort inst) = true).

(** What convertServices has built from the instances [seen]: every service
    is under its host name, has the fixed fields of the literal and ports
    that are good and not empty; the host names are those of the counted
    instances; and the service of a counted instance has a port for each
    port number of the instance. *)
Definition servicesOf (hostnames : gmap string bool) (seen : list instance)
    (services : gmap string Service) : Prop :=
  (forall h svc, services !! h = Some svc ->
     Hostname svc = h /\ Address svc = "::0" /\ ExternalName svc = ""
     /\ MeshExternal svc = false /\ SvcResolution svc = ClientSideLB
     /\ Ports svc <> [] /\ goodPorts (Ports svc))
  /\ (forall h, is_Some (services !! h) <->
                exists inst, inst ∈ seen /\ IHostname inst = h /\ counted hostnames inst)
  /\ (forall inst, inst ∈ seen -> counted hostnames inst ->
        exists svc, services !! IHostname inst = Some svc
                    /\ forall p, p ∈ (convertPorts inst).1 ->
                                 PortNum p ∈ map PortNum (Ports svc)).

End Conversion.
End Eureka.

(** * Scenarios: concrete inputs *)
Module Scenario.
Import Model.

(** Stand-ins for what src does not hold, where a scenario needs a value. *)
#[local] Instance externals : V1alpha3.Externals :=
  {| V1alpha3.GogoDurationToDuration d :=
       V1alpha3.Seconds d * 1000000000 + V1alpha3.Nanos d;
     V1alpha3.BlackHoleCluster := "BlackHoleCluster";
     V1alpha3.RootCertPath := "/etc/certs/root-cert.pem";
     V1alpha3.CertChainPath := "/etc/certs/cert-chain.pem";
     V1alpha3.KeyPath := "/etc/certs/key.pem";
     V1alpha3.GetServiceAddressForProxy svc _ := Address svc;
     V1alpha3.BuildSidecarOutboundHTTPRouteConfig _ _ _ _ name :=
       Some (V1alpha3.mkRouteConfiguration name []);
     V1alpha3.buildSidecarInboundHTTPRouteConfig _ _ _ := None;
     V1alpha3.buildInboundNetworkFilters _ :=
       [V1alpha3.mkFilter "envoy.tcp_proxy" (V1alpha3.ConfigOpaque "inbound")];
     V1alpha3.buildOutboundNetworkFilters clusterName _ _ :=
       [V1alpha3.mkFilter "envoy.tcp_proxy" (V1alpha3.ConfigTcpProxy clusterName clusterName)];
     V1alpha3.Validate _ := None;
     V1alpha3.buildGatewayListeners _ _ := inl [];
     V1alpha3.DebugEnabled := false |}.

Definition noPlugins : V1alpha3.ConfigGeneratorImpl := V1alpha3.mkConfigGeneratorImpl [].

Definition port80 : Port := mkPort "http" 80 ProtocolHTTP.

Definition sidecar : Proxy := mkProxy Sidecar "10.0.0.5" "app.ns" "ns.svc.cluster.local" ∅.

(** The service of scenario S1, and the instance of it the sidecar hosts. *)
Definition serviceA : Service :=
  mkService "a.ns.svc.cluster.local" "10.1.0.1" [port80] "" false ClientSideLB.

Definition instanceA : ServiceInstance :=
  mkServiceInstance (mkNetworkEndpoint "10.0.0.5" 9080 port80) serviceA ∅.

Definition mesh (connectTimeout : V1alpha3.Duration) (listenPort httpPort : Z)
    : V1alpha3.MeshConfig :=
  {| V1alpha3.ConnectTimeout := connectTimeout;
     V1alpha3.MeshAuthPolicy := V1alpha3.MeshConfig_NONE;
     V1alpha3.ProxyListenPort := listenPort;
     V1alpha3.ProxyHttpPort := httpPort;
     V1alpha3.RdsRefreshDelay := V1alpha3.mkDuration 1 0;
     V1alpha3.AccessLogFile := "";
     V1alpha3.EnableTracing := false |}.

Definition environment (services : list Service) (m : V1alpha3.MeshConfig)
    : V1alpha3.Environment :=
  {| V1alpha3.Services := inl services;
     V1alpha3.GetProxyServiceInstances _ := inl [instanceA];
     V1alpha3.ManagementPorts _ := [];
     V1alpha3.GetDestinationRule _ := None;
     V1alpha3.InstancesByPort _ _ := inl [];
     V1alpha3.GetIstioServiceAccounts _ _ := [];
     V1alpha3.Mesh := m |}.

(** No intercept port, and an HTTP proxy port. *)
Definition envHttpProxyOnly : V1alpha3.Environment :=
  environment [serviceA] (mesh (V1alpha3.mkDuration 1 0) 0 15002).

(** Scenario S3: two services share port 80 on the wildcard address, one
    with HTTP and one, which is not load balanced, with TCP. *)
Definition port80tcp : Port := mkPort "tcp" 80 ProtocolTCP.

Definition serviceB : Service :=
  mkService "b.ns.svc.cluster.local" "10.1.0.2" [port80tcp] "" false Passthrough.

Definition envS3 : V1alpha3.Environment :=
  environment [serviceA; serviceB] (mesh (V1alpha3.mkDuration 1 0) 15001 0).

Definition emptyGen : V1alpha3.GenState := V1alpha3.mkGenState 0 0 [].

(** The maps of buildSidecarOutboundListeners in S3 after the round of the
    HTTP port. *)
Definition afterHttpPort : option V1alpha3.OutboundState :=
  V1alpha3.outboundListenerForPort (E := externals) noPlugins envS3 sidecar [instanceA]
    [serviceA; serviceB] serviceA port80
    (V1alpha3.mkOutboundState ∅ ∅ emptyGen).

Definition stateS3 : V1alpha3.OutboundState :=
  default (V1alpha3.mkOutboundState ∅ ∅ emptyGen) afterHttpPort.

(** The listener of the HTTP port, the first one built in S3. *)
Definition firstS3 : V1alpha3.Listener :=
  default (V1alpha3.virtualListener (E := externals) (V1alpha3.Mesh envS3) sidecar)
          (V1alpha3.listenerMap stateS3 !! "::0:80").

(** A mesh configuration whose connect timeout is zero seconds. *)
Definition envZeroTimeout : V1alpha3.Environment :=
  environment [serviceA] (mesh (V1alpha3.mkDuration 0 0) 15001 0).

(** *** The ADS stream *)

Definition nodeId : string := "sidecar~10.0.0.5~app.ns~ns.svc.cluster.local".

(** Every generator works and every send goes through. *)
Definition pushEnvOk : Ads.PushEnv :=
  Ads.mkPushEnv (fun _ => None) (fun _ => Ads.SendReturns None) (fun _ _ => None).

(** The registry fails when the routes are generated; every other
    generator works, and every send goes through. *)
Definition pushEnvRdsGeneratorFails : Ads.PushEnv :=
  Ads.mkPushEnv (fun t => if decide (t = Ads.RouteType) then Some "registry down" else None)
    (fun _ => Ads.SendReturns None) (fun _ _ => None).

(** The send of an endpoint response fails; the rest works. *)
Definition pushEnvEdsFails : Ads.PushEnv :=
  Ads.mkPushEnv (fun _ => None)
    (fun t => if decide (t = Ads.EndpointType)
              then Ads.SendReturns (Some "transport is closing")
              else Ads.SendReturns None)
    (fun _ _ => None).

Definition request (node typeUrl : string) (names : list string) : Ads.DiscoveryRequest :=
  Ads.mkDiscoveryRequest (Some (Ads.mkNode node ∅)) typeUrl names "" "" None.

Definition reqMissingNode : Ads.DiscoveryRequest := request "" Ads.ClusterType [].
Definition reqNoNode : Ads.DiscoveryRequest :=
  Ads.mkDiscoveryRequest None Ads.ClusterType [] "" "" None.
Definition reqMalformedNode : Ads.DiscoveryRequest := request "sidecar~10.0.0.5" Ads.ClusterType [].
Definition reqUnknownType : Ads.DiscoveryRequest :=
  request nodeId "type.googleapis.com/envoy.api.v2.Unknown" [].
Definition reqCds : Ads.DiscoveryRequest := request nodeId Ads.ClusterType [].
Definition reqLds : Ads.DiscoveryRequest := request nodeId Ads.ListenerType [].
Definition reqRds (names : list string) : Ads.DiscoveryRequest := request nodeId Ads.RouteType names.
Definition reqEds (names : list string) : Ads.DiscoveryRequest := request nodeId Ads.EndpointType names.

(** A stream that has just been accepted, at pointer 0. *)
Definition freshCtx : Ads.Ctx :=
  Ads.mkCtx Ads.emptyServer (Ads.newXdsConnection "10.0.0.5:4242" 1000) [].

(** The same stream after an endpoint request for the clusters a and b. *)
Definition watchingAB : Ads.Ctx :=
  (Ads.handleRequest 0 pushEnvOk (reqEds ["a"; "b"]) freshCtx).2.

(** The same stream after requests for clusters, listeners, the endpoints
    of a and b, and the route 80. *)
Definition watchingAll : Ads.Ctx :=
  foldl (fun x r => (Ads.handleRequest 0 pushEnvOk r x).2) freshCtx
        [reqCds; reqLds; reqEds ["a"; "b"]; reqRds ["80"]].

(** Three streams are accepted, and each asks for clusters. *)
Definition threeStreams : list Ads.Event :=
  [ Ads.EvAccept "10.0.0.5:4242" 1000;
    Ads.EvAccept "10.0.0.6:4242" 2000;
    Ads.EvAccept "10.0.0.7:4242" 3000;
    Ads.EvRequest 0 reqCds pushEnvOk;
    Ads.EvRequest 1 reqCds pushEnvOk;
    Ads.EvRequest 2 reqCds pushEnvOk ].

Definition conID (n : nat) : string := Ads.connectionID nodeId n.

(** A broadcast at 100 s: the first client takes the signal, the second is
    closing, the third does not take the signal in time. *)
Definition broadcast1 : Ads.BroadcastEnv :=
  Ads.mkBroadcastEnv (fun _ => inl [])
    (fun k => if decide (k = conID 1) then Ads.Signalled (100 * Ads.Second)
              else if decide (k = conID 2) then Ads.DoneFired
              else Ads.Deadline (100 * Ads.Second)).

(** A broadcast at 120 s that no client takes in time. *)
Definition broadcast2 : Ads.BroadcastEnv :=
  Ads.mkBroadcastEnv (fun _ => inl []) (fun _ => Ads.Deadline (120 * Ads.Second)).

(** The three streams, and then the first broadcast. *)
Definition untilBroadcast1 : list Ads.Event :=
  threeStreams ++ [Ads.EvBroadcast broadcast1].

(** A stream is accepted and asks for the endpoints of a and b. *)
Definition streamWatchingAB : list Ads.Event :=
  [ Ads.EvAccept "10.0.0.5:4242" 1000; Ads.EvRequest 0 (reqEds ["a"; "b"]) pushEnvOk ].

(** Then it asks for the endpoints of c alone. *)
Definition streamDroppingAB : list Ads.Event :=
  streamWatchingAB ++ [ Ads.EvRequest 0 (reqEds ["c"]) pushEnvOk ].

(** Then its request channel is closed, and the stream function returns. *)
Definition streamDroppingABClosed : list Ads.Event :=
  streamDroppingAB ++ [ Ads.EvRecvClosed 0 None ].

(** A stream is accepted, and the push of its first request, for the
    endpoints of a, fails. *)
Definition streamFailingFirstPush : list Ads.Event :=
  [ Ads.EvAccept "10.0.0.5:4242" 1000; Ads.EvRequest 0 (reqEds ["a"]) pushEnvEdsFails ].

(** A stream is accepted, and its first request carries no node message. *)
Definition streamWithoutNode : list Ads.Event :=
  [ Ads.EvAccept "10.0.0.5:4242" 1000; Ads.EvRequest 0 reqNoNode pushEnvOk ].

(** *** Requests that report an error *)

(** An ACK of the cluster type that reports an error. *)
Definition nackCds : Ads.DiscoveryRequest :=
  Ads.mkDiscoveryRequest (Some (Ads.mkNode nodeId ∅)) Ads.ClusterType []
    "" "" (Some "invalid cluster").

(** An ACK of the listener type that reports an error. *)
Definition nackLds : Ads.DiscoveryRequest :=
  Ads.mkDiscoveryRequest (Some (Ads.mkNode nodeId ∅)) Ads.ListenerType []
    "" "" (Some "invalid listener").

(** *** Virtual hosts and Eureka applications *)

(** The domain suffix of the sidecar, as its labels. *)
Definition sidecarSuffix : list string := ["ns"; "svc"; "cluster"; "local"].

(** A stand-in for Service.Key. *)
Definition serviceKey (hostname : string) (port : Port) (_ : Labels) : string :=
  hostname +:+ "|" +:+ Name port.

(** Stand-ins for what the Eureka conversion takes from outside src: the
    status constant, a parser of two protocol names, and a lookup that
    returns the first port with the number. *)
Definition statusUp : string := "UP".

Definition parseProtocol (name : string) : Protocol :=
  if decide (name = "http") then ProtocolHTTP
  else if decide (name = "tcp") then ProtocolTCP
  else ProtocolUnsupported.

Definition firstByPort (ports : list Port) (num : Z) : option Port :=
  find (fun p => bool_decide (PortNum p = num)) ports.

(** Two instances of a.example.com that are up, the first with HTTP on its
    port, the second with no metadata and both ports; and an instance of
    b.example.com that is down. *)
Definition eurekaApps : list Eureka.application :=
  [ Eureka.mkApplication "a"
      [ Eureka.mkInstance "a.example.com" "10.0.0.1" "UP"
          (Eureka.mkEurekaPort 8080 true) (Eureka.mkEurekaPort 8443 false)
          (Some {[ "istio.protocol" := "http"; "@class" := "metadata"; "version" := "v1" ]});
        Eureka.mkInstance "a.example.com" "10.0.0.2" "UP"
          (Eureka.mkEurekaPort 8080 true) (Eureka.mkEurekaPort 8443 true) None ];
    Eureka.mkApplication "b"
      [ Eureka.mkInstance "b.example.com" "10.0.0.3" "DOWN"
          (Eureka.mkEurekaPort 8080 true) (Eureka.mkEurekaPort 8443 false) None ] ].

Definition eurekaServices : gmap string Service :=
  (Eureka.convertServices parseProtocol statusUp firstByPort eurekaApps ∅).1.

Definition eurekaInstances : list ServiceInstance :=
  (Eureka.convertServiceInstances parseProtocol statusUp eurekaServices eurekaApps).1.

End Scenario.

(** * Properties *)

(** ** v1: outbound clusters of external services *)
Module V1Facts.
Import Model V1.

Lemma append_cons (a : ascii) (s t : string) :
  String a s +:+ t = String a (s +:+ t).
Proof. reflexivity. Qed.

Lemma append_nil_r (s : string) : s +:+ "" = s.
Proof. induction s as [|a s IH]; [done|]. by rewrite append_cons, IH. Qed.

Lemma Sprint_percent_d (port : Z) :
  Go.Sprint [Go.OpString "%d"; Go.OpInt port] = "%d" +:+ pretty port.
Proof.
  unfold Go.Sprint. cbn [Go.SprintFrom Go.isString Go.formatV Nat.eqb negb andb].
  cbn. by rewrite append_nil_r.
Qed.

(** joinIPPort does not yield host:port: the port part keeps the verb. *)
Lemma joinIPPort_no_colon (ip : string) (port : Z) :
  Go.containsChar ":" ip = false ->
  joinIPPort ip port = ip +:+ ":%d" +:+ pretty port.
Proof.
  intros Hc. unfold joinIPPort, Go.JoinHostPort. rewrite Hc, Sprint_percent_d.
  reflexivity.
Qed.

(** The cluster of an external service, for any host name without a colon:
    strict DNS, no SDS lookup of hosts, and the one host URL that joinIPPort
    makes. *)
Lemma BuildOutboundCluster_external
    (ServiceKey : string -> Port -> Labels -> string)
    (TruncateClusterName : string -> string) (MakeHTTP2 : Cluster -> Cluster)
    (hostname : string) (port : Port) (lbls : Labels) :
  Go.containsChar ":" hostname = false ->
  PortProtocol port <> ProtocolGRPC ->
  PortProtocol port <> ProtocolHTTP2 ->
  let c := BuildOutboundCluster ServiceKey TruncateClusterName MakeHTTP2
             hostname port lbls true in
  Type_ c = ClusterTypeStrictDNS
  /\ Hosts c = [mkHost ("tcp://" +:+ hostname +:+ ":%d" +:+ pretty (PortNum port))].
Proof.
  intros Hc Hg Hh. cbn zeta. unfold BuildOutboundCluster.
  rewrite decide_False by tauto. cbn [Type_ Hosts].
  by rewrite joinIPPort_no_colon.
Qed.

(** C7 (the code at the failing input): for the external host "hostname" and
    port 80, BuildOutboundCluster gives a strict-DNS cluster whose only host
    is tcp://hostname:%d80, not tcp://hostname:80; joinIPPort formats the
    port with fmt.Sprint and the operand "%d" instead of a format verb. *)
Theorem BuildOutboundCluster_external_host_url
    (ServiceKey : string -> Port -> Labels -> string)
    (TruncateClusterName : string -> string) (MakeHTTP2 : Cluster -> Cluster) :
  let c := BuildOutboundCluster ServiceKey TruncateClusterName MakeHTTP2
             "hostname" (mkPort "http" 80 ProtocolHTTP) ∅ true in
  Type_ c = ClusterTypeStrictDNS
  /\ Hosts c = [mkHost "tcp://hostname:%d80"]
  /\ Hosts c <> [mkHost "tcp://hostname:80"].
Proof.
  cbn. unfold BuildOutboundCluster. cbn.
  repeat split; try reflexivity. discriminate.
Qed.

End V1Facts.

(** ** v1alpha3: clusters *)
Module ClusterFacts.
Import Model V1alpha3.

Section General.
Context {E : Externals}.
Variable configgen : ConfigGeneratorImpl.

(** The loop of BuildClusters leaves no zero connect timeout behind. *)
Lemma ensureConnectTimeout_nonzero (c : Cluster) :
  ClConnectTimeout (ensureConnectTimeout c) <> 0.
Proof.
  unfold ensureConnectTimeout. case_decide; [|done].
  cbn. unfold defaultClusterConnectTimeout. lia.
Qed.

(** buildDefaultCluster takes its connect timeout from the mesh
    configuration, whatever that is. *)
Lemma buildDefaultCluster_timeout (env : Environment) (name : string)
    (t : DiscoveryType) (hosts : list Address) :
  ClConnectTimeout (buildDefaultCluster env name t hosts)
  = GogoDurationToDuration
      (mkDuration (Seconds (ConnectTimeout (Mesh env))) (Nanos (ConnectTimeout (Mesh env)))).
Proof.
  unfold buildDefaultCluster, buildDefaultTrafficPolicy, applyTrafficPolicy.
  cbn. unfold applyLoadBalancer, applyUpstreamTLSSettings, applyOutlierDetection. cbn.
  repeat case_decide; cbn; reflexivity.
Qed.

(** A management cluster has the timeout of the mesh configuration: it is
    built after the loop that replaces a zero timeout. *)
Lemma mgmtClusterForPort_timeout (env : Environment) (port : Port) :
  ClConnectTimeout (mgmtClusterForPort env port)
  = GogoDurationToDuration
      (mkDuration (Seconds (ConnectTimeout (Mesh env))) (Nanos (ConnectTimeout (Mesh env)))).
Proof.
  unfold mgmtClusterForPort, setUpstreamProtocol.
  destruct (IsHTTP2 _); cbn; apply buildDefaultCluster_timeout.
Qed.

(** The default cluster of a service that resolves by DNS: strict DNS, the
    hosts it is given, resolved over IPv4, and no EDS configuration. *)
Lemma buildDefaultCluster_dns (env : Environment) (name serviceName : string)
    (hosts : list Address) :
  let c := updateEds env (buildDefaultCluster env name (convertResolution DNSLB) hosts)
             serviceName in
  Type_ c = Cluster_STRICT_DNS /\ Hosts c = hosts
  /\ ClDnsLookupFamily c = Cluster_V4_ONLY /\ ClEdsClusterConfig c = None.
Proof.
  cbn zeta. unfold updateEds, buildDefaultCluster, buildDefaultTrafficPolicy,
    applyTrafficPolicy.
  cbn. unfold applyLoadBalancer, applyUpstreamTLSSettings, applyOutlierDetection. cbn.
  repeat case_decide; cbn in *; try done; tauto.
Qed.

(** The clusters the loop of BuildClusters has gone over, and the blackhole
    cluster, have a connect timeout that is not zero. *)
Lemma outbound_and_blackhole_nonzero (clusters : list Cluster) (c : Cluster) :
  c ∈ map ensureConnectTimeout clusters ++ [buildBlackHoleCluster] ->
  ClConnectTimeout c <> 0.
Proof.
  intros Hc. apply elem_of_app in Hc as [Hc|Hc].
  - apply list_elem_of_fmap in Hc as (c0 & -> & _). apply ensureConnectTimeout_nonzero.
  - apply list_elem_of_singleton in Hc as ->. done.
Qed.

(** What BuildClusters returns for a sidecar, when the registry answers: the
    outbound clusters after the loop, then the inbound clusters as they were
    built, then the blackhole cluster. *)
Lemma BuildClusters_sidecar (env : Environment) (proxy : Proxy)
    (services : list Service) (instances : list ServiceInstance) :
  Model.Type_ proxy = Sidecar ->
  Services env = inl services ->
  GetProxyServiceInstances env proxy = inl instances ->
  BuildClusters configgen env proxy
  = inl (map ensureConnectTimeout (buildOutboundClusters configgen env proxy services)
         ++ buildInboundClusters configgen env proxy instances
              (ManagementPorts env (IPAddress proxy))
         ++ [buildBlackHoleCluster]).
Proof.
  intros Ht Hs Hi. unfold BuildClusters. rewrite Hs. cbn.
  rewrite decide_True by done. rewrite Hi. by rewrite <- app_assoc.
Qed.

End General.

(** C6 (the code at the failing input): with a mesh connect timeout of zero
    seconds, BuildClusters for a sidecar that hosts one instance returns the
    outbound cluster and the blackhole cluster with five seconds, and the
    inbound cluster with a connect timeout of zero: the loop that replaces a
    zero timeout runs before the inbound clusters are appended. *)
Theorem BuildClusters_inbound_zero_timeout :
  (fun c => (Name c, ClConnectTimeout c)) <$>
    (match BuildClusters (E := Scenario.externals) Scenario.noPlugins
             Scenario.envZeroTimeout Scenario.sidecar with
     | inl clusters => clusters
     | inr _ => []
     end)
  = [ ("outbound|80||a.ns.svc.cluster.local", 5000000000);
      ("inbound|80||a.ns.svc.cluster.local", 0);
      ("BlackHoleCluster", 5000000000) ].
Proof. vm_compute. reflexivity. Qed.

End ClusterFacts.

(** ** v1alpha3: listeners *)
Module ListenerFacts.
Import Model V1alpha3.

Section General.
Context {E : Externals}.
Variable configgen : ConfigGeneratorImpl.

(** marshalFilters on the HTTP proxy listener: one chain, one filter. *)
Lemma marshalFilters_httpProxy (env : Environment) (node : Proxy)
    (proxyInstances : list ServiceInstance) (services : list Service) :
  exists cm,
    marshalFilters (buildListener (httpProxyOpts env node proxyInstances services))
      (httpProxyOpts env node proxyInstances services) [emptyPluginFilterChain]
    = MarshalOk
        {| LName := (if bool_decide (Model.Type_ node = Router)
                     then WildcardAddress else LocalhostAddress)
                    +:+ "_" +:+ Go.SprintfD (ProxyHttpPort (Mesh env));
           LAddress :=
             BuildAddress (if bool_decide (Model.Type_ node = Router)
                           then WildcardAddress else LocalhostAddress)
                          (uint32 (ProxyHttpPort (Mesh env)));
           FilterChains :=
             [ {| FcMatch := None; FcTlsContext := None;
                  Filters := [ {| FilterName := envoyHTTPConnectionManager;
                                  FilterCfg := ConfigHttpConnectionManager cm |} ] |} ];
           DeprecatedV1 := None;
           UseOriginalDst := None;
           Transparent := None |}.
Proof.
  eexists. unfold marshalFilters, httpProxyOpts. cbn. reflexivity.
Qed.

(** C10: for a sidecar, when the mesh ProxyListenPort is not greater than
    zero, BuildListeners builds no inbound, outbound, management or virtual
    listener: it returns the error of the registry, or no listener at all
    when ProxyHttpPort is not greater than zero either, or the HTTP proxy
    listener alone, bound to the localhost address and the HTTP proxy port;
    the gauges and the log are left as they were. *)
Theorem BuildListeners_without_intercept_port (env : Environment) (node : Proxy)
    (st : GenState) :
  Model.Type_ node = Sidecar ->
  ~ 0 < ProxyListenPort (Mesh env) ->
  exists result,
    BuildListeners configgen env node st = Some (result, st)
    /\ match result with
       | inr _ => True
       | inl listeners =>
           if decide (0 < ProxyHttpPort (Mesh env))
           then exists cm,
               listeners =
                 [ {| LName := LocalhostAddress +:+ "_"
                               +:+ Go.SprintfD (ProxyHttpPort (Mesh env));
                      LAddress := BuildAddress LocalhostAddress
                                    (uint32 (ProxyHttpPort (Mesh env)));
                      FilterChains :=
                        [ {| FcMatch := None; FcTlsContext := None;
                             Filters :=
                               [ {| FilterName := envoyHTTPConnectionManager;
                                    FilterCfg := ConfigHttpConnectionManager cm |} ] |} ];
                      DeprecatedV1 := None;
                      UseOriginalDst := None;
                      Transparent := None |} ]
           else listeners = []
       end.
Proof.
  intros Hside Hport. unfold BuildListeners. rewrite Hside.
  unfold buildSidecarListeners.
  destruct (GetProxyServiceInstances env node) as [proxyInstances|err].
  2: { exists (inr err). done. }
  destruct (Services env) as [services|err].
  2: { exists (inr err). done. }
  destruct (decide (0 < ProxyListenPort (Mesh env))) as [Hlisten|_]; [done|].
  cbn.
  destruct (decide (0 < ProxyHttpPort (Mesh env))) as [Hhttp|Hhttp].
  - destruct (marshalFilters_httpProxy env node proxyInstances
                (merge_sort hostnameLe services)) as [cm Hm].
    rewrite Hm. rewrite Hside in *. rewrite bool_decide_false by done.
    eexists (inl _). split; [reflexivity|]. cbn. by exists cm.
  - exists (inl []). done.
Qed.


End General.

(** Where the hypotheses of C10 hold: a mesh without an intercept port and
    with the HTTP proxy port 15002. *)
Lemma BuildListeners_without_intercept_port_witness :
  exists result,
    BuildListeners (E := Scenario.externals) Scenario.noPlugins
      Scenario.envHttpProxyOnly Scenario.sidecar Scenario.emptyGen
    = Some (result, Scenario.emptyGen)
    /\ match result with
       | inr _ => True
       | inl listeners =>
           if decide (0 < ProxyHttpPort (Mesh Scenario.envHttpProxyOnly))
           then exists cm,
               listeners =
                 [ {| LName := LocalhostAddress +:+ "_"
                               +:+ Go.SprintfD (ProxyHttpPort (Mesh Scenario.envHttpProxyOnly));
                      LAddress := BuildAddress LocalhostAddress
                                    (uint32 (ProxyHttpPort (Mesh Scenario.envHttpProxyOnly)));
                      FilterChains :=
                        [ {| FcMatch := None; FcTlsContext := None;
                             Filters :=
                               [ {| FilterName := envoyHTTPConnectionManager;
                                    FilterCfg := ConfigHttpConnectionManager cm |} ] |} ];
                      DeprecatedV1 := None;
                      UseOriginalDst := None;
                      Transparent := None |} ]
           else listeners = []
       end.
Proof.
  apply (BuildListeners_without_intercept_port (E := Scenario.externals)
           Scenario.noPlugins Scenario.envHttpProxyOnly Scenario.sidecar
           Scenario.emptyGen).
  - reflexivity.
  - vm_compute. discriminate.
Defined.


(** Scenario S3 as a whole: exactly one outbound listener is emitted, the
    one of the HTTP port, and the conflict gauge stands at one. *)
Example scenario_S3_one_listener :
  option_map (fun r : list Listener * GenState =>
                (map LName (fst r), conflictingOutbound (snd r)))
    (buildSidecarOutboundListeners (E := Scenario.externals) Scenario.noPlugins
       Scenario.envS3 Scenario.sidecar [Scenario.instanceA]
       [Scenario.serviceA; Scenario.serviceB] Scenario.emptyGen)
  = Some (["::0_80"], 1).
Proof. vm_compute. reflexivity. Qed.

End ListenerFacts.

(** ** v2: the stream loop *)
Module AdsFacts.
Import Model Ads.

Lemma NodeId_some (discReq : DiscoveryRequest) :
  NodeId discReq <> "" -> exists node, ReqNode discReq = Some node /\ Id node = NodeId discReq.
Proof.
  unfold NodeId. destruct (ReqNode discReq) as [node|]; [|done].
  intros _. by exists node.
Qed.

Lemma handleRequest_no_node (p : loc) (env : PushEnv) (discReq : DiscoveryRequest)
    (x : Ctx) :
  ReqNode discReq = None -> handleRequest p env discReq x = (Panic, x).
Proof. intros Hn. unfold handleRequest. by rewrite Hn. Qed.

Lemma handleRequest_missing_id (p : loc) (env : PushEnv) (discReq : DiscoveryRequest)
    (x : Ctx) (node : Node) :
  ReqNode discReq = Some node ->
  Id node = "" ->
  handleRequest p env discReq x
  = (Continue, withSrv (logAds (LogInfo "Missing node id")) x).
Proof.
  intros Hn Hid. unfold handleRequest, NodeId. rewrite Hn.
  by rewrite decide_True.
Qed.

Lemma handleRequest_malformed_id (p : loc) (env : PushEnv) (discReq : DiscoveryRequest)
    (x : Ctx) (node : Node) (err : string) :
  ReqNode discReq = Some node ->
  Id node <> "" ->
  ParseServiceNode (Id node) = inr err ->
  handleRequest p env discReq x = (Return (Some err), x).
Proof.
  intros Hn Hid Hparse. unfold handleRequest, NodeId. rewrite Hn.
  rewrite decide_False by done. by rewrite Hparse.
Qed.

Lemma handleRequest_parsed (p : loc) (env : PushEnv) (discReq : DiscoveryRequest)
    (x : Ctx) (nt : Proxy) :
  NodeId discReq <> "" ->
  ParseServiceNode (NodeId discReq) = inl nt ->
  handleRequest p env discReq x
  = match dispatch p env discReq (prepared discReq nt x) with
    | (EndOfSwitch, x) => (Continue, registerCon p x)
    | (ContinueLoop, x) => (Continue, x)
    | (Leave f, x) => (f, x)
    end.
Proof.
  intros Hid Hparse. destruct (NodeId_some _ Hid) as (node & Hn & _).
  unfold handleRequest. rewrite Hn. rewrite decide_False by done.
  by rewrite Hparse.
Qed.

(** The four ways a request is dealt with, by its node. *)
Lemma handleRequest_cases (p : loc) (env : PushEnv) (discReq : DiscoveryRequest)
    (x : Ctx) :
  (ReqNode discReq = None /\ handleRequest p env discReq x = (Panic, x))
  \/ (NodeId discReq = ""
      /\ handleRequest p env discReq x
         = (Continue, withSrv (logAds (LogInfo "Missing node id")) x))
  \/ (exists err, NodeId discReq <> ""
        /\ ParseServiceNode (NodeId discReq) = inr err
        /\ handleRequest p env discReq x = (Return (Some err), x))
  \/ (exists nt, NodeId discReq <> ""
        /\ ParseServiceNode (NodeId discReq) = inl nt
        /\ handleRequest p env discReq x
           = match dispatch p env discReq (prepared discReq nt x) with
             | (EndOfSwitch, x) => (Continue, registerCon p x)
             | (ContinueLoop, x) => (Continue, x)
             | (Leave f, x) => (f, x)
             end).
Proof.
  destruct (ReqNode discReq) as [node|] eqn:Hn.
  - right. assert (Hnid : NodeId discReq = Id node) by (unfold NodeId; by rewrite Hn).
    destruct (decide (Id node = "")) as [Hid|Hid].
    + left. split; [congruence|]. by apply (handleRequest_missing_id _ _ _ _ node).
    + right. destruct (ParseServiceNode (Id node)) as [nt|err] eqn:Hparse.
      * right. exists nt. rewrite Hnid. split; [done|]. split; [done|].
        apply handleRequest_parsed; by rewrite Hnid.
      * left. exists err. rewrite Hnid. split; [done|]. split; [done|].
        by apply (handleRequest_malformed_id _ _ _ _ node).
  - left. split; [done|]. by apply handleRequest_no_node.
Qed.

Lemma prepared_watch (discReq : DiscoveryRequest) (nt : Proxy) (x : Ctx) :
  sameWatch (cCon x) (cCon (prepared discReq nt x))
  /\ added (cCon (prepared discReq nt x)) = added (cCon x)
  /\ cSent (prepared discReq nt x) = cSent x
  /\ modelNode (cCon (prepared discReq nt x)) <> None.
Proof.
  unfold prepared, assignConID, sameWatch. cbn.
  case_decide; cbn; done.
Qed.

(** A request that carries a node. When the id of the node is empty, the
    request is logged, with one entry at the end of the log, and skipped:
    the loop goes on, and the connection, the responses sent, the tables
    and the metrics are as they were. When the id is there and does not
    parse, the stream function returns the parse error, and nothing has
    changed. *)
Lemma handleRequest_with_node (p : loc) (env : PushEnv) (discReq : DiscoveryRequest)
    (x : Ctx) (node : Node) (flow : Flow) (x' : Ctx) :
  ReqNode discReq = Some node ->
  handleRequest p env discReq x = (flow, x') ->
  (Id node = "" ->
   flow = Continue
   /\ adsLog (cSrv x') = adsLog (cSrv x) ++ [LogInfo "Missing node id"]
   /\ cCon x' = cCon x /\ cSent x' = cSent x
   /\ sameTables (cSrv x) (cSrv x') /\ metrics (cSrv x') = metrics (cSrv x))
  /\ (forall err,
        Id node <> "" ->
        ParseServiceNode (Id node) = inr err ->
        flow = Return (Some err) /\ x' = x).
Proof.
  intros Hn H. split.
  - intros Hid. rewrite (handleRequest_missing_id _ _ _ _ node) in H by done.
    injection H as <- <-. cbn. repeat split.
  - intros err Hid Hparse.
    rewrite (handleRequest_malformed_id _ _ _ _ node err) in H by done.
    by injection H as <- <-.
Qed.

(** C5 (the code at the failing input): a request with no node message has
    an empty node id. The code reads discReq.Node.Id through the nil
    pointer, and the stream loop panics: the request is not logged, the loop
    does not go on, and the stream function returns no error. On the same
    stream, the request with a node whose id is empty is logged and
    skipped, and the request with a node whose id has two fields makes the
    stream function return the parse error. *)
Theorem request_without_node_panics :
  let x := Scenario.freshCtx in
  let r := handleRequest 0 Scenario.pushEnvOk Scenario.reqNoNode x in
  let skipped := handleRequest 0 Scenario.pushEnvOk Scenario.reqMissingNode x in
  let malformed := handleRequest 0 Scenario.pushEnvOk Scenario.reqMalformedNode x in
  NodeId Scenario.reqNoNode = ""
  /\ r = (Panic, x)
  /\ adsLog (cSrv r.2) = []
  /\ crashed (run Scenario.streamWithoutNode initial) = true
  /\ NodeId Scenario.reqMissingNode = ""
  /\ skipped.1 = Continue
  /\ adsLog (cSrv skipped.2) = [LogInfo "Missing node id"]
  /\ malformed
     = (Return (Some "missing parts in the service node sidecar~10.0.0.5"), x).
Proof. vm_compute. repeat split. Qed.

(** *** What the pushes leave alone *)

Lemma sameTables_refl s : sameTables s s.
Proof. by unfold sameTables. Qed.

Lemma sameTables_trans s1 s2 s3 : sameTables s1 s2 -> sameTables s2 s3 -> sameTables s1 s3.
Proof. unfold sameTables. intros (->&->&->&->) (->&->&->&->). done. Qed.

Lemma sameCon_refl c : sameCon c c.
Proof. unfold sameCon. by destruct c. Qed.

Lemma sameCon_trans c1 c2 c3 : sameCon c1 c2 -> sameCon c2 c3 -> sameCon c1 c3.
Proof.
  unfold sameCon. destruct c1, c2, c3; cbn. intros [= <- <- <- <- <- <- <- <- <- <- <- <-].
  intros [= <- <- <- <- <- <- <- <- <- <- <- <-]. done.
Qed.

Lemma sameCon_fields c c' :
  sameCon c c' ->
  ConID c' = ConID c /\ modelNode c' = modelNode c
  /\ doneChannelClosed c' = doneChannelClosed c /\ added c' = added c
  /\ sameWatch c c' /\ LastPush c' = LastPush c
  /\ LastPushFailure c' = LastPushFailure c.
Proof.
  unfold sameCon, sameWatch. destruct c, c'; cbn.
  intros [= <- <- <- <- <- <- <- <- <- <- <- <-]. done.
Qed.

Lemma send_spec (o : SendOutcome) (res : DiscoveryResponse) (x : Ctx) :
  match send o res x with
  | (None, x') =>
      o = SendReturns None /\ cSent x' = cSent x ++ [res]
      /\ cCon x' = cCon x /\ sameTables (cSrv x) (cSrv x')
  | (Some _, x') =>
      o <> SendReturns None /\ cSent x' = cSent x
      /\ cCon x' = cCon x /\ sameTables (cSrv x) (cSrv x')
  end.
Proof. destruct o as [[err|]|]; cbn; repeat split; done. Qed.

(** A push of Cluster, Listener or Endpoint resources either sends its one
    response, or fails and sends nothing. *)
Lemma pushOther_spec (typeUrl label : string) (names : list string) (env : PushEnv)
    (x : Ctx) :
  match pushOther typeUrl label names env x with
  | (PushOk, x') =>
      pushSucceeds env typeUrl
      /\ cSent x' = cSent x ++ [mkDiscoveryResponse typeUrl names]
      /\ cCon x' = cCon x /\ sameTables (cSrv x) (cSrv x')
  | (PushErr _, x') =>
      ~ pushSucceeds env typeUrl
      /\ cSent x' = cSent x /\ cCon x' = cCon x /\ sameTables (cSrv x) (cSrv x')
  | (PushPanic, _) => False
  end.
Proof.
  unfold pushOther, pushSucceeds.
  destruct (generate env typeUrl) as [err|] eqn:Hg.
  { cbn. repeat split; try done. intros [? _]; done. }
  pose proof (send_spec (transport env typeUrl) (mkDiscoveryResponse typeUrl names) x) as Hs.
  destruct (send _ _ x) as [[err|] x']; cbn.
  - destruct Hs as (Ho & -> & -> & Ht). repeat split; try done; try apply Ht.
    intros [_ ?]; done.
  - destruct Hs as (Ho & -> & -> & Ht). repeat split; try done; apply Ht.
Qed.

(** A push of routes: the same, but it stores the route configurations of
    the watched routes on the connection, and needs the node. *)
Lemma pushRoute_spec (env : PushEnv) (x : Ctx) :
  match pushRoute env x with
  | (PushOk, x') =>
      pushSucceeds env RouteType
      /\ cSent x' = cSent x ++ [mkDiscoveryResponse RouteType (Routes (cCon x))]
      /\ sameCon (cCon x) (cCon x') /\ sameTables (cSrv x) (cSrv x')
  | (PushErr _, x') =>
      ~ pushSucceeds env RouteType
      /\ cSent x' = cSent x /\ sameCon (cCon x) (cCon x')
      /\ sameTables (cSrv x) (cSrv x')
  | (PushPanic, x') => modelNode (cCon x) = None /\ x' = x
  end.
Proof.
  unfold pushRoute, pushSucceeds.
  destruct (generate env RouteType) as [err|] eqn:Hg.
  { cbn. repeat split; try done; [intros [? _]; done | apply sameCon_refl]. }
  destruct (modelNode (cCon x)) as [node|] eqn:Hn; [|done].
  match goal with |- context [send ?o ?r ?y] =>
    pose proof (send_spec o r y) as Hs; destruct (send o r y) as [[err|] x'] end; cbn.
  - destruct Hs as (Ho & -> & -> & Ht). cbn in *.
    repeat split; try done; try apply Ht.
    + intros [_ ?]; done.
    + unfold sameCon. by destruct (cCon x).
  - destruct Hs as (Ho & -> & -> & Ht). cbn in *.
    repeat split; try done; try apply Ht.
    unfold sameCon. by destruct (cCon x).
Qed.

(** *** What a round on a request leaves alone *)

Lemma sameCon_identity c c' : sameCon c c' -> sameIdentity c c'.
Proof. intros H. apply sameCon_fields in H. unfold sameIdentity. tauto. Qed.

Lemma sameTables_registry s s' : sameTables s s' -> sameRegistry s s'.
Proof. unfold sameTables, sameRegistry. tauto. Qed.

Lemma watchClusters_index (p : loc) (clusters : list string) (x : Ctx) :
  foldl (fun x c => withSrv (addEdsCon c (ConID (cCon x)) p) x) x clusters
  = withSrv (addEdsCons clusters (ConID (cCon x)) p) x.
Proof.
  unfold addEdsCons. revert x. induction clusters as [|c cs IH]; intros x.
  - by destruct x.
  - cbn. rewrite IH. by destruct x.
Qed.

Lemma addEdsCon_registry c i p s : sameRegistry s (addEdsCon c i p s).
Proof. by unfold addEdsCon, sameRegistry. Qed.

Lemma addEdsCons_registry cs i p s : sameRegistry s (addEdsCons cs i p s).
Proof.
  unfold addEdsCons. revert s. induction cs as [|c cs IH]; intros s; [done|].
  cbn. specialize (IH (addEdsCon c i p s)). unfold sameRegistry in *. cbn in *. tauto.
Qed.

(** What watchClusters does: the watch list is the requested one, every
    cluster of it has the connection in its index entry, and the push of the
    endpoints follows. *)
Lemma watchClusters_spec (p : loc) (env : PushEnv) (clusters : list string) (x : Ctx) :
  match watchClusters p env clusters x with
  | (d, x') =>
      cCon x' = setClusters clusters (cCon x)
      /\ edsClusters (cSrv x')
         = edsClusters (addEdsCons clusters (ConID (cCon x)) p (cSrv x))
      /\ sameRegistry (cSrv x) (cSrv x')
      /\ match d with
         | EndOfSwitch =>
             pushSucceeds env EndpointType
             /\ cSent x' = cSent x ++ [mkDiscoveryResponse EndpointType clusters]
         | ContinueLoop => False
         | Leave f =>
             (exists err, f = Return (Some err)) /\ ~ pushSucceeds env EndpointType
             /\ cSent x' = cSent x
         end
  end.
Proof.
  unfold watchClusters, pushEds. cbn. rewrite watchClusters_index. cbn.
  match goal with |- context [pushOther ?t ?l ?n ?e ?y] =>
    pose proof (pushOther_spec t l n e y) as Hs;
    destruct (pushOther t l n e y) as [[|err|] x'] end; cbn in *; [| |done].
  - destruct Hs as (Hok & -> & -> & Ht). cbn.
    pose proof (addEdsCons_registry clusters (ConID (cCon x)) p (cSrv x)) as Hr.
    unfold sameTables, sameRegistry in *. cbn in *.
    destruct Ht as (-> & -> & -> & ->). tauto.
  - destruct Hs as (Hok & -> & -> & Ht). cbn.
    pose proof (addEdsCons_registry clusters (ConID (cCon x)) p (cSrv x)) as Hr.
    unfold sameTables, sameRegistry in *. cbn in *.
    destruct Ht as (-> & -> & -> & ->). repeat split; try tauto. by exists err.
Qed.

(** The endpoint case: an ACK, which changes neither the watch list nor the
    index and sends nothing, or watchClusters. *)
Lemma caseEndpointType_spec (p : loc) (env : PushEnv) (discReq : DiscoveryRequest)
    (x : Ctx) :
  let clusters := ResourceNames discReq in
  if bool_decide (Clusters (cCon x) <> []
                  /\ (length clusters = length (Clusters (cCon x)) \/ clusters = []))
  then exists x',
      caseEndpointType p env discReq x = (ContinueLoop, x')
      /\ cCon x' = cCon x /\ cSent x' = cSent x /\ sameTables (cSrv x) (cSrv x')
  else exists x0,
      caseEndpointType p env discReq x = watchClusters p env clusters x0
      /\ cCon x0 = cCon x /\ cSent x0 = cSent x /\ sameTables (cSrv x) (cSrv x0).
Proof.
  intros clusters. unfold caseEndpointType. fold clusters.
  assert (Hlen : forall l : list string, l = [] <-> length l = 0%nat)
    by (intros []; cbn; split; (done || lia)).
  case_bool_decide as Hack.
  - destruct Hack as [Hne Hl].
    assert (bool_decide (length clusters = length (Clusters (cCon x)))
            || bool_decide (length clusters = 0%nat) = true) as ->.
    { apply orb_true_iff. destruct Hl as [Hl|Hl]; [left|right]; apply bool_decide_eq_true;
        [done|by apply Hlen]. }
    assert (0 < length (Clusters (cCon x)))%nat.
    { destruct (Clusters (cCon x)); [done|cbn; lia]. }
    destruct (ErrorDetail discReq); cbn; rewrite decide_True by done;
      eexists; (split; [reflexivity|]); cbn; done.
  - destruct (bool_decide (length clusters = length (Clusters (cCon x)))
              || bool_decide (length clusters = 0%nat)) eqn:Hb.
    + assert (Clusters (cCon x) = []) as Hnil.
      { destruct (decide (Clusters (cCon x) = [])) as [|Hne]; [done|].
        exfalso. apply Hack. split; [done|].
        apply orb_true_iff in Hb as [Hb|Hb]; apply bool_decide_eq_true in Hb;
          [by left|right; by apply Hlen]. }
      destruct (ErrorDetail discReq); cbn; rewrite Hnil; cbn;
        eexists; (split; [reflexivity|]); cbn; rewrite ?Hnil; done.
    + exists x. done.
Qed.

Lemma typeUrls_distinct :
  ClusterType <> ListenerType /\ ClusterType <> RouteType /\ ClusterType <> EndpointType
  /\ ListenerType <> RouteType /\ ListenerType <> EndpointType
  /\ RouteType <> EndpointType.
Proof. repeat split; discriminate. Qed.

Lemma dispatch_cluster p env discReq x :
  TypeUrl discReq = ClusterType ->
  dispatch p env discReq x = caseClusterType env discReq x.
Proof. intros H. unfold dispatch. by rewrite decide_True. Qed.

Lemma dispatch_listener p env discReq x :
  TypeUrl discReq = ListenerType ->
  dispatch p env discReq x = caseListenerType env discReq x.
Proof.
  intros H. unfold dispatch. rewrite H.
  rewrite decide_False by discriminate. by rewrite decide_True.
Qed.

Lemma dispatch_route p env discReq x :
  TypeUrl discReq = RouteType ->
  dispatch p env discReq x = caseRouteType env discReq x.
Proof.
  intros H. unfold dispatch. rewrite H.
  do 2 rewrite decide_False by discriminate. by rewrite decide_True.
Qed.

Lemma dispatch_endpoint p env discReq x :
  TypeUrl discReq = EndpointType ->
  dispatch p env discReq x = caseEndpointType p env discReq x.
Proof.
  intros H. unfold dispatch. rewrite H.
  do 3 rewrite decide_False by discriminate. by rewrite decide_True.
Qed.

Lemma dispatch_unrecognized p env discReq x :
  unrecognized (TypeUrl discReq) ->
  dispatch p env discReq x
  = (EndOfSwitch, withSrv (logAds (LogWarn "ADS: Unknown watched resources")) x).
Proof.
  intros (H1 & H2 & H3 & H4). unfold dispatch.
  by rewrite !decide_False.
Qed.

(** Every type URL is one of the four, or unrecognized. *)
Lemma typeUrl_cases (t : string) :
  t = ClusterType \/ t = ListenerType \/ t = RouteType \/ t = EndpointType
  \/ unrecognized t.
Proof.
  unfold unrecognized.
  destruct (decide (t = ClusterType)); [tauto|].
  destruct (decide (t = ListenerType)); [tauto|].
  destruct (decide (t = RouteType)); [tauto|].
  destruct (decide (t = EndpointType)); tauto.
Qed.

(** C2 (as amended): on a connection with an established endpoint watch, a
    request with as many resource names as the watch has, or with none, is
    an ACK: nothing is sent and the watch stays, whatever the names are; so
    the same request issued twice sends nothing the second time; a request
    with another, non-zero number of names replaces the watch and, when its
    push succeeds, sends exactly one response, for the new names. *)
Theorem eds_watch_by_length (p : loc) (env : PushEnv) (discReq : DiscoveryRequest)
    (x : Ctx) (nt : Proxy) :
  TypeUrl discReq = EndpointType ->
  NodeId discReq <> "" ->
  ParseServiceNode (NodeId discReq) = inl nt ->
  let names := ResourceNames discReq in
  (Clusters (cCon x) <> [] ->
   length names = length (Clusters (cCon x)) \/ names = [] ->
   exists x',
     handleRequest p env discReq x = (Continue, x')
     /\ cSent x' = cSent x /\ Clusters (cCon x') = Clusters (cCon x))
  /\ (names <> [] ->
      forall x1,
        handleRequest p env discReq x = (Continue, x1) ->
        forall env2, exists x2,
          handleRequest p env2 discReq x1 = (Continue, x2)
          /\ cSent x2 = cSent x1 /\ Clusters (cCon x2) = Clusters (cCon x1))
  /\ (names <> [] ->
      length names <> length (Clusters (cCon x)) ->
      pushSucceeds env EndpointType ->
      exists x',
        handleRequest p env discReq x = (Continue, x')
        /\ cSent x' = cSent x ++ [mkDiscoveryResponse EndpointType names]
        /\ Clusters (cCon x') = names).
Proof.
  intros Ht Hid Hparse names.
  assert (Hack : forall env x,
    Clusters (cCon x) <> [] ->
    length names = length (Clusters (cCon x)) \/ names = [] ->
    exists x',
      handleRequest p env discReq x = (Continue, x')
      /\ cSent x' = cSent x /\ Clusters (cCon x') = Clusters (cCon x)).
  { clear x env. intros env x Hne Hlen.
    rewrite (handleRequest_parsed p env discReq x nt Hid Hparse).
    rewrite dispatch_endpoint by done.
    destruct (prepared_watch discReq nt x) as ((_ & _ & _ & Hcl) & _ & Hsent & _).
    pose proof (caseEndpointType_spec p env discReq (prepared discReq nt x)) as Hcase.
    cbn zeta in Hcase. fold names in Hcase.
    rewrite bool_decide_true in Hcase by (rewrite Hcl; done).
    destruct Hcase as (x' & -> & Hcon & Hs & _).
    exists x'. split; [done|]. rewrite Hs, Hsent, Hcon, Hcl. done. }
  assert (Hwatch : forall x1,
    handleRequest p env discReq x = (Continue, x1) ->
    names <> [] ->
    Clusters (cCon x1) <> [] /\ length names = length (Clusters (cCon x1))).
  { intros x1 H1 Hne.
    rewrite (handleRequest_parsed p env discReq x nt Hid Hparse) in H1.
    rewrite dispatch_endpoint in H1 by done.
    destruct (prepared_watch discReq nt x) as ((_ & _ & _ & Hcl) & _ & Hsent & _).
    pose proof (caseEndpointType_spec p env discReq (prepared discReq nt x)) as Hcase.
    cbn zeta in Hcase. fold names in Hcase.
    case_bool_decide as Hb.
    - destruct Hcase as (x' & Hc & Hcon & _). rewrite Hc in H1.
      injection H1 as <-. rewrite Hcon. destruct Hb as [Hb1 [Hb2|Hb2]]; done.
    - destruct Hcase as (x0 & Hc & Hcon & _). rewrite Hc in H1.
      pose proof (watchClusters_spec p env names x0) as Hw.
      destruct (watchClusters p env names x0) as [[| |f] x'].
      + destruct Hw as (Hcon' & _). injection H1 as <-.
        unfold registerCon. destruct (added (cCon x')); cbn; rewrite Hcon'; cbn; done.
      + by destruct Hw as (_ & _ & _ & ?).
      + destruct Hw as (_ & _ & _ & (err & ->) & _). done. }
  split; [apply Hack|]. split.
  - intros Hne x1 H1 env2. destruct (Hwatch x1 H1 Hne) as [Hne1 Hlen1].
    apply Hack; [done|by left].
  - intros Hne Hlen Hok.
    rewrite (handleRequest_parsed p env discReq x nt Hid Hparse).
    rewrite dispatch_endpoint by done.
    destruct (prepared_watch discReq nt x) as ((_ & _ & _ & Hcl) & _ & Hsent & _).
    pose proof (caseEndpointType_spec p env discReq (prepared discReq nt x)) as Hcase.
    cbn zeta in Hcase. fold names in Hcase.
    rewrite bool_decide_false in Hcase by (rewrite Hcl; tauto).
    destruct Hcase as (x0 & -> & Hcon & Hs0 & _).
    pose proof (watchClusters_spec p env names x0) as Hw.
    destruct (watchClusters p env names x0) as [[| |f] x'].
    + destruct Hw as (Hcon' & _ & _ & _ & Hs).
      eexists. split; [reflexivity|].
      unfold registerCon. destruct (added (cCon x')); cbn;
        rewrite Hs, Hs0, Hsent, Hcon'; done.
    + by destruct Hw as (_ & _ & _ & ?).
    + destruct Hw as (_ & _ & _ & _ & Hno & _). done.
Qed.

(** Where the hypotheses of C2 hold: the stream that watches a and b gets
    the request for a and b again, and a request for c alone. *)
Lemma eds_watch_by_length_witness :
  (exists x',
     handleRequest 0 Scenario.pushEnvOk (Scenario.reqEds ["a"; "b"]) Scenario.watchingAB
     = (Continue, x')
     /\ cSent x' = cSent Scenario.watchingAB)
  /\ (exists x',
        handleRequest 0 Scenario.pushEnvOk (Scenario.reqEds ["c"]) Scenario.watchingAB
        = (Continue, x')
        /\ cSent x' = cSent Scenario.watchingAB ++ [mkDiscoveryResponse EndpointType ["c"]]
        /\ Clusters (cCon x') = ["c"]).
Proof.
  split.
  - destruct (eds_watch_by_length 0 Scenario.pushEnvOk (Scenario.reqEds ["a"; "b"])
                Scenario.watchingAB Scenario.sidecar) as (Hack & _ & _);
      [reflexivity | discriminate | vm_compute; reflexivity |].
    destruct Hack as (x' & H & Hs & _);
      [vm_compute; discriminate | left; vm_compute; reflexivity |].
    exists x'. done.
  - destruct (eds_watch_by_length 0 Scenario.pushEnvOk (Scenario.reqEds ["c"])
                Scenario.watchingAB Scenario.sidecar) as (_ & _ & Hnew);
      [reflexivity | discriminate | vm_compute; reflexivity |].
    apply Hnew; [discriminate | vm_compute; lia | split; reflexivity].
Defined.

(** C2 (the claim as stated fails): the stream watches a and b; a request
    that changes one element, for a and c, is taken for an ACK: the loop goes
    on, nothing is sent, not the one response for the new set, and the watch
    is still a and b. *)
Lemma eds_changed_element_is_ack :
  let x := Scenario.watchingAB in
  let r := handleRequest 0 Scenario.pushEnvOk (Scenario.reqEds ["a"; "c"]) x in
  Clusters (cCon x) = ["a"; "b"]
  /\ r.1 = Continue
  /\ cSent r.2 = cSent x
  /\ cSent r.2 <> cSent x ++ [mkDiscoveryResponse EndpointType ["a"; "c"]]
  /\ Clusters (cCon r.2) = ["a"; "b"].
Proof. vm_compute. repeat split; discriminate. Qed.

(** *** Registration *)

Lemma addCon_lookup (conID : string) (p : loc) (con : XdsConnection) (s : Server) :
  adsClients (addCon conID p con s) !! conID = Some p.
Proof.
  unfold addCon. cbn.
  destruct (modelNode con) as [node|]; cbn.
  - destruct (_ !! ID node); cbn; apply lookup_insert_eq.
  - apply lookup_insert_eq.
Qed.

Lemma registerCon_spec (p : loc) (x : Ctx) :
  added (cCon x) = false ->
  added (cCon (registerCon p x)) = true
  /\ adsClients (cSrv (registerCon p x)) !! ConID (cCon (registerCon p x)) = Some p
  /\ cSent (registerCon p x) = cSent x
  /\ sameWatch (cCon x) (cCon (registerCon p x)).
Proof.
  intros Ha. unfold registerCon. rewrite Ha. cbn.
  repeat split. apply addCon_lookup.
Qed.

(** The cases of the switch never touch the flag [added]. *)
Lemma caseClusterType_noWatch env discReq x :
  CDSWatch (cCon x) = false -> modelNode (cCon x) <> None ->
  match caseClusterType env discReq x with
  | (EndOfSwitch, x') => added (cCon x') = added (cCon x)
  | (ContinueLoop, _) => False
  | (Leave f, x') => f <> Continue /\ added (cCon x') = added (cCon x)
  end.
Proof.
  intros Hw Hn. unfold caseClusterType, pushCds. rewrite Hw. cbn.
  destruct (modelNode (cCon x)); [|done].
  match goal with |- context [pushOther ?t ?l ?n ?e ?y] =>
    pose proof (pushOther_spec t l n e y) as Hs;
    destruct (pushOther t l n e y) as [[|err|] x'] end; cbn in *; [| |done].
  - by destruct Hs as (_ & _ & -> & _).
  - by destruct Hs as (_ & _ & -> & _).
Qed.

Lemma caseListenerType_noWatch env discReq x :
  LDSWatch (cCon x) = false -> modelNode (cCon x) <> None ->
  match caseListenerType env discReq x with
  | (EndOfSwitch, x') => added (cCon x') = added (cCon x)
  | (ContinueLoop, _) => False
  | (Leave f, x') => f <> Continue /\ added (cCon x') = added (cCon x)
  end.
Proof.
  intros Hw Hn. unfold caseListenerType, pushLds. rewrite Hw. cbn.
  destruct (modelNode (cCon x)); [|done].
  match goal with |- context [pushOther ?t ?l ?n ?e ?y] =>
    pose proof (pushOther_spec t l n e y) as Hs;
    destruct (pushOther t l n e y) as [[|err|] x'] end; cbn in *; [| |done].
  - by destruct Hs as (_ & _ & -> & _).
  - by destruct Hs as (_ & _ & -> & _).
Qed.

Lemma watchRoutes_added env routes x :
  modelNode (cCon x) <> None ->
  match watchRoutes env routes x with
  | (EndOfSwitch, x') => added (cCon x') = added (cCon x)
  | (ContinueLoop, _) => False
  | (Leave f, x') => f <> Continue /\ added (cCon x') = added (cCon x)
  end.
Proof.
  intros Hn. unfold watchRoutes.
  match goal with |- context [pushRoute ?e ?y] =>
    pose proof (pushRoute_spec e y) as Hs;
    destruct (pushRoute e y) as [[|err|] x'] end; cbn in *.
  - destruct Hs as (_ & _ & Hc & _). by apply sameCon_fields in Hc as (_ & _ & _ & -> & _).
  - destruct Hs as (_ & _ & Hc & _). by apply sameCon_fields in Hc as (_ & _ & _ & -> & _).
  - by destruct Hs as [? _].
Qed.

Lemma caseRouteType_noWatch env discReq x :
  Routes (cCon x) = [] -> modelNode (cCon x) <> None ->
  match caseRouteType env discReq x with
  | (EndOfSwitch, x') => added (cCon x') = added (cCon x)
  | (ContinueLoop, _) => False
  | (Leave f, x') => f <> Continue /\ added (cCon x') = added (cCon x)
  end.
Proof.
  intros Hw Hn. unfold caseRouteType. rewrite Hw.
  destruct (_ || _); [destruct (ErrorDetail discReq)|]; cbn; rewrite ?Hw; cbn;
    match goal with |- context [watchRoutes ?e ?r ?y] =>
      pose proof (watchRoutes_added e r y) as Hs end;
    cbn in Hs; apply Hs; done.
Qed.

Lemma caseEndpointType_noWatch p env discReq x :
  Clusters (cCon x) = [] ->
  match caseEndpointType p env discReq x with
  | (EndOfSwitch, x') => added (cCon x') = added (cCon x)
  | (ContinueLoop, _) => False
  | (Leave f, x') => f <> Continue /\ added (cCon x') = added (cCon x)
  end.
Proof.
  intros Hw.
  pose proof (caseEndpointType_spec p env discReq x) as Hcase. cbn zeta in Hcase.
  rewrite bool_decide_false in Hcase by (rewrite Hw; tauto).
  destruct Hcase as (x0 & -> & Hcon & _).
  pose proof (watchClusters_spec p env (ResourceNames discReq) x0) as Hs.
  destruct (watchClusters _ _ _ x0) as [[| |f] x'].
  - destruct Hs as (-> & _). by rewrite Hcon.
  - by destruct Hs as (_ & _ & _ & ?).
  - destruct Hs as (-> & _ & _ & (err & ->) & _). by rewrite Hcon.
Qed.

Lemma dispatch_noWatch p env discReq x :
  noWatch (cCon x) -> modelNode (cCon x) <> None ->
  match dispatch p env discReq x with
  | (EndOfSwitch, x') => added (cCon x') = added (cCon x)
  | (ContinueLoop, _) => False
  | (Leave f, x') => f <> Continue /\ added (cCon x') = added (cCon x)
  end.
Proof.
  intros (Hc & Hl & Hr & He) Hn.
  destruct (typeUrl_cases (TypeUrl discReq)) as [H|[H|[H|[H|H]]]].
  - rewrite dispatch_cluster by done. by apply caseClusterType_noWatch.
  - rewrite dispatch_listener by done. by apply caseListenerType_noWatch.
  - rewrite dispatch_route by done. by apply caseRouteType_noWatch.
  - rewrite dispatch_endpoint by done. by apply caseEndpointType_noWatch.
  - rewrite dispatch_unrecognized by done. done.
Qed.

(** C9 (as amended): a connection that is not yet in the registry (and so,
    being one the loop has set up, has no watch yet) enters it in the round
    of the first request whose node id is not empty and whose round lets the
    loop go on, that is, whose node id parses and whose push, if it makes
    one, succeeds; it is then registered under its connection id. That
    includes a request with an unrecognized type URL: it is logged, sets no
    watch and sends nothing, and it registers the connection. *)
Theorem registration_condition (p : loc) (env : PushEnv) (discReq : DiscoveryRequest)
    (x : Ctx) :
  Registered (cCon x) ->
  added (cCon x) = false ->
  forall flow x',
    handleRequest p env discReq x = (flow, x') ->
    (added (cCon x') = true <-> flow = Continue /\ NodeId discReq <> "")
    /\ (added (cCon x') = true ->
        adsClients (cSrv x') !! ConID (cCon x') = Some p)
    /\ (unrecognized (TypeUrl discReq) ->
        NodeId discReq <> "" ->
        (exists nt, ParseServiceNode (NodeId discReq) = inl nt) ->
        flow = Continue /\ added (cCon x') = true
        /\ cSent x' = cSent x /\ sameWatch (cCon x) (cCon x')).
Proof.
  intros [Hnw _] Ha flow x' H. specialize (Hnw Ha).
  destruct (handleRequest_cases p env discReq x)
    as [[Hn He]|[[Hid He]|[(err & Hid & Hparse & He)|(nt & Hid & Hparse & He)]]];
    rewrite He in H; clear He.
  { injection H as <- <-. rewrite Ha.
    split; [split; [done|intros [? _]; done]|].
    split; [done|]. intros _ Hid. unfold NodeId in Hid. by rewrite Hn in Hid. }
  { injection H as <- <-. cbn. rewrite Ha.
    split; [split; [done|intros [_ ?]; done]|].
    split; [done|]. intros _ ?. done. }
  { injection H as <- <-. rewrite Ha.
    split; [split; [done|intros [? _]; done]|].
    split; [done|]. intros _ _ [nt Hnt]. congruence. }
  destruct (prepared_watch discReq nt x) as (Hsw & Hadd & Hsent & Hnode).
  assert (Hnw' : noWatch (cCon (prepared discReq nt x))).
  { unfold noWatch, sameWatch in *. destruct Hsw as (-> & -> & -> & ->). done. }
  pose proof (dispatch_noWatch p env discReq _ Hnw' Hnode) as Hd.
  destruct (dispatch p env discReq (prepared discReq nt x)) as [[| |f] y] eqn:Hdisp.
  - injection H as <- <-.
    destruct (registerCon_spec p y) as (Hr1 & Hr2 & Hr3 & Hr4); [congruence|].
    split; [split; done|]. split; [done|].
    intros Hun _ _. rewrite dispatch_unrecognized in Hdisp by done.
    injection Hdisp as <-. cbn in *. unfold sameWatch in *. cbn in *.
    split; [done|]. split; [done|]. split; [by rewrite Hr3|].
    destruct Hr4 as (-> & -> & -> & ->). exact Hsw.
  - done.
  - injection H as <- <-. destruct Hd as [Hf Hd]. rewrite Hd, Hadd, Ha.
    split; [split; [done|intros [? _]; done]|].
    split; [done|].
    intros Hun _ _. rewrite dispatch_unrecognized in Hdisp by done. done.
Qed.

(** Where the hypotheses of C9 hold: a stream that has just been accepted
    gets a request with an unrecognized type URL. *)
Lemma registration_condition_witness :
  let r := handleRequest 0 Scenario.pushEnvOk Scenario.reqUnknownType Scenario.freshCtx in
  r.1 = Continue /\ added (cCon r.2) = true
  /\ adsClients (cSrv r.2) !! ConID (cCon r.2) = Some 0%nat
  /\ cSent r.2 = [].
Proof.
  cbn zeta.
  assert (Hfresh : Registered (cCon Scenario.freshCtx)).
  { split; [intros _; repeat split|discriminate]. }
  destruct (registration_condition 0 Scenario.pushEnvOk Scenario.reqUnknownType
              Scenario.freshCtx Hfresh eq_refl
              (handleRequest 0 Scenario.pushEnvOk Scenario.reqUnknownType Scenario.freshCtx).1
              (handleRequest 0 Scenario.pushEnvOk Scenario.reqUnknownType Scenario.freshCtx).2)
    as (_ & Hreg & Hun).
  { by destruct (handleRequest _ _ _ _). }
  destruct Hun as (Hflow & Hadd & Hsent & _).
  { vm_compute. repeat split; discriminate. }
  { discriminate. }
  { eexists. vm_compute. reflexivity. }
  split; [exact Hflow|]. split; [exact Hadd|].
  split; [exact (Hreg Hadd)|exact Hsent].
Defined.

(** C9 (the claim as stated fails): a request with an unrecognized type URL
    does register the connection: the stream that has just been accepted is
    not in the registry, and after the request it is. *)
Lemma unrecognized_type_url_registers :
  ~ (forall (p : loc) (env : PushEnv) (discReq : DiscoveryRequest) (x : Ctx),
       unrecognized (TypeUrl discReq) ->
       added (cCon x) = false ->
       added (cCon (handleRequest p env discReq x).2) = false).
Proof.
  intros H.
  specialize (H 0%nat Scenario.pushEnvOk Scenario.reqUnknownType Scenario.freshCtx).
  assert (Hun : unrecognized (TypeUrl Scenario.reqUnknownType))
    by (vm_compute; repeat split; discriminate).
  specialize (H Hun eq_refl). vm_compute in H. discriminate.
Qed.

(** *** The push-channel case *)

Lemma pushesEnd_nil env sent0 r :
  r.1 = Continue -> cSent r.2 = sent0 -> pushesEnd env [] sent0 r.
Proof.
  intros Hf Hs. exists []. rewrite app_nil_r. split; [done|]. left. done.
Qed.

Lemma pushesEnd_ok env res asked sent0 r :
  pushSucceeds env (RespTypeUrl res) ->
  pushesEnd env asked (sent0 ++ [res]) r ->
  pushesEnd env (res :: asked) sent0 r.
Proof.
  intros Hok (sentNow & Hs & H). exists (res :: sentNow).
  split; [by rewrite Hs, <- app_assoc|].
  destruct H as [(Hall & Hf & ->)|(before & failed & after & err & -> & Hb & Hn & -> & Hf)].
  - left. repeat split; [by constructor|done].
  - right. exists (res :: before), failed, after, err.
    repeat split; [by constructor|done..].
Qed.

Lemma pushesEnd_failed env res asked sent0 r err :
  pushError env (RespTypeUrl res) = Some err ->
  cSent r.2 = sent0 -> r.1 = Return (Some err) ->
  pushesEnd env (res :: asked) sent0 r.
Proof.
  intros Hn Hs Hf. exists []. rewrite app_nil_r. split; [done|].
  right. exists [], res, asked, err. repeat split; done.
Qed.

(** A push succeeds when it meets no error. *)
Lemma pushError_None (env : PushEnv) (typeUrl : string) :
  pushError env typeUrl = None <-> pushSucceeds env typeUrl.
Proof.
  unfold pushError, pushSucceeds.
  destruct (generate env typeUrl); [split; [done|by intros [? _]]|].
  destruct (transport env typeUrl) as [[err|]|]; split; try done; by intros [_ ?].
Qed.

(** The error a push returns is the error it has met. *)
Lemma pushOther_error typeUrl label names env x err x' :
  pushOther typeUrl label names env x = (PushErr err, x') ->
  pushError env typeUrl = Some err.
Proof.
  unfold pushOther, pushError, send.
  destruct (generate env typeUrl); [by intros [= <- _]|].
  destruct (transport env typeUrl) as [[e|]|]; cbn; intros [= ]; by subst.
Qed.

Lemma pushRoute_error env x err x' :
  pushRoute env x = (PushErr err, x') -> pushError env RouteType = Some err.
Proof.
  unfold pushRoute, pushError, send.
  destruct (generate env RouteType); [by intros [= <- _]|].
  destruct (modelNode (cCon x)); [|done].
  destruct (transport env RouteType) as [[e|]|]; cbn; intros [= ]; by subst.
Qed.

Lemma nonempty_length (l : list string) :
  bool_decide (0 < length l)%nat = bool_decide (l <> []).
Proof. destruct l; apply bool_decide_ext; cbn; split; (done || lia). Qed.

(** The pushes of one signal, for a connection whose node is stored. *)
Lemma handlePush_pushes (env : PushEnv) (x : Ctx) :
  modelNode (cCon x) <> None ->
  pushesEnd env (watchedResponses (cCon x)) (cSent x) (handlePush env x).
Proof.
  intros Hnode.
  unfold handlePush, watchedResponses.
  (* listeners *)
  assert (Hlds : forall y sent0,
    modelNode (cCon y) <> None -> cSent y = sent0 ->
    pushesEnd env (if LDSWatch (cCon y) then [mkDiscoveryResponse ListenerType []] else [])
      sent0
      (pushIf (LDSWatch (cCon y)) (pushLds env) (fun x => (Continue, x)) y)).
  { intros y sent0 Hn Hs. unfold pushIf, pushLds.
    destruct (LDSWatch (cCon y)); [|by apply pushesEnd_nil].
    destruct (modelNode (cCon y)); [|done].
    pose proof (pushOther_spec ListenerType "lds" [] env y) as Hp.
    destruct (pushOther ListenerType "lds" [] env y) as [[|err|] y'] eqn:Hpush; [| |done].
    - destruct Hp as (Hok & Hsent & _). apply pushesEnd_ok; [done|].
      apply pushesEnd_nil; [done|]. by rewrite <- Hs.
    - destruct Hp as (Hno & Hsent & _). apply pushOther_error in Hpush.
      apply (pushesEnd_failed _ _ _ _ _ err); [done| |done]. cbn. congruence. }
  (* endpoints, then listeners *)
  assert (Heds : forall y sent0,
    modelNode (cCon y) <> None -> cSent y = sent0 ->
    pushesEnd env
      ((if bool_decide (Clusters (cCon y) <> [])
        then [mkDiscoveryResponse EndpointType (Clusters (cCon y))] else [])
       ++ (if LDSWatch (cCon y) then [mkDiscoveryResponse ListenerType []] else []))
      sent0
      (pushIf (bool_decide (0 < length (Clusters (cCon y)))%nat) (pushEds env)
         (fun x => pushIf (LDSWatch (cCon x)) (pushLds env) (fun x => (Continue, x)) x) y)).
  { intros y sent0 Hn Hs. rewrite nonempty_length. unfold pushIf at 1, pushEds.
    destruct (bool_decide (Clusters (cCon y) <> [])); [|by apply Hlds].
    pose proof (pushOther_spec EndpointType "eds" (Clusters (cCon y)) env y) as Hp.
    destruct (pushOther EndpointType "eds" _ env y) as [[|err|] y'] eqn:Hpush; [| |done].
    - destruct Hp as (Hok & Hsent & Hcon & _). cbn [app].
      apply pushesEnd_ok; [done|]. rewrite <- Hcon.
      apply Hlds; [by rewrite Hcon|rewrite Hsent, Hs; by rewrite ?Hcon].
    - destruct Hp as (Hno & Hsent & _). apply pushOther_error in Hpush.
      apply (pushesEnd_failed _ _ _ _ _ err); [done| |done]. cbn. congruence. }
  (* routes, then the rest *)
  assert (Hrds : forall y sent0,
    modelNode (cCon y) <> None -> cSent y = sent0 ->
    pushesEnd env
      ((if bool_decide (Routes (cCon y) <> [])
        then [mkDiscoveryResponse RouteType (Routes (cCon y))] else [])
       ++ (if bool_decide (Clusters (cCon y) <> [])
           then [mkDiscoveryResponse EndpointType (Clusters (cCon y))] else [])
       ++ (if LDSWatch (cCon y) then [mkDiscoveryResponse ListenerType []] else []))
      sent0
      (pushIf (bool_decide (0 < length (Routes (cCon y)))%nat) (pushRoute env)
         (fun x =>
            pushIf (bool_decide (0 < length (Clusters (cCon x)))%nat) (pushEds env)
              (fun x => pushIf (LDSWatch (cCon x)) (pushLds env)
                          (fun x => (Continue, x)) x) x) y)).
  { intros y sent0 Hn Hs. rewrite nonempty_length. unfold pushIf at 1.
    destruct (bool_decide (Routes (cCon y) <> [])); [|by apply Heds].
    pose proof (pushRoute_spec env y) as Hp.
    destruct (pushRoute env y) as [[|err|] y'] eqn:Hpush.
    - destruct Hp as (Hok & Hsent & Hcon & _). cbn [app].
      apply pushesEnd_ok; [done|].
      apply sameCon_fields in Hcon as (_ & Hmn & _ & _ & (_ & Hl & _ & Hc) & _).
      rewrite <- Hl, <- Hc.
      apply Heds; [by rewrite Hmn|by rewrite Hsent, Hs].
    - destruct Hp as (Hno & Hsent & _). apply pushRoute_error in Hpush.
      apply (pushesEnd_failed _ _ _ _ _ err); [done| |done]. cbn. congruence.
    - by destruct Hp as [? _]. }
  (* clusters, then the rest *)
  unfold pushIf at 1, pushCds.
  destruct (CDSWatch (cCon x)); [|by apply Hrds].
  destruct (modelNode (cCon x)) eqn:Hmn; [|done].
  pose proof (pushOther_spec ClusterType "cds" [] env x) as Hp.
  destruct (pushOther ClusterType "cds" [] env x) as [[|err|] y'] eqn:Hpush; [| |done].
  - destruct Hp as (Hok & Hsent & Hcon & _). cbn [app].
    apply pushesEnd_ok; [done|]. rewrite <- Hcon.
    apply Hrds; [by rewrite Hcon, Hmn|done].
  - destruct Hp as (Hno & Hsent & _). apply pushOther_error in Hpush.
    apply (pushesEnd_failed _ _ _ _ _ err); [done| |done]. cbn. congruence.
Qed.

(** A connection with no watch gets no push. *)
Lemma handlePush_noWatch (env : PushEnv) (x : Ctx) :
  noWatch (cCon x) -> handlePush env x = (Continue, x).
Proof.
  intros (Hc & Hl & Hr & He). unfold handlePush, pushIf.
  by rewrite Hc, Hl, Hr, He.
Qed.




(** *** adsPushAll *)

Lemma count_nil {A} (f : A -> bool) : count f [] = 0.
Proof. done. Qed.

Lemma count_cons {A} (f : A -> bool) a l :
  count f (a :: l) = (if f a then 1 else 0) + count f l.
Proof.
  unfold count. rewrite filter_cons. destruct (f a); cbn.
  - rewrite decide_True by done. cbn. lia.
  - rewrite decide_False by done. lia.
Qed.

Lemma count_ext {A} (f g : A -> bool) l :
  (forall a, a ∈ l -> f a = g a) -> count f l = count g l.
Proof.
  induction l as [|a l IH]; intros H; [done|].
  rewrite !count_cons, H by (by left). f_equal. apply IH. intros b Hb. apply H. by right.
Qed.

Lemma vecGet_vecAdd_eq label d v : vecGet label (vecAdd label d v) = vecGet label v + d.
Proof. unfold vecGet, vecAdd. by rewrite lookup_insert_eq. Qed.

Lemma vecGet_vecAdd_ne label label' d v :
  label <> label' -> vecGet label' (vecAdd label d v) = vecGet label' v.
Proof. intros H. unfold vecGet, vecAdd. by rewrite lookup_insert_ne. Qed.

(** The body of the loop, for one client: what it writes to the client and
    what it counts. *)
Lemma pushClient_spec (o : SelectOutcome) (client : XdsConnection) (s : Server) :
  match pushClient o client s with
  | (client', s') =>
      client' = match o with
                | Signalled now => setLastPushFailure timeZero (setLastPush now client)
                | DoneFired => client
                | Deadline now =>
                    if IsZero (LastPushFailure client)
                    then setLastPushFailure now client else client
                end
      /\ sameTables s s'
      /\ pushTimeouts (metrics s')
         = pushTimeouts (metrics s) + match o with Deadline _ => 1 | _ => 0 end
      /\ vecGet "short" (pushErrors (metrics s'))
         = vecGet "short" (pushErrors (metrics s))
           + match o with
             | Deadline _ => if IsZero (LastPushFailure client) then 1 else 0
             | _ => 0
             end
      /\ vecGet "long" (pushErrors (metrics s'))
         = vecGet "long" (pushErrors (metrics s))
           + match o with
             | Deadline now =>
                 if negb (IsZero (LastPushFailure client))
                    && (10 * Second <? now - LastPushFailure client)
                 then 1 else 0
             | _ => 0
             end
  end.
Proof.
  destruct o as [now| |now]; cbn -[vecGet vecAdd Z.mul Z.sub].
  - repeat split; lia.
  - repeat split; lia.
  - destruct (IsZero (LastPushFailure client)); cbn -[vecGet vecAdd Z.mul Z.sub].
    + rewrite vecGet_vecAdd_eq, vecGet_vecAdd_ne by done. repeat split; lia.
    + destruct (10 * Second <? now - LastPushFailure client);
        cbn -[vecGet vecAdd Z.mul Z.sub].
      * rewrite vecGet_vecAdd_eq, vecGet_vecAdd_ne by done. repeat split; lia.
      * repeat split; lia.
Qed.

(** The loop over the clients, when no client is listed twice. *)
Lemma pushLoop_spec (benv : BroadcastEnv) (clients : list (string * loc)) :
  NoDup clients.*2 ->
  forall heap0 s0 heap1 s1,
    pushLoop benv clients (heap0, s0) = (heap1, s1) ->
    (forall q, q ∉ clients.*2 -> heap1 !! q = heap0 !! q)
    /\ (forall k p client,
          (k, p) ∈ clients -> heap0 !! p = Some client ->
          heap1 !! p
          = Some match selectOutcome benv k with
                 | Signalled now => setLastPushFailure timeZero (setLastPush now client)
                 | DoneFired => client
                 | Deadline now =>
                     if IsZero (LastPushFailure client)
                     then setLastPushFailure now client else client
                 end)
    /\ sameTables s0 s1
    /\ pushTimeouts (metrics s1)
       = pushTimeouts (metrics s0) + count (timedOut benv heap0) clients
    /\ vecGet "short" (pushErrors (metrics s1))
       = vecGet "short" (pushErrors (metrics s0)) + count (firstFailure benv heap0) clients
    /\ vecGet "long" (pushErrors (metrics s1))
       = vecGet "long" (pushErrors (metrics s0))
         + count (repeatedFailure benv heap0) clients.
Proof.
  induction clients as [|[k p] clients IH]; intros Hnd heap0 s0 heap1 s1 H.
  { cbn in H. injection H as <- <-. rewrite !count_nil.
    repeat split; try done; try lia. intros k p client Hin. by apply elem_of_nil in Hin. }
  cbn in Hnd. apply NoDup_cons in Hnd as [Hp Hnd].
  unfold pushLoop in H. cbn [foldl] in H. fold (pushLoop benv clients) in H.
  rewrite !count_cons. unfold timedOut at 1, firstFailure at 1, repeatedFailure at 1. cbn [fst snd].
  destruct (heap0 !! p) as [c|] eqn:Hc.
  - pose proof (pushClient_spec (selectOutcome benv k) c s0) as Hs.
    destruct (pushClient (selectOutcome benv k) c s0) as [c' s'].
    destruct Hs as (Hc' & Ht & Hpt & Hsh & Hlo).
    destruct (IH Hnd _ _ _ _ H) as (Hframe & Hcl & Ht' & Hpt' & Hsh' & Hlo').
    assert (Hne : forall k' q, (k', q) ∈ clients -> <[p:=c']> heap0 !! q = heap0 !! q).
    { intros k' q Hin. rewrite lookup_insert_ne; [done|]. intros ->. apply Hp.
      apply list_elem_of_fmap. by exists (k', q). }
    rewrite (count_ext (timedOut benv (<[p:=c']> heap0)) (timedOut benv heap0)) in Hpt'
      by (intros [k' q] Hin; unfold timedOut; cbn; by rewrite (Hne k')).
    rewrite (count_ext (firstFailure benv (<[p:=c']> heap0)) (firstFailure benv heap0))
      in Hsh' by (intros [k' q] Hin; unfold firstFailure; cbn; by rewrite (Hne k')).
    rewrite (count_ext (repeatedFailure benv (<[p:=c']> heap0))
               (repeatedFailure benv heap0))
      in Hlo' by (intros [k' q] Hin; unfold repeatedFailure; cbn; by rewrite (Hne k')).
    split; [|split; [|split; [|split; [|split]]]].
    + intros q Hq. cbn in Hq. apply not_elem_of_cons in Hq as [Hqp Hq].
      rewrite Hframe by done. by rewrite lookup_insert_ne.
    + intros k' q client Hin Hq. apply elem_of_cons in Hin as [[= -> ->]|Hin].
      * rewrite Hframe by done. rewrite lookup_insert_eq. rewrite Hc in Hq.
        injection Hq as <-. by rewrite Hc'.
      * apply (Hcl k' q client Hin). rewrite lookup_insert_ne; [done|].
        intros ->. apply Hp. apply list_elem_of_fmap. by exists (k', q).
    + by eapply sameTables_trans.
    + rewrite Hpt', Hpt. destruct (selectOutcome benv k); lia.
    + rewrite Hsh', Hsh. destruct (selectOutcome benv k); lia.
    + rewrite Hlo', Hlo. destruct (selectOutcome benv k); lia.
  - destruct (IH Hnd _ _ _ _ H) as (Hframe & Hcl & Ht' & Hpt' & Hsh' & Hlo').
    split; [|split; [|split; [|split; [|split]]]].
    + intros q Hq. cbn in Hq. apply not_elem_of_cons in Hq as [Hqp Hq]. by apply Hframe.
    + intros k' q client Hin Hq. apply elem_of_cons in Hin as [[= -> ->]|Hin].
      * congruence.
      * by apply (Hcl k' q client Hin).
    + done.
    + rewrite Hpt'. destruct (selectOutcome benv k); lia.
    + rewrite Hsh'. destruct (selectOutcome benv k); lia.
    + rewrite Hlo'. destruct (selectOutcome benv k); lia.
Qed.

(** The first loop of adsPushAll changes the index entries and the log. *)
Lemma updateClusters_spec (benv : BroadcastEnv) (s : Server) :
  adsClients (updateClusters benv s) = adsClients s
  /\ adsSidecarIDConnectionsMap (updateClusters benv s) = adsSidecarIDConnectionsMap s
  /\ connectionNumber (updateClusters benv s) = connectionNumber s
  /\ metrics (updateClusters benv s) = metrics s.
Proof.
  set (view := fun s : Server =>
                 (adsClients s, adsSidecarIDConnectionsMap s, connectionNumber s, metrics s)).
  assert (H : view (updateClusters benv s) = view s).
  { unfold updateClusters. generalize (map_to_list (edsClusters s)). intros l.
    revert s. induction l as [|[n c] l IH]; intros s; [done|].
    cbn [foldl]. rewrite IH.
    destruct (updateCluster benv n c) as [c' [err|]]; done. }
  unfold view in H. by injection H as -> -> -> ->.
Qed.

(** adsPushAll from a state in which no connection is in the registry
    twice: what it leaves of every client, and what it counts. *)
Lemma adsPushAll_clients (benv : BroadcastEnv) (heap0 heap1 : gmap loc XdsConnection)
    (s0 s1 : Server) :
  NoDup (map_to_list (adsClients s0)).*2 ->
  adsPushAll benv (heap0, s0) = (heap1, s1) ->
  (forall k p client,
     adsClients s0 !! k = Some p -> heap0 !! p = Some client ->
     heap1 !! p
     = Some match selectOutcome benv k with
            | Signalled now => setLastPushFailure timeZero (setLastPush now client)
            | DoneFired => client
            | Deadline now =>
                if IsZero (LastPushFailure client)
                then setLastPushFailure now client else client
            end)
  /\ pushTimeouts (metrics s1)
     = pushTimeouts (metrics s0)
       + count (timedOut benv heap0) (map_to_list (adsClients s0))
  /\ vecGet "short" (pushErrors (metrics s1))
     = vecGet "short" (pushErrors (metrics s0))
       + count (firstFailure benv heap0) (map_to_list (adsClients s0))
  /\ vecGet "long" (pushErrors (metrics s1))
     = vecGet "long" (pushErrors (metrics s0))
       + count (repeatedFailure benv heap0) (map_to_list (adsClients s0)).
Proof.
  intros Hnd H. unfold adsPushAll in H.
  destruct (updateClusters_spec benv s0) as (Hc & _ & _ & Hm).
  rewrite Hc in H.
  destruct (pushLoop_spec benv _ Hnd _ _ _ _ H) as (_ & Hcl & _ & Hpt & Hsh & Hlo).
  rewrite Hm in Hpt, Hsh, Hlo.
  split; [|done].
  intros k p client Hk Hp. apply Hcl; [|done]. by apply elem_of_map_to_list.
Qed.

(** *** Connection ids are unique *)

Lemma list_of_append (s t : string) :
  String.list_ascii_of_string (s +:+ t)
  = String.list_ascii_of_string s ++ String.list_ascii_of_string t.
Proof.
  induction s as [|a s IH]; [done|].
  change (String a s +:+ t) with (String a (s +:+ t)). cbn. by rewrite IH.
Qed.

(** Two lists that end in a separator and a part free of it have the same
    last part. *)
Lemma last_field_inj {A} (d : A) (l1 l2 k1 k2 : list A) :
  d ∉ k1 -> d ∉ k2 -> l1 ++ d :: k1 = l2 ++ d :: k2 -> k1 = k2.
Proof.
  revert l2. induction l1 as [|a l1 IH]; intros [|b l2] H1 H2 H; cbn in H.
  - by injection H.
  - injection H as <- ->. exfalso. apply H1. apply elem_of_app. right. by left.
  - injection H as -> <-. exfalso. apply H2. apply elem_of_app. right. by left.
  - injection H as _ H. by apply (IH l2).
Qed.

Lemma pretty_N_char_no_dash (x : N) : pretty_N_char x <> "-"%char.
Proof. unfold pretty_N_char. by repeat case_match. Qed.

Lemma pretty_N_go_no_dash (x : N) (s : string) :
  "-"%char ∉ String.list_ascii_of_string s ->
  "-"%char ∉ String.list_ascii_of_string (pretty_N_go x s).
Proof.
  revert s. induction (N.lt_wf_0 x) as [x _ IH]; intros s Hs.
  assert (x = 0 \/ 0 < x)%N as [->|Hx] by lia.
  - by rewrite pretty_N_go_0.
  - rewrite pretty_N_go_step by done. apply IH.
    + by apply N.div_lt.
    + cbn. apply not_elem_of_cons. split; [|done].
      intros Heq. by apply (pretty_N_char_no_dash (x `mod` 10)%N).
Qed.

Lemma pretty_nat_no_dash (n : nat) :
  "-"%char ∉ String.list_ascii_of_string (pretty n).
Proof.
  unfold pretty, pretty_nat, pretty, pretty_N.
  case_decide.
  - cbn. apply not_elem_of_cons. split; [done|]. apply not_elem_of_nil.
  - apply pretty_N_go_no_dash. cbn. apply not_elem_of_nil.
Qed.

(** The counter of a connection id can be read off it. *)
Lemma connectionID_inj (node1 node2 : string) (j1 j2 : nat) :
  connectionID node1 j1 = connectionID node2 j2 -> j1 = j2.
Proof.
  unfold connectionID. intros H.
  apply (f_equal String.list_ascii_of_string) in H.
  rewrite !list_of_append in H. cbn in H.
  apply last_field_inj in H; [|apply pretty_nat_no_dash..].
  apply (inj pretty).
  rewrite <- (String.string_of_list_ascii_of_string (pretty j1)),
          <- (String.string_of_list_ascii_of_string (pretty j2)).
  by rewrite H.
Qed.

Lemma connectionID_nonempty (node : string) (j : nat) : connectionID node j <> "".
Proof.
  unfold connectionID. intros H.
  apply (f_equal String.list_ascii_of_string) in H.
  rewrite !list_of_append in H. cbn in H.
  by destruct (String.list_ascii_of_string node).
Qed.

(** *** The endpoint index *)

Lemma indexOf_ext (s s' : Server) n k :
  edsClusters s' = edsClusters s -> indexOf s' n k = indexOf s n k.
Proof. unfold indexOf. by intros ->. Qed.

Lemma indexOf_addEdsCon c i p s n k :
  indexOf (addEdsCon c i p s) n k
  = if decide (n = c /\ k = i) then Some p else indexOf s n k.
Proof.
  unfold indexOf, addEdsCon. cbn.
  destruct (decide (n = c)) as [->|Hn].
  - rewrite lookup_insert_eq. cbn.
    destruct (decide (k = i)) as [->|Hk].
    + rewrite lookup_insert_eq. by rewrite decide_True.
    + rewrite lookup_insert_ne by done. rewrite decide_False by tauto.
      by destruct (edsClusters s !! c).
  - rewrite lookup_insert_ne by done. by rewrite decide_False by tauto.
Qed.

Lemma indexOf_removeEdsCon c i p s n k :
  indexOf (removeEdsCon c i p s) n k
  = if decide (n = c /\ k = i) then None else indexOf s n k.
Proof.
  unfold indexOf, removeEdsCon.
  destruct (edsClusters s !! c) as [e|] eqn:He; cbn.
  - destruct (decide (n = c)) as [->|Hn].
    + rewrite lookup_insert_eq, He. cbn.
      destruct (decide (k = i)) as [->|Hk].
      * rewrite lookup_delete_eq. by rewrite decide_True.
      * rewrite lookup_delete_ne by done. by rewrite decide_False by tauto.
    + rewrite lookup_insert_ne by done. by rewrite decide_False by tauto.
  - case_decide as H; [|done]. destruct H as [-> ->]. by rewrite He.
Qed.

Lemma indexOf_addEdsCons cs i p s n k :
  indexOf (addEdsCons cs i p s) n k
  = if decide (n ∈ cs /\ k = i) then Some p else indexOf s n k.
Proof.
  unfold addEdsCons. revert s. induction cs as [|c cs IH]; intros s.
  - cbn. rewrite decide_False; [done|]. intros [H _]. by apply elem_of_nil in H.
  - cbn [foldl]. rewrite IH, indexOf_addEdsCon.
    destruct (decide (n ∈ cs /\ k = i)) as [[Hin ->]|Hn1].
    + rewrite decide_True; [done|]. split; [by right|done].
    + destruct (decide (n = c /\ k = i)) as [[-> ->]|Hn2].
      * rewrite decide_True; [done|]. split; [by left|done].
      * rewrite decide_False; [done|]. intros [Hin ->].
        apply elem_of_cons in Hin as [->|Hin]; tauto.
Qed.

Lemma indexOf_removeEdsCons cs i p s n k :
  indexOf (removeEdsCons cs i p s) n k
  = if decide (n ∈ cs /\ k = i) then None else indexOf s n k.
Proof.
  unfold removeEdsCons. revert s. induction cs as [|c cs IH]; intros s.
  - cbn. rewrite decide_False; [done|]. intros [H _]. by apply elem_of_nil in H.
  - cbn [foldl]. rewrite IH, indexOf_removeEdsCon.
    destruct (decide (n ∈ cs /\ k = i)) as [[Hin ->]|Hn1].
    + rewrite decide_True; [done|]. split; [by right|done].
    + destruct (decide (n = c /\ k = i)) as [[-> ->]|Hn2].
      * rewrite decide_True; [done|]. split; [by left|done].
      * rewrite decide_False; [done|]. intros [Hin ->].
        apply elem_of_cons in Hin as [->|Hin]; tauto.
Qed.

Lemma removeCon_index (conID : string) (p : loc) (con : XdsConnection) (s : Server) :
  edsClusters (removeCon conID p con s)
  = edsClusters (removeEdsCons (Clusters con) conID p s)
  /\ connectionNumber (removeCon conID p con s) = connectionNumber s.
Proof.
  unfold removeCon. fold (removeEdsCons (Clusters con) conID p s).
  assert (connectionNumber (removeEdsCons (Clusters con) conID p s) = connectionNumber s)
    as Hcn.
  { unfold removeEdsCons. generalize (Clusters con). intros l. revert s.
    induction l as [|c l IH]; intros s; [done|]. cbn [foldl]. rewrite IH.
    unfold removeEdsCon. by destruct (edsClusters s !! c). }
  destruct (adsClients _ !! conID); destruct (modelNode con) as [node|]; cbn;
    try destruct (_ !! ID node); cbn; done.
Qed.

(** The first loop of adsPushAll keeps the connections of the index. *)
Lemma updateClusters_fold_index (benv : BroadcastEnv) (l : list (string * EdsCluster))
    (s0 : Server) :
  (forall n' e, (n', e) ∈ l -> forall k', indexOf s0 n' k' = EdsClients e !! k') ->
  forall n k,
    indexOf
      (foldl (fun s '(clusterName, edsCluster) =>
                match updateCluster benv clusterName edsCluster with
                | (c, Some _) =>
                    logAds (LogError ("updateCluster failed with clusterName "
                                      +:+ clusterName))
                      (setEdsClusters (<[clusterName := c]> (edsClusters s)) s)
                | (c, None) => setEdsClusters (<[clusterName := c]> (edsClusters s)) s
                end) s0 l) n k
    = indexOf s0 n k.
Proof.
  revert s0. induction l as [|[n' e] l IH]; intros s0 Hsnap n k; [done|].
  cbn [foldl].
  assert (Hstep : forall n1 k1,
    indexOf (match updateCluster benv n' e with
             | (c, Some _) =>
                 logAds (LogError ("updateCluster failed with clusterName " +:+ n'))
                   (setEdsClusters (<[n' := c]> (edsClusters s0)) s0)
             | (c, None) => setEdsClusters (<[n' := c]> (edsClusters s0)) s0
             end) n1 k1 = indexOf s0 n1 k1).
  { intros n1 k1.
    assert (forall c, EdsClients c = EdsClients e ->
              indexOf (setEdsClusters (<[n':=c]> (edsClusters s0)) s0) n1 k1
              = indexOf s0 n1 k1) as Hset.
    { intros c Hc. unfold indexOf at 1. cbn.
      destruct (decide (n1 = n')) as [->|Hne].
      - rewrite lookup_insert_eq. cbn. rewrite Hc.
        symmetry. apply Hsnap. by left.
      - rewrite lookup_insert_ne by done. done. }
    unfold updateCluster. destruct (computeAssignment benv n'); cbn.
    - by apply Hset.
    - rewrite <- (Hset e eq_refl). by apply indexOf_ext. }
  rewrite IH; [apply Hstep|].
  intros n1 e1 Hin k1. rewrite Hstep. apply Hsnap. by right.
Qed.

Lemma updateClusters_index (benv : BroadcastEnv) (s : Server) n k :
  indexOf (updateClusters benv s) n k = indexOf s n k.
Proof.
  unfold updateClusters. apply updateClusters_fold_index.
  intros n' e Hin k'. apply elem_of_map_to_list in Hin. unfold indexOf. by rewrite Hin.
Qed.

(** *** What a round of the loop does to the identity of its connection, to
        its watch list and to the index *)

Lemma addEdsCons_ext cs i p s s' :
  edsClusters s' = edsClusters s ->
  edsClusters (addEdsCons cs i p s') = edsClusters (addEdsCons cs i p s).
Proof.
  unfold addEdsCons. revert s s'. induction cs as [|c cs IH]; intros s s' H; [done|].
  cbn [foldl]. apply IH. unfold addEdsCon. cbn. by rewrite H.
Qed.

Lemma caseClusterType_effect p env discReq x :
  match caseClusterType env discReq x with
  | (d, x') =>
      sameIdentity (cCon x) (cCon x')
      /\ connectionNumber (cSrv x') = connectionNumber (cSrv x)
      /\ clustersEffect p (ResourceNames discReq) (ConID (cCon x)) x x'
  end.
Proof.
  unfold caseClusterType, clustersEffect, pushCds.
  destruct (CDSWatch (cCon x)).
  { destruct (ErrorDetail discReq); cbn; repeat split; tauto. }
  cbn. destruct (modelNode (cCon x)); [|cbn; repeat split; tauto].
  match goal with |- context [pushOther ?t ?l ?n ?e ?y] =>
    pose proof (pushOther_spec t l n e y) as Hs;
    destruct (pushOther t l n e y) as [[|err|] x'] end; cbn in *; [| |done];
    destruct Hs as (_ & _ & -> & (_ & _ & -> & ->)); cbn; repeat split; tauto.
Qed.

Lemma caseListenerType_effect p env discReq x :
  match caseListenerType env discReq x with
  | (d, x') =>
      sameIdentity (cCon x) (cCon x')
      /\ connectionNumber (cSrv x') = connectionNumber (cSrv x)
      /\ clustersEffect p (ResourceNames discReq) (ConID (cCon x)) x x'
  end.
Proof.
  unfold caseListenerType, clustersEffect, pushLds.
  destruct (LDSWatch (cCon x)).
  { destruct (ErrorDetail discReq); cbn; repeat split; tauto. }
  cbn. destruct (modelNode (cCon x)); [|cbn; repeat split; tauto].
  match goal with |- context [pushOther ?t ?l ?n ?e ?y] =>
    pose proof (pushOther_spec t l n e y) as Hs;
    destruct (pushOther t l n e y) as [[|err|] x'] end; cbn in *; [| |done];
    destruct Hs as (_ & _ & -> & (_ & _ & -> & ->)); cbn; repeat split; tauto.
Qed.

Lemma watchRoutes_effect p env names routes x :
  match watchRoutes env routes x with
  | (d, x') =>
      sameIdentity (cCon x) (cCon x')
      /\ connectionNumber (cSrv x') = connectionNumber (cSrv x)
      /\ clustersEffect p names (ConID (cCon x)) x x'
  end.
Proof.
  unfold watchRoutes, clustersEffect.
  match goal with |- context [pushRoute ?e ?y] =>
    pose proof (pushRoute_spec e y) as Hs;
    destruct (pushRoute e y) as [[|err|] x'] end; cbn in *.
  - destruct Hs as (_ & _ & Hc & (_ & _ & -> & ->)).
    apply sameCon_fields in Hc as (? & ? & ? & ? & (_ & _ & _ & ?) & _). cbn in *.
    unfold sameIdentity. repeat split; tauto.
  - destruct Hs as (_ & _ & Hc & (_ & _ & -> & ->)).
    apply sameCon_fields in Hc as (? & ? & ? & ? & (_ & _ & _ & ?) & _). cbn in *.
    unfold sameIdentity. repeat split; tauto.
  - destruct Hs as [_ ->]. cbn. unfold sameIdentity. repeat split; tauto.
Qed.

Lemma watchRoutes_effect_from p env names routes x0 x :
  cCon x0 = cCon x ->
  edsClusters (cSrv x0) = edsClusters (cSrv x) ->
  connectionNumber (cSrv x0) = connectionNumber (cSrv x) ->
  match watchRoutes env routes x0 with
  | (d, x') =>
      sameIdentity (cCon x) (cCon x')
      /\ connectionNumber (cSrv x') = connectionNumber (cSrv x)
      /\ clustersEffect p names (ConID (cCon x)) x x'
  end.
Proof.
  intros Hc He Hn. pose proof (watchRoutes_effect p env names routes x0) as Hs.
  destruct (watchRoutes env routes x0) as [d x'].
  unfold clustersEffect in *. rewrite Hc, He, Hn in Hs.
  destruct Hs as (Hi & Hcn & [Hs|[Hs1 Hs2]]);
    (split; [exact Hi|]); (split; [exact Hcn|]).
  - by left.
  - right. split; [done|]. rewrite Hs2. by apply addEdsCons_ext.
Qed.

Lemma caseRouteType_effect p env discReq x :
  match caseRouteType env discReq x with
  | (d, x') =>
      sameIdentity (cCon x) (cCon x')
      /\ connectionNumber (cSrv x') = connectionNumber (cSrv x)
      /\ clustersEffect p (ResourceNames discReq) (ConID (cCon x)) x x'
  end.
Proof.
  unfold caseRouteType.
  destruct (_ || _); [|apply watchRoutes_effect].
  destruct (ErrorDetail discReq); cbn.
  - case_decide; [unfold clustersEffect, sameIdentity; cbn; repeat split; tauto|].
    by apply watchRoutes_effect_from.
  - case_decide; [unfold clustersEffect, sameIdentity; cbn; repeat split; tauto|].
    by apply watchRoutes_effect_from.
Qed.

Lemma caseEndpointType_effect p env discReq x :
  match caseEndpointType p env discReq x with
  | (d, x') =>
      sameIdentity (cCon x) (cCon x')
      /\ connectionNumber (cSrv x') = connectionNumber (cSrv x)
      /\ clustersEffect p (ResourceNames discReq) (ConID (cCon x)) x x'
  end.
Proof.
  pose proof (caseEndpointType_spec p env discReq x) as Hcase. cbn zeta in Hcase.
  unfold clustersEffect, sameIdentity.
  case_bool_decide.
  - destruct Hcase as (x' & -> & -> & _ & (_ & _ & -> & ->)). repeat split; tauto.
  - destruct Hcase as (x0 & -> & Hcon & _ & (_ & _ & He & Hn)).
    pose proof (watchClusters_spec p env (ResourceNames discReq) x0) as Hs.
    destruct (watchClusters _ _ _ x0) as [d x'].
    destruct Hs as (-> & -> & (_ & _ & ->) & _). rewrite Hcon, Hn. cbn.
    repeat split. right. split; [done|]. by apply addEdsCons_ext.
Qed.

Lemma dispatch_effect p env discReq x :
  match dispatch p env discReq x with
  | (d, x') =>
      sameIdentity (cCon x) (cCon x')
      /\ connectionNumber (cSrv x') = connectionNumber (cSrv x)
      /\ clustersEffect p (ResourceNames discReq) (ConID (cCon x)) x x'
  end.
Proof.
  destruct (typeUrl_cases (TypeUrl discReq)) as [H|[H|[H|[H|H]]]].
  - rewrite dispatch_cluster by done. apply caseClusterType_effect.
  - rewrite dispatch_listener by done. apply caseListenerType_effect.
  - rewrite dispatch_route by done. apply caseRouteType_effect.
  - rewrite dispatch_endpoint by done. apply caseEndpointType_effect.
  - rewrite dispatch_unrecognized by done.
    unfold clustersEffect, sameIdentity. cbn. repeat split; tauto.
Qed.

Lemma registerCon_effect p x :
  ConID (cCon (registerCon p x)) = ConID (cCon x)
  /\ doneChannelClosed (cCon (registerCon p x)) = doneChannelClosed (cCon x)
  /\ Clusters (cCon (registerCon p x)) = Clusters (cCon x)
  /\ edsClusters (cSrv (registerCon p x)) = edsClusters (cSrv x)
  /\ connectionNumber (cSrv (registerCon p x)) = connectionNumber (cSrv x).
Proof.
  unfold registerCon. destruct (added (cCon x)); [done|]. cbn.
  unfold addCon. cbn. destruct (modelNode (cCon x)) as [node|]; cbn; [|done].
  destruct (_ !! ID node); cbn; done.
Qed.

(** A round on a request: the connection id is set once, from the counter,
    and stays; doneChannel is not touched; the watch list and the index
    change as the endpoint case changes them. *)
Lemma handleRequest_effect p env discReq x flow x' :
  handleRequest p env discReq x = (flow, x') ->
  doneChannelClosed (cCon x') = doneChannelClosed (cCon x)
  /\ ((ConID (cCon x') = ConID (cCon x)
       /\ connectionNumber (cSrv x') = connectionNumber (cSrv x))
      \/ (ConID (cCon x) = ""
          /\ ConID (cCon x') = connectionID (NodeId discReq) (S (connectionNumber (cSrv x)))
          /\ connectionNumber (cSrv x') = S (connectionNumber (cSrv x))))
  /\ ((Clusters (cCon x') = Clusters (cCon x)
       /\ edsClusters (cSrv x') = edsClusters (cSrv x))
      \/ (ConID (cCon x') <> ""
          /\ Clusters (cCon x') = ResourceNames discReq
          /\ edsClusters (cSrv x')
             = edsClusters (addEdsCons (ResourceNames discReq) (ConID (cCon x')) p (cSrv x)))).
Proof.
  intros H.
  destruct (handleRequest_cases p env discReq x)
    as [[Hn He]|[[Hid He]|[(err & Hid & Hparse & He)|(nt & Hid & Hparse & He)]]];
    rewrite He in H; clear He.
  1-3: injection H as <- <-; cbn; tauto.
  set (y := prepared discReq nt x) in *.
  assert (Hy : doneChannelClosed (cCon y) = doneChannelClosed (cCon x)
               /\ Clusters (cCon y) = Clusters (cCon x)
               /\ edsClusters (cSrv y) = edsClusters (cSrv x)
               /\ ConID (cCon y) <> ""
               /\ ((ConID (cCon y) = ConID (cCon x)
                    /\ connectionNumber (cSrv y) = connectionNumber (cSrv x))
                   \/ (ConID (cCon x) = ""
                       /\ ConID (cCon y)
                          = connectionID (NodeId discReq) (S (connectionNumber (cSrv x)))
                       /\ connectionNumber (cSrv y) = S (connectionNumber (cSrv x))))).
  { subst y. unfold prepared, assignConID. cbn. case_decide as Hc; cbn.
    - repeat split; try done; [apply connectionID_nonempty|]. right. done.
    - repeat split; try done. left. done. }
  destruct Hy as (Hd & Hcl & Hix & Hne & Hid').
  pose proof (dispatch_effect p env discReq y) as He.
  destruct (dispatch p env discReq y) as [d y'] eqn:Hdisp.
  destruct He as ((Hi1 & _ & Hi3 & _) & Hcn & Hce).
  assert (Hfinal : doneChannelClosed (cCon x') = doneChannelClosed (cCon y')
                   /\ ConID (cCon x') = ConID (cCon y')
                   /\ Clusters (cCon x') = Clusters (cCon y')
                   /\ edsClusters (cSrv x') = edsClusters (cSrv y')
                   /\ connectionNumber (cSrv x') = connectionNumber (cSrv y')).
  { destruct d; injection H as <- <-; try done.
    pose proof (registerCon_effect p y'). tauto. }
  destruct Hfinal as (Hf1 & Hf2 & Hf3 & Hf4 & Hf5).
  rewrite Hf1, Hf2, Hf3, Hf4, Hf5, Hi1, Hi3, Hcn, Hd.
  split; [done|]. split; [exact Hid'|].
  destruct Hce as [[Hc1 Hc2]|[Hc1 Hc2]].
  - left. by rewrite Hc1, Hc2, Hcl, Hix.
  - right. split; [done|]. split; [done|]. rewrite Hc2. by apply addEdsCons_ext.
Qed.

Lemma handlePush_effect env x flow x' :
  handlePush env x = (flow, x') ->
  sameCon (cCon x) (cCon x') /\ sameTables (cSrv x) (cSrv x').
Proof.
  assert (Hstage : forall (watched : bool) (push : Ctx -> PushResult * Ctx)
                     (next : Ctx -> Flow * Ctx) y,
    (forall z, match push z with
               | (_, z') => sameCon (cCon z) (cCon z') /\ sameTables (cSrv z) (cSrv z')
               end) ->
    (forall z, sameCon (cCon z) (cCon (next z).2)
               /\ sameTables (cSrv z) (cSrv (next z).2)) ->
    sameCon (cCon y) (cCon (pushIf watched push next y).2)
    /\ sameTables (cSrv y) (cSrv (pushIf watched push next y).2)).
  { intros watched push next y Hpush Hnext. unfold pushIf.
    destruct watched; [|apply Hnext].
    specialize (Hpush y). destruct (push y) as [[|err|] z']; cbn; try done.
    destruct Hpush as [Hc Ht]. destruct (Hnext z') as [Hc' Ht'].
    split; [by eapply sameCon_trans|by eapply sameTables_trans]. }
  assert (Hother : forall t l n z,
    match pushOther t l n env z with
    | (_, z') => sameCon (cCon z) (cCon z') /\ sameTables (cSrv z) (cSrv z')
    end).
  { intros t l n z. pose proof (pushOther_spec t l n env z) as Hs.
    destruct (pushOther t l n env z) as [[|err|] z']; [| |done];
      destruct Hs as (_ & _ & -> & Ht); (split; [apply sameCon_refl|done]). }
  assert (Hcds : forall z,
    match pushCds env z with
    | (_, z') => sameCon (cCon z) (cCon z') /\ sameTables (cSrv z) (cSrv z')
    end).
  { intros z. unfold pushCds. destruct (modelNode (cCon z)); [apply Hother|].
    split; [apply sameCon_refl|apply sameTables_refl]. }
  assert (Hlds : forall z,
    match pushLds env z with
    | (_, z') => sameCon (cCon z) (cCon z') /\ sameTables (cSrv z) (cSrv z')
    end).
  { intros z. unfold pushLds. destruct (modelNode (cCon z)); [apply Hother|].
    split; [apply sameCon_refl|apply sameTables_refl]. }
  assert (Hrds : forall z,
    match pushRoute env z with
    | (_, z') => sameCon (cCon z) (cCon z') /\ sameTables (cSrv z) (cSrv z')
    end).
  { intros z. pose proof (pushRoute_spec env z) as Hs.
    destruct (pushRoute env z) as [[|err|] z'].
    - tauto.
    - tauto.
    - destruct Hs as [_ ->]. split; [apply sameCon_refl|apply sameTables_refl]. }
  intros H. change x' with (flow, x').2. rewrite <- H. unfold handlePush.
  apply Hstage; [exact Hcds|]. intros z1.
  apply Hstage; [exact Hrds|]. intros z2.
  apply Hstage; [intros z; apply Hother|]. intros z3.
  apply Hstage; [exact Hlds|]. intros z4. cbn.
  split; [apply sameCon_refl|apply sameTables_refl].
Qed.

Lemma teardown_effect p x :
  ConID (cCon (teardown p x)) = ConID (cCon x)
  /\ Clusters (cCon (teardown p x)) = Clusters (cCon x)
  /\ added (cCon (teardown p x)) = added (cCon x)
  /\ doneChannelClosed (cCon (teardown p x)) = true
  /\ connectionNumber (cSrv (teardown p x)) = connectionNumber (cSrv x)
  /\ edsClusters (cSrv (teardown p x))
     = if added (cCon x)
       then edsClusters (removeEdsCons (Clusters (cCon x)) (ConID (cCon x)) p (cSrv x))
       else edsClusters (cSrv x).
Proof.
  unfold teardown. destruct (added (cCon x)) eqn:Ha; cbn; [|done].
  destruct (removeCon_index (ConID (cCon x)) p (cCon x) (cSrv x)) as [-> ->]. done.
Qed.

(** *** The invariant of the server *)

Lemma handleRequest_handler p env discReq x flow x1 :
  handleRequest p env discReq x = (flow, x1) -> HandlerEffect p x x1.
Proof.
  intros H. apply handleRequest_effect in H as (Hd & Hid & Hcl).
  split; [done|]. split.
  - destruct Hid as [?|(? & ? & ?)]; [by left|right]. split; [done|]. split; [|done].
    by eexists.
  - destruct Hcl as [?|(? & ? & ?)]; [by left|right]. by eexists.
Qed.

Lemma handlePush_handler p env x flow x1 :
  handlePush env x = (flow, x1) -> HandlerEffect p x x1.
Proof.
  intros H. apply handlePush_effect in H as [Hc Ht].
  apply sameCon_fields in Hc as (Hid & _ & Hd & _ & (_ & _ & _ & Hcl) & _).
  destruct Ht as (_ & _ & He & Hn).
  split; [done|]. split; [by left|]. by left.
Qed.

Lemma handler_round p x x1 x2 :
  HandlerEffect p x x1 ->
  x2 = x1 \/ x2 = teardown p x1 ->
  RoundEffect p x x2.
Proof.
  intros (Hd & Hid & Hcl) Hx2.
  destruct (teardown_effect p x1) as (Ht1 & Ht2 & _ & Ht4 & Ht5 & Ht6).
  assert (Hsame : ConID (cCon x2) = ConID (cCon x1)
                  /\ Clusters (cCon x2) = Clusters (cCon x1)
                  /\ connectionNumber (cSrv x2) = connectionNumber (cSrv x1)).
  { destruct Hx2 as [->| ->]; done. }
  destruct Hsame as (Hs1 & Hs2 & Hs3).
  assert (Hother : forall n k, k <> ConID (cCon x1) ->
            indexOf (cSrv x1) n k = indexOf (cSrv x) n k).
  { intros n k Hk. destruct Hcl as [[_ He]|(names & _ & _ & He)].
    - by apply indexOf_ext.
    - rewrite (indexOf_ext _ _ _ _ He), indexOf_addEdsCons.
      rewrite decide_False; [done|]. tauto. }
  split; [|split; [|split]].
  - rewrite Hs1, Hs3. exact Hid.
  - intros n k Hk. rewrite Hs1 in Hk. rewrite <- Hother by done.
    destruct Hx2 as [->| ->]; [done|].
    destruct (added (cCon x1)).
    + rewrite (indexOf_ext _ _ _ _ Ht6), indexOf_removeEdsCons.
      rewrite decide_False; [done|]. tauto.
    + by apply indexOf_ext.
  - rewrite Hs1, Hs2. destruct Hcl as [[? _]|(names & ? & _)]; [by left|by right].
  - intros Hlive Hix Hne n Hn.
    destruct Hx2 as [->| ->]; [|congruence].
    destruct Hcl as [[Hc He]|(names & _ & Hc & He)].
    + rewrite Hc in Hn. rewrite (indexOf_ext _ _ _ _ He).
      destruct Hid as [[-> _]|(Hempty & _)]; [by apply Hix|].
      exfalso. apply Hne; [|done]. intros Hnil. rewrite Hnil in Hn.
      by apply elem_of_nil in Hn.
    + rewrite (indexOf_ext _ _ _ _ He), indexOf_addEdsCons.
      rewrite decide_True; [done|]. by rewrite <- Hc.
Qed.

(** A round with this effect keeps the invariant. *)
Lemma round_inv (p : loc) (sys : System) (con : XdsConnection) (x' : Ctx)
    (w : list (loc * DiscoveryResponse)) (cr : bool) :
  Inv sys ->
  heap sys !! p = Some con ->
  doneChannelClosed con = false ->
  RoundEffect p (mkCtx (server sys) con []) x' ->
  Inv {| heap := <[p := cCon x']> (heap sys); server := cSrv x';
         nextLoc := nextLoc sys; wire := w; crashed := cr |}.
Proof.
  intros (I1 & I2 & I3 & I4 & I5) Hp Hopen (Rid & Rother & Rcl & Rix). cbn in *.
  assert (Hmono : (connectionNumber (server sys) <= connectionNumber (cSrv x'))%nat).
  { destruct Rid as [[_ ->]|(_ & _ & ->)]; lia. }
  assert (Hfresh : forall q d, q <> p -> heap sys !! q = Some d -> ConID d <> "" ->
            ConID d <> ConID (cCon x')).
  { intros q d Hq Hd Hne Heq.
    destruct Rid as [[Hsame _]|(_ & (node & Hnew) & _)].
    - rewrite Hsame in Heq. apply Hq. by apply (I3 q p d con).
    - destruct (I2 q d Hd Hne) as (node' & j & Hj & Hle).
      rewrite Hj, Hnew in Heq. apply connectionID_inj in Heq. lia. }
  assert (Hid' : Clusters (cCon x') <> [] -> ConID (cCon x') <> "").
  { intros Hne. destruct Rcl as [Hc|?]; [|done]. rewrite Hc in Hne.
    destruct Rid as [[-> _]|(Hempty & _)]; [by apply (I4 p con)|].
    exfalso. by apply (I4 p con). }
  split; [|split; [|split; [|split]]]; cbn.
  - intros q c Hq. destruct (decide (q = p)) as [->|Hne].
    + by apply (I1 p con).
    + rewrite lookup_insert_ne in Hq by done. by apply (I1 q c).
  - intros q c Hq Hne. destruct (decide (q = p)) as [->|Hqp].
    + rewrite lookup_insert_eq in Hq. injection Hq as <-.
      destruct Rid as [[Hsame Hcn]|(_ & (node & Hnew) & Hcn)].
      * rewrite Hsame in *. destruct (I2 p con Hp Hne) as (node & j & Hj & Hle).
        exists node, j. split; [done|lia].
      * exists node, (S (connectionNumber (server sys))). split; [done|lia].
    + rewrite lookup_insert_ne in Hq by done.
      destruct (I2 q c Hq Hne) as (node & j & Hj & Hle). exists node, j. split; [done|lia].
  - intros q1 q2 c d H1 H2 Hne Heq.
    destruct (decide (q1 = p)) as [->|Hq1]; destruct (decide (q2 = p)) as [->|Hq2];
      try done.
    + rewrite lookup_insert_eq in H1. injection H1 as <-.
      rewrite lookup_insert_ne in H2 by done.
      exfalso. apply (Hfresh q2 d Hq2 H2); [congruence|done].
    + rewrite lookup_insert_eq in H2. injection H2 as <-.
      rewrite lookup_insert_ne in H1 by done.
      exfalso. by apply (Hfresh q1 c Hq1 H1).
    + rewrite lookup_insert_ne in H1, H2 by done. by apply (I3 q1 q2 c d).
  - intros q c Hq Hne. destruct (decide (q = p)) as [->|Hqp].
    + rewrite lookup_insert_eq in Hq. injection Hq as <-. by apply Hid'.
    + rewrite lookup_insert_ne in Hq by done. by apply (I4 q c).
  - intros q c n Hq Hlive Hn. destruct (decide (q = p)) as [->|Hqp].
    + rewrite lookup_insert_eq in Hq. injection Hq as <-.
      apply Rix; try done.
      * intros n' Hn'. by apply (I5 p con n' Hp).
      * by apply (I4 p con).
    + rewrite lookup_insert_ne in Hq by done.
      rewrite Rother.
      * by apply (I5 q c).
      * apply (Hfresh q c Hqp Hq). apply (I4 q c Hq). intros Hnil. rewrite Hnil in Hn.
        by apply elem_of_nil in Hn.
Qed.

Lemma Inv_initial : Inv initial.
Proof.
  unfold Inv, initial. cbn. repeat split; intros; by rewrite lookup_empty in *.
Qed.

Lemma runHandler_inv (p : loc) (handler : Ctx -> Flow * Ctx) (sys : System) :
  (forall x flow x1, handler x = (flow, x1) -> HandlerEffect p x x1) ->
  Inv sys -> Inv (runHandler p handler sys).
Proof.
  intros Hh HI. unfold runHandler.
  destruct (heap sys !! p) as [con|] eqn:Hp; [|done].
  destruct (doneChannelClosed con) eqn:Hopen; [done|].
  destruct (handler {| cSrv := server sys; cCon := con; cSent := [] |}) as [flow x1] eqn:Hr.
  apply (round_inv p sys con); try done.
  apply (handler_round p _ x1); [by eapply Hh|].
  destruct flow; [by left|by right..].
Qed.

(** The second loop of adsPushAll writes the two push times of a client and
    nothing else of it. *)
Lemma pushLoop_frame (benv : BroadcastEnv) (clients : list (string * loc))
    (heap0 : gmap loc XdsConnection) (s0 : Server) :
  sameTables s0 (pushLoop benv clients (heap0, s0)).2
  /\ forall p, view <$> (pushLoop benv clients (heap0, s0)).1 !! p = view <$> heap0 !! p.
Proof.
  revert heap0 s0. induction clients as [|[k q] clients IH]; intros heap0 s0.
  { split; [apply sameTables_refl|done]. }
  unfold pushLoop. cbn [foldl]. fold (pushLoop benv clients).
  destruct (heap0 !! q) as [c|] eqn:Hq; [|apply IH].
  pose proof (pushClient_spec (selectOutcome benv k) c s0) as Hs.
  destruct (pushClient (selectOutcome benv k) c s0) as [c' s'].
  destruct Hs as (Hc' & Ht & _).
  destruct (IH (<[q:=c']> heap0) s') as [IHt IHv].
  split; [by eapply sameTables_trans|].
  intros p. rewrite IHv. destruct (decide (p = q)) as [->|Hne].
  - rewrite lookup_insert_eq, Hq. cbn. f_equal. rewrite Hc'.
    destruct (selectOutcome benv k); [done|done|].
    by destruct (IsZero (LastPushFailure c)).
  - by rewrite lookup_insert_ne.
Qed.

Lemma broadcast_inv (benv : BroadcastEnv) (sys : System) :
  Inv sys ->
  Inv {| heap := (adsPushAll benv (heap sys, server sys)).1;
         server := (adsPushAll benv (heap sys, server sys)).2;
         nextLoc := nextLoc sys; wire := wire sys; crashed := false |}.
Proof.
  intros (I1 & I2 & I3 & I4 & I5). unfold adsPushAll.
  destruct (updateClusters_spec benv (server sys)) as (_ & _ & Hcn & _).
  pose proof (updateClusters_index benv (server sys)) as Hix.
  destruct (pushLoop_frame benv (map_to_list (adsClients (updateClusters benv (server sys))))
              (heap sys) (updateClusters benv (server sys))) as [(_ & _ & He & Hn) Hv].
  set (r := pushLoop benv _ _) in *.
  assert (Hback : forall p c, r.1 !! p = Some c ->
            exists c0, heap sys !! p = Some c0 /\ view c0 = view c).
  { intros p c Hp. specialize (Hv p). rewrite Hp in Hv. cbn in Hv.
    destruct (heap sys !! p) as [c0|]; [|done]. cbn in Hv.
    exists c0. split; [done|]. congruence. }
  unfold view in Hback.
  split; [|split; [|split; [|split]]]; cbn.
  - intros p c Hp. destruct (Hback p c Hp) as (c0 & H0 & _). by apply (I1 p c0).
  - intros p c Hp Hne. destruct (Hback p c Hp) as (c0 & H0 & [= Hid _ _]).
    rewrite <- Hid in *. rewrite Hn, Hcn. by apply (I2 p c0).
  - intros p q c d Hp Hq Hne Heq.
    destruct (Hback p c Hp) as (c0 & H0 & [= Hid _ _]).
    destruct (Hback q d Hq) as (d0 & H0' & [= Hid' _ _]).
    apply (I3 p q c0 d0); congruence.
  - intros p c Hp Hne. destruct (Hback p c Hp) as (c0 & H0 & [= Hid Hcl _]).
    rewrite <- Hid. apply (I4 p c0); congruence.
  - intros p c n Hp Hlive Hin.
    destruct (Hback p c Hp) as (c0 & H0 & [= Hid Hcl Hd]).
    rewrite (indexOf_ext _ _ _ _ He), Hix, <- Hid. apply (I5 p c0); congruence.
Qed.

Lemma step_inv (ev : Event) (sys : System) : Inv sys -> Inv (step ev sys).
Proof.
  intros HI. unfold step. destruct (crashed sys); [done|].
  destruct ev as [peerAddr now|p discReq env|p env|p err|benv].
  - destruct HI as (I1 & I2 & I3 & I4 & I5).
    assert (Hnew : heap sys !! nextLoc sys = None).
    { destruct (heap sys !! nextLoc sys) as [c|] eqn:Hc; [|done].
      apply I1 in Hc. lia. }
    split; [|split; [|split; [|split]]]; cbn.
    + intros p c Hp. destruct (decide (p = nextLoc sys)) as [->|Hne]; [lia|].
      rewrite lookup_insert_ne in Hp by done. apply I1 in Hp. lia.
    + intros p c Hp Hne. destruct (decide (p = nextLoc sys)) as [->|Hpn].
      * rewrite lookup_insert_eq in Hp. by injection Hp as <-.
      * rewrite lookup_insert_ne in Hp by done. by apply (I2 p c).
    + intros p q c d Hp Hq Hne Heq.
      destruct (decide (p = nextLoc sys)) as [->|Hpn].
      { rewrite lookup_insert_eq in Hp. by injection Hp as <-. }
      destruct (decide (q = nextLoc sys)) as [->|Hqn].
      { rewrite lookup_insert_eq in Hq. injection Hq as <-. cbn in Heq. congruence. }
      rewrite lookup_insert_ne in Hp, Hq by done. by apply (I3 p q c d).
    + intros p c Hp Hne. destruct (decide (p = nextLoc sys)) as [->|Hpn].
      * rewrite lookup_insert_eq in Hp. by injection Hp as <-.
      * rewrite lookup_insert_ne in Hp by done. by apply (I4 p c).
    + intros p c n Hp Hlive Hn. destruct (decide (p = nextLoc sys)) as [->|Hpn].
      * rewrite lookup_insert_eq in Hp. injection Hp as <-. by apply elem_of_nil in Hn.
      * rewrite lookup_insert_ne in Hp by done. by apply (I5 p c).
  - apply runHandler_inv; [|done]. intros x flow x1. apply handleRequest_handler.
  - apply runHandler_inv; [|done]. intros x flow x1. apply handlePush_handler.
  - apply runHandler_inv; [|done]. intros x flow x1 [= _ <-].
    split; [done|]. split; by left.
  - pose proof (broadcast_inv benv sys HI) as Hb.
    by destruct (adsPushAll benv (heap sys, server sys)).
Qed.

Lemma run_inv (evs : list Event) (sys : System) : Inv sys -> Inv (run evs sys).
Proof.
  revert sys. induction evs as [|ev evs IH]; intros sys HI; [done|].
  cbn. apply IH. by apply step_inv.
Qed.

(** *** Registration and watches in the reachable states *)

Lemma dispatch_leave p env discReq x f x' :
  dispatch p env discReq x = (Leave f, x') -> f <> Continue.
Proof.
  assert (Hap : forall r f x', afterPush r = (Leave f, x') -> f <> Continue).
  { intros [[|err|] ?] ? ? [= <- _]; done. }
  unfold dispatch, caseClusterType, caseListenerType, caseRouteType, caseEndpointType,
    watchRoutes, watchClusters.
  cbv zeta. intros H.
  repeat match type of H with
         | context [decide ?P] => destruct (decide P)
         | context [if ?b then _ else _] => destruct b
         end;
    try discriminate; by eapply Hap.
Qed.

Lemma Registered_registration c c' :
  registration c' = registration c -> Registered c -> Registered c'.
Proof.
  unfold registration, Registered, noWatch.
  intros [= -> -> -> -> -> ->]. done.
Qed.

Lemma handleRequest_registered p env discReq x x' :
  handleRequest p env discReq x = (Continue, x') ->
  Registered (cCon x) -> Registered (cCon x').
Proof.
  intros H [Hnw Hnode].
  destruct (handleRequest_cases p env discReq x)
    as [[Hn He]|[[Hid He]|[(err & Hid & Hparse & He)|(nt & Hid & Hparse & He)]]];
    rewrite He in H; clear He; [done| |done|].
  { injection H as <-. done. }
  destruct (prepared_watch discReq nt x) as (Hsw & Hadd & _ & Hy).
  set (y := prepared discReq nt x) in *.
  pose proof (dispatch_effect p env discReq y) as He.
  pose proof (dispatch_noWatch p env discReq y) as Hd.
  destruct (dispatch p env discReq y) as [[| |f] y'] eqn:Hdisp.
  - injection H as <-. destruct He as ((_ & Hm & _ & Ha) & _).
    rewrite <- Hm in Hy.
    unfold registerCon. destruct (added (cCon y')) eqn:Hay.
    + split; [congruence|done].
    + split; [done|]. intros _. unfold addCon. cbn.
      destruct (modelNode (cCon y')); done.
  - injection H as <-. destruct He as ((_ & Hm & _ & Ha) & _).
    split; [|intros _; by rewrite Hm].
    intros Hf. exfalso. apply Hd; [|done].
    rewrite Ha, Hadd in Hf. specialize (Hnw Hf).
    unfold noWatch, sameWatch in *. destruct Hsw as (-> & -> & -> & ->). done.
  - injection H as -> <-. by apply dispatch_leave in Hdisp.
Qed.

Lemma handlePush_registered env x flow x' :
  handlePush env x = (flow, x') ->
  Registered (cCon x) -> Registered (cCon x').
Proof.
  intros H. apply handlePush_effect in H as [Hc _].
  apply sameCon_fields in Hc as (_ & Hm & Hd & Ha & (H1 & H2 & H3 & H4) & _).
  apply Registered_registration. unfold registration. congruence.
Qed.

(** The second loop of adsPushAll keeps of a connection all that the two
    assignments of push times keep. *)
Lemma pushLoop_keeps {A} (f : XdsConnection -> A) (benv : BroadcastEnv)
    (clients : list (string * loc)) (heap0 : gmap loc XdsConnection) (s0 : Server) :
  (forall t c, f (setLastPush t c) = f c) ->
  (forall t c, f (setLastPushFailure t c) = f c) ->
  forall p, f <$> (pushLoop benv clients (heap0, s0)).1 !! p = f <$> heap0 !! p.
Proof.
  intros Hf1 Hf2.
  revert heap0 s0. induction clients as [|[k q] clients IH]; intros heap0 s0; [done|].
  unfold pushLoop. cbn [foldl]. fold (pushLoop benv clients).
  destruct (heap0 !! q) as [c|] eqn:Hq; [|apply IH].
  pose proof (pushClient_spec (selectOutcome benv k) c s0) as Hs.
  destruct (pushClient (selectOutcome benv k) c s0) as [c' s'].
  destruct Hs as (Hc' & _).
  intros p. etrans; [apply IH|]. destruct (decide (p = q)) as [->|Hne].
  - rewrite lookup_insert_eq, Hq. cbn. f_equal. rewrite Hc'.
    destruct (selectOutcome benv k); [by rewrite Hf2, Hf1|done|].
    destruct (IsZero (LastPushFailure c)); [by rewrite Hf2|done].
  - by rewrite lookup_insert_ne.
Qed.

(** In every state the server reaches, a stream whose loop is running is
    set up for the pushes: out of the registry it has no watch, and in the
    registry it has its node. *)
Lemma run_registered (evs : list Event) (p : loc) (c : XdsConnection) :
  heap (run evs initial) !! p = Some c ->
  doneChannelClosed c = false ->
  Registered c.
Proof.
  revert p c.
  assert (Hstep : forall ev sys,
            (forall p c, heap sys !! p = Some c -> doneChannelClosed c = false ->
                         Registered c) ->
            forall p c, heap (step ev sys) !! p = Some c -> doneChannelClosed c = false ->
                        Registered c).
  { intros ev sys HR.
    assert (Hh : forall q (handler : Ctx -> Flow * Ctx),
              (forall x x1, handler x = (Continue, x1) ->
                            Registered (cCon x) -> Registered (cCon x1)) ->
              forall p c, heap (runHandler q handler sys) !! p = Some c ->
                          doneChannelClosed c = false -> Registered c).
    { intros q handler Hk p c. unfold runHandler.
      destruct (heap sys !! q) as [con|] eqn:Hq; [|apply HR].
      destruct (doneChannelClosed con) eqn:Hopen; [apply HR|].
      destruct (handler {| cSrv := server sys; cCon := con; cSent := [] |})
        as [flow x1] eqn:Hr.
      cbn. destruct (decide (p = q)) as [->|Hne].
      2: { rewrite lookup_insert_ne by done. apply HR. }
      rewrite lookup_insert_eq. intros [= <-] Hlive.
      destruct flow.
      - apply (Hk _ _ Hr). cbn. by apply (HR q).
      - by destruct (teardown_effect q x1) as (_ & _ & _ & Hd & _); congruence.
      - by destruct (teardown_effect q x1) as (_ & _ & _ & Hd & _); congruence. }
    unfold step. destruct (crashed sys); [done|].
    destruct ev as [peerAddr now|q discReq env|q env|q err|benv].
    - intros p c. cbn. destruct (decide (p = nextLoc sys)) as [->|Hne].
      + rewrite lookup_insert_eq. intros [= <-] _. split; [done|]. cbn. done.
      + rewrite lookup_insert_ne by done. apply HR.
    - apply Hh. intros x x1. apply handleRequest_registered.
    - apply Hh. intros x x1. apply handlePush_registered.
    - apply Hh. intros x x1 [= ].
    - intros p c.
      destruct (adsPushAll benv (heap sys, server sys)) as [h s] eqn:Hb. cbn.
      unfold adsPushAll in Hb.
      pose proof (pushLoop_keeps registration benv
                    (map_to_list (adsClients (updateClusters benv (server sys))))
                    (heap sys) (updateClusters benv (server sys))
                    (fun _ _ => eq_refl) (fun _ _ => eq_refl) p) as Hv.
      rewrite Hb in Hv. cbn in Hv. intros Hp Hlive. rewrite Hp in Hv. cbn in Hv.
      destruct (heap sys !! p) as [c0|] eqn:Hp0; [|done]. cbn in Hv.
      assert (Hreg : registration c = registration c0) by congruence.
      apply (Registered_registration c0); [done|].
      apply (HR p); [done|]. unfold registration in Hreg. congruence. }
  induction evs as [|ev evs IH] using rev_ind; intros p c.
  - cbn. by rewrite lookup_empty.
  - unfold run. rewrite foldl_app. cbn. apply Hstep. exact IH.
Qed.

(** *** The registry in the reachable states *)

Lemma afterPush_ctx (r : PushResult * Ctx) : (afterPush r).2 = r.2.
Proof. by destruct r as [[|err|] x]. Qed.

Lemma pushOther_adsClients t l n env x :
  adsClients (cSrv (pushOther t l n env x).2) = adsClients (cSrv x).
Proof.
  pose proof (pushOther_spec t l n env x) as Hs.
  destruct (pushOther t l n env x) as [[|err|] x']; [| |done];
    by destruct Hs as (_ & _ & _ & (? & _)).
Qed.

Lemma pushRoute_adsClients env x :
  adsClients (cSrv (pushRoute env x).2) = adsClients (cSrv x).
Proof.
  pose proof (pushRoute_spec env x) as Hs.
  destruct (pushRoute env x) as [[|err|] x'].
  - by destruct Hs as (_ & _ & _ & (? & _)).
  - by destruct Hs as (_ & _ & _ & (? & _)).
  - by destruct Hs as [_ ->].
Qed.

Lemma dispatch_adsClients p env discReq x :
  adsClients (cSrv (dispatch p env discReq x).2) = adsClients (cSrv x).
Proof.
  destruct (typeUrl_cases (TypeUrl discReq)) as [H|[H|[H|[H|H]]]].
  - rewrite dispatch_cluster by done. unfold caseClusterType, pushCds.
    destruct (CDSWatch (cCon x)); [by destruct (ErrorDetail discReq)|].
    rewrite afterPush_ctx. cbn.
    destruct (modelNode (cCon x)); [|done]. by rewrite pushOther_adsClients.
  - rewrite dispatch_listener by done. unfold caseListenerType, pushLds.
    destruct (LDSWatch (cCon x)); [by destruct (ErrorDetail discReq)|].
    rewrite afterPush_ctx. cbn.
    destruct (modelNode (cCon x)); [|done]. by rewrite pushOther_adsClients.
  - rewrite dispatch_route by done. unfold caseRouteType, watchRoutes.
    destruct (_ || _).
    + destruct (ErrorDetail discReq); cbn; case_decide; try done;
        by rewrite afterPush_ctx, pushRoute_adsClients.
    + by rewrite afterPush_ctx, pushRoute_adsClients.
  - rewrite dispatch_endpoint by done.
    pose proof (caseEndpointType_spec p env discReq x) as Hcase. cbn zeta in Hcase.
    case_bool_decide.
    + by destruct Hcase as (x' & -> & _ & _ & (? & _)).
    + destruct Hcase as (x0 & -> & _ & _ & (<- & _)).
      pose proof (watchClusters_spec p env (ResourceNames discReq) x0) as Hs.
      destruct (watchClusters _ _ _ x0) as [d x'].
      by destruct Hs as (_ & _ & (? & _) & _).
  - by rewrite dispatch_unrecognized.
Qed.

Lemma handleRequest_registry p env discReq x flow x1 :
  handleRequest p env discReq x = (flow, x1) -> RegistryEffect p flow x x1.
Proof.
  intros H. pose proof (handleRequest_effect _ _ _ _ _ _ H) as (Hd & Hid & _).
  split; [done|]. split.
  { intros Hne. destruct Hid as [[? _]|[? _]]; done. }
  destruct (handleRequest_cases p env discReq x)
    as [[Hn He]|[[Hi He]|[(err & Hi & Hparse & He)|(nt & Hi & Hparse & He)]]];
    rewrite He in H; clear He.
  1-3: injection H as <- <-; by left.
  destruct (prepared_watch discReq nt x) as (_ & Hadd & _ & _).
  assert (Hy : adsClients (cSrv (prepared discReq nt x)) = adsClients (cSrv x)
               /\ ConID (cCon (prepared discReq nt x)) <> "").
  { unfold prepared, assignConID. cbn. case_decide; cbn; [|done].
    split; [done|apply connectionID_nonempty]. }
  destruct Hy as [Hy Hne].
  set (y := prepared discReq nt x) in *.
  pose proof (dispatch_adsClients p env discReq y) as Hc.
  pose proof (dispatch_effect p env discReq y) as Hde.
  destruct (dispatch p env discReq y) as [d y'] eqn:Hdisp. cbn in Hc.
  destruct Hde as ((Hi1 & _ & _ & Ha) & _).
  destruct d; injection H as <- <-.
  - unfold registerCon. destruct (added (cCon y')) eqn:Hay.
    + left. split; congruence.
    + right. cbn. split; [congruence|]. split; [done|]. split; [done|].
      split; [congruence|]. unfold addCon. cbn. rewrite Hc, Hy.
      destruct (modelNode (cCon y')) as [node|]; cbn; [|done].
      by destruct (_ !! ID node).
  - left. split; congruence.
  - left. split; congruence.
Qed.

Lemma handlePush_registry p env x flow x1 :
  handlePush env x = (flow, x1) -> RegistryEffect p flow x x1.
Proof.
  intros H. apply handlePush_effect in H as [Hc Ht].
  apply sameCon_fields in Hc as (Hid & _ & Hd & Ha & _).
  destruct Ht as (Hr & _).
  split; [done|]. split; [done|]. by left.
Qed.

Lemma removeCon_adsClients conID p con s :
  adsClients (removeCon conID p con s) = delete conID (adsClients s).
Proof.
  unfold removeCon.
  assert (Hfold : forall l s0,
            adsClients (foldl (fun s c => removeEdsCon c conID p s) s0 l) = adsClients s0).
  { induction l as [|c l IH]; intros s0; [done|]. cbn [foldl]. rewrite IH.
    unfold removeEdsCon. by destruct (edsClusters s0 !! c). }
  destruct (adsClients _ !! conID); destruct (modelNode con) as [node|]; cbn;
    try destruct (_ !! ID node); cbn; by rewrite Hfold.
Qed.

(** A round of the loop of a stream keeps the registry as it should be. *)
Lemma runHandler_registry (p : loc) (handler : Ctx -> Flow * Ctx) (sys : System) :
  (forall x flow x1, handler x = (flow, x1) -> RegistryEffect p flow x x1) ->
  Registry sys -> Registry (runHandler p handler sys).
Proof.
  intros Hh HR. unfold runHandler.
  destruct (heap sys !! p) as [con|] eqn:Hp; [|done].
  destruct (doneChannelClosed con) eqn:Hopen; [done|].
  destruct (handler {| cSrv := server sys; cCon := con; cSent := [] |}) as [flow x1] eqn:Hr.
  apply Hh in Hr as (Hd & Hid & Hreg). cbn in Hd, Hid, Hreg.
  assert (Hown : forall k, adsClients (server sys) !! k = Some p ->
            k <> "" /\ ConID con = k /\ added con = true).
  { intros k Hk. destruct (HR k p Hk) as (Hne & c & Hc & ? & ? & _).
    assert (c = con) as -> by congruence. done. }
  assert (Hkeep : forall k q, q <> p -> adsClients (server sys) !! k = Some q ->
            k <> ""
            /\ exists c, <[p := cCon x1]> (heap sys) !! q = Some c /\ ConID c = k
                         /\ added c = true /\ doneChannelClosed c = false).
  { intros k q Hq Hk. rewrite lookup_insert_ne by done. by apply HR. }
  assert (Hlive : forall k q,
            adsClients (cSrv x1) !! k = Some q ->
            doneChannelClosed (cCon x1) = false ->
            k <> ""
            /\ exists c, <[p := cCon x1]> (heap sys) !! q = Some c /\ ConID c = k
                         /\ added c = true /\ doneChannelClosed c = false).
  { intros k q Hk Hl. destruct Hreg as [[Ha Hc]|(Ha0 & Ha1 & _ & Hne & Hc)].
    - rewrite Hc in Hk. destruct (decide (q = p)) as [->|Hq]; [|by apply Hkeep].
      destruct (Hown k Hk) as (Hk0 & Hk1 & Hk2). split; [done|].
      exists (cCon x1). rewrite lookup_insert_eq. split; [done|].
      split; [rewrite Hid; [done|congruence]|]. split; [congruence|done].
    - rewrite Hc in Hk. destruct (decide (k = ConID (cCon x1))) as [->|Hkn].
      + rewrite lookup_insert_eq in Hk. injection Hk as <-. split; [done|].
        exists (cCon x1). by rewrite lookup_insert_eq.
      + rewrite lookup_insert_ne in Hk by done.
        destruct (decide (q = p)) as [->|Hq]; [|by apply Hkeep].
        destruct (Hown k Hk) as (_ & _ & ?). congruence. }
  assert (Hdown : forall k q,
            adsClients (cSrv (teardown p x1)) !! k = Some q ->
            flow <> Continue ->
            k <> ""
            /\ exists c, <[p := cCon (teardown p x1)]> (heap sys) !! q = Some c
                         /\ ConID c = k /\ added c = true /\ doneChannelClosed c = false).
  { intros k q Hk Hf.
    assert (Hsame : added (cCon x1) = added con
                    /\ adsClients (cSrv x1) = adsClients (server sys)).
    { destruct Hreg as [?|(_ & _ & ? & _)]; done. }
    destruct Hsame as [Ha Hc].
    assert (Hq : q <> p /\ adsClients (server sys) !! k = Some q).
    { unfold teardown in Hk. destruct (added (cCon x1)) eqn:Ha1; cbn in Hk.
      - rewrite removeCon_adsClients, Hc in Hk.
        apply lookup_delete_Some in Hk as [Hkn Hk]. split; [|done].
        intros ->. destruct (Hown k Hk) as (Hk0 & Hk1 & _).
        apply Hkn. rewrite Hid; [done|congruence].
      - rewrite Hc in Hk. split; [|done].
        intros ->. destruct (Hown k Hk) as (_ & _ & ?). congruence. }
    destruct Hq as [Hq Hk']. rewrite lookup_insert_ne by done. by apply HR. }
  intros k q. cbn. destruct flow; cbn.
  - intros Hk. apply Hlive; [done|congruence].
  - intros Hk. by apply Hdown.
  - intros Hk. by apply Hdown.
Qed.

Lemma broadcast_registry (benv : BroadcastEnv) (sys : System) :
  Registry sys ->
  Registry {| heap := (adsPushAll benv (heap sys, server sys)).1;
              server := (adsPushAll benv (heap sys, server sys)).2;
              nextLoc := nextLoc sys; wire := wire sys; crashed := false |}.
Proof.
  intros HR. unfold adsPushAll.
  destruct (updateClusters_spec benv (server sys)) as (Hc & _).
  destruct (pushLoop_frame benv (map_to_list (adsClients (updateClusters benv (server sys))))
              (heap sys) (updateClusters benv (server sys))) as [(Hc' & _) _].
  pose proof (pushLoop_keeps (fun c => (ConID c, added c, doneChannelClosed c)) benv
                (map_to_list (adsClients (updateClusters benv (server sys))))
                (heap sys) (updateClusters benv (server sys))
                (fun _ _ => eq_refl) (fun _ _ => eq_refl)) as Hv.
  set (r := pushLoop benv _ _) in *.
  intros k p. cbn. rewrite Hc', Hc. intros Hk.
  destruct (HR k p Hk) as (Hne & c & Hp & Hid & Ha & Hd). split; [done|].
  specialize (Hv p). rewrite Hp in Hv. cbn in Hv.
  destruct (r.1 !! p) as [c'|]; [|done]. cbn in Hv. injection Hv as H1 H2 H3.
  exists c'. split; [done|]. repeat split; congruence.
Qed.

Lemma step_registry (ev : Event) (sys : System) :
  Inv sys -> Registry sys -> Registry (step ev sys).
Proof.
  intros HI HR. unfold step. destruct (crashed sys); [done|].
  destruct ev as [peerAddr now|p discReq env|p env|p err|benv].
  - intros k p Hk. cbn in *. destruct (HR k p Hk) as (Hne & c & Hp & H). split; [done|].
    exists c. split; [|done]. rewrite lookup_insert_ne; [done|].
    destruct HI as (I1 & _). apply I1 in Hp. lia.
  - apply runHandler_registry; [|done]. intros x flow x1. apply handleRequest_registry.
  - apply runHandler_registry; [|done]. intros x flow x1. apply handlePush_registry.
  - apply runHandler_registry; [|done]. intros x flow x1 [= <- <-].
    split; [done|]. split; [done|]. by left.
  - pose proof (broadcast_registry benv sys HR) as Hb.
    by destruct (adsPushAll benv (heap sys, server sys)).
Qed.

Lemma run_registry (evs : list Event) : Registry (run evs initial).
Proof.
  induction evs as [|ev evs IH] using rev_ind.
  - intros k p. cbn. by rewrite lookup_empty.
  - unfold run. rewrite foldl_app. cbn. apply step_registry; [|exact IH].
    apply run_inv, Inv_initial.
Qed.

(** No connection is in the registry twice. *)
Lemma registry_NoDup (sys : System) :
  Registry sys -> NoDup (map_to_list (adsClients (server sys))).*2.
Proof.
  intros HR. apply NoDup_fmap_2_strong; [|apply NoDup_map_to_list].
  intros [k1 p1] [k2 p2] H1 H2. cbn. intros <-.
  apply elem_of_map_to_list in H1, H2.
  destruct (HR k1 p1 H1) as (_ & c1 & Hc1 & <- & _).
  destruct (HR k2 p1 H2) as (_ & c2 & Hc2 & <- & _).
  congruence.
Qed.

(** *** The broadcast in the reachable states *)

(** C4: in every state the server reaches, adsPushAll visits every client
    of the registry, whatever happens at the others, and writes nothing of
    a client but its two push times. A client that takes the signal has
    LastPush set to the time read and LastPushFailure cleared to zero; a
    client whose doneChannel fires is left as it is; for a client whose timer
    fires, LastPush stays and LastPushFailure is set to the time read when it
    was zero and left alone otherwise. The counter of push timeouts goes up
    by one for each client whose timer fires, the counter of short push
    errors by one for each of them that had no failure on record, and the
    counter of long push errors by one for each of them whose failure on
    record is more than ten seconds old; so a long push error is counted
    only when at least ten seconds have passed since LastPushFailure. *)
Theorem adsPushAll_accounting (evs : list Event) (benv : BroadcastEnv) :
  let sys := run evs initial in
  let r := adsPushAll benv (heap sys, server sys) in
  (forall k p,
     adsClients (server sys) !! k = Some p ->
     exists client client',
       heap sys !! p = Some client /\ r.1 !! p = Some client'
       /\ besidesPushTimes client' = besidesPushTimes client
       /\ match selectOutcome benv k with
          | Signalled now => LastPush client' = now /\ LastPushFailure client' = timeZero
          | DoneFired => client' = client
          | Deadline now =>
              LastPush client' = LastPush client
              /\ LastPushFailure client'
                 = if IsZero (LastPushFailure client) then now
                   else LastPushFailure client
          end)
  /\ pushTimeouts (metrics r.2)
     = pushTimeouts (metrics (server sys))
       + count (timedOut benv (heap sys)) (map_to_list (adsClients (server sys)))
  /\ vecGet "short" (pushErrors (metrics r.2))
     = vecGet "short" (pushErrors (metrics (server sys)))
       + count (firstFailure benv (heap sys)) (map_to_list (adsClients (server sys)))
  /\ vecGet "long" (pushErrors (metrics r.2))
     = vecGet "long" (pushErrors (metrics (server sys)))
       + count (repeatedFailure benv (heap sys)) (map_to_list (adsClients (server sys)))
  /\ (forall k p,
        repeatedFailure benv (heap sys) (k, p) = true ->
        exists now client,
          selectOutcome benv k = Deadline now /\ heap sys !! p = Some client
          /\ LastPushFailure client <> timeZero
          /\ 10 * Second <= now - LastPushFailure client).
Proof.
  intros sys r.
  pose proof (run_registry evs) as HR. fold sys in HR.
  destruct (adsPushAll_clients benv (heap sys) r.1 (server sys) r.2)
    as (Hcl & Hpt & Hsh & Hlo).
  { by apply registry_NoDup. }
  { subst r. by destruct (adsPushAll _ _). }
  split; [|split; [done|split; [done|split; [done|]]]].
  - intros k p Hk. destruct (HR k p Hk) as (_ & client & Hp & _).
    specialize (Hcl k p client Hk Hp).
    eexists client, _. split; [done|]. split; [exact Hcl|].
    destruct (selectOutcome benv k) as [now| |now].
    + cbn. done.
    + done.
    + destruct (IsZero (LastPushFailure client)) eqn:Hz; cbn; done.
  - intros k p Hrep. unfold repeatedFailure in Hrep. cbn in Hrep.
    destruct (selectOutcome benv k) as [|  |now]; try done.
    destruct (heap sys !! p) as [client|]; [|done].
    apply andb_true_iff in Hrep as [Hnz Hlt].
    exists now, client. repeat split.
    + unfold IsZero in Hnz. apply negb_true_iff, Z.eqb_neq in Hnz. done.
    + apply Z.ltb_lt in Hlt. lia.
Qed.

(** Where C4 applies: three registered streams. At the first broadcast, at
    100 s, the first takes the signal, the second is closing and the timer
    of the third fires. At a second broadcast, at 120 s, no client takes the
    signal: three push timeouts, two short push errors, and a long one for
    the third, whose failure on record is 20 s old. *)
Lemma adsPushAll_accounting_witness :
  let sys := run Scenario.threeStreams initial in
  let r1 := adsPushAll Scenario.broadcast1 (heap sys, server sys) in
  let sys1 := run Scenario.untilBroadcast1 initial in
  let r2 := adsPushAll Scenario.broadcast2 (heap sys1, server sys1) in
  (LastPush <$> r1.1 !! 0%nat = Some (100 * Second)
   /\ LastPushFailure <$> r1.1 !! 0%nat = Some timeZero
   /\ r1.1 !! 1%nat = heap sys !! 1%nat
   /\ LastPushFailure <$> r1.1 !! 2%nat = Some (100 * Second)
   /\ pushTimeouts (metrics r1.2) = pushTimeouts (metrics (server sys)) + 1)
  /\ pushTimeouts (metrics r2.2) = pushTimeouts (metrics (server sys1)) + 3
  /\ vecGet "short" (pushErrors (metrics r2.2))
     = vecGet "short" (pushErrors (metrics (server sys1))) + 2
  /\ vecGet "long" (pushErrors (metrics r2.2))
     = vecGet "long" (pushErrors (metrics (server sys1))) + 1
  /\ LastPushFailure <$> r2.1 !! 0%nat = Some (120 * Second)
  /\ LastPushFailure <$> r2.1 !! 2%nat = Some (100 * Second).
Proof.
  cbn zeta. split.
  - destruct (adsPushAll_accounting Scenario.threeStreams Scenario.broadcast1)
      as (Hcl & Hpt & _).
    destruct (Hcl (Scenario.conID 1) 0%nat) as (c0 & c0' & H0 & H0' & _ & Hs0);
      [vm_compute; reflexivity|].
    destruct (Hcl (Scenario.conID 2) 1%nat) as (c1 & c1' & H1 & H1' & _ & Hs1);
      [vm_compute; reflexivity|].
    destruct (Hcl (Scenario.conID 3) 2%nat) as (c2 & c2' & H2 & H2' & _ & Hs2);
      [vm_compute; reflexivity|].
    rewrite H0', H1', H2', H1, Hpt. cbn [fmap option_fmap option_map].
    change (selectOutcome Scenario.broadcast1 (Scenario.conID 1))
      with (Signalled (100 * Second)) in Hs0.
    change (selectOutcome Scenario.broadcast1 (Scenario.conID 2)) with DoneFired in Hs1.
    change (selectOutcome Scenario.broadcast1 (Scenario.conID 3))
      with (Deadline (100 * Second)) in Hs2.
    destruct Hs0 as [-> ->]. destruct Hs2 as [_ ->]. rewrite Hs1.
    assert (LastPushFailure c2 = timeZero) as ->.
    { assert (H : LastPushFailure <$> Some c2 = Some timeZero)
        by (rewrite <- H2; vm_compute; reflexivity).
      by injection H. }
    repeat split; vm_compute; reflexivity.
  - destruct (adsPushAll_accounting Scenario.untilBroadcast1 Scenario.broadcast2)
      as (Hcl & Hpt & Hsh & Hlo & _).
    split; [rewrite Hpt; vm_compute; reflexivity|].
    split; [rewrite Hsh; vm_compute; reflexivity|].
    split; [rewrite Hlo; vm_compute; reflexivity|].
    destruct (Hcl (Scenario.conID 1) 0%nat) as (c0 & c0' & H0 & H0' & _ & Hs0);
      [vm_compute; reflexivity|].
    destruct (Hcl (Scenario.conID 3) 2%nat) as (c2 & c2' & H2 & H2' & _ & Hs2);
      [vm_compute; reflexivity|].
    rewrite H0', H2'. cbn [fmap option_fmap option_map].
    change (selectOutcome Scenario.broadcast2 (Scenario.conID 1))
      with (Deadline (120 * Second)) in Hs0.
    change (selectOutcome Scenario.broadcast2 (Scenario.conID 3))
      with (Deadline (120 * Second)) in Hs2.
    destruct Hs0 as [_ ->]. destruct Hs2 as [_ ->].
    assert (LastPushFailure c0 = timeZero) as ->.
    { assert (H : LastPushFailure <$> Some c0 = Some timeZero)
        by (rewrite <- H0; vm_compute; reflexivity).
      by injection H. }
    assert (LastPushFailure c2 = 100 * Second) as ->.
    { assert (H : LastPushFailure <$> Some c2 = Some (100 * Second))
        by (rewrite <- H2; vm_compute; reflexivity).
      by injection H. }
    split; reflexivity.
Defined.

(** *** The index of the watched clusters *)

(** When a step closes the doneChannel of a registered stream, no name of
    its watch list has an entry under its connection id any more. *)
Lemma step_teardown (ev : Event) (sys : System) (p : loc) (c c' : XdsConnection) :
  heap sys !! p = Some c -> doneChannelClosed c = false ->
  heap (step ev sys) !! p = Some c' -> doneChannelClosed c' = true ->
  added c' = true ->
  forall n, n ∈ Clusters c' -> indexOf (server (step ev sys)) n (ConID c') = None.
Proof.
  intros Hp Hlive Hp' Hclosed Hadded n Hn.
  assert (Hround : forall q handler,
    (forall x flow x1, handler x = (flow, x1) -> HandlerEffect q x x1) ->
    heap (runHandler q handler sys) !! p = Some c' ->
    indexOf (server (runHandler q handler sys)) n (ConID c') = None).
  { intros q handler Hh Hq. unfold runHandler in *.
    destruct (heap sys !! q) as [con|] eqn:Hcon; [|congruence].
    destruct (doneChannelClosed con) eqn:Hd; [congruence|].
    destruct (handler _) as [flow x1] eqn:Hr. apply Hh in Hr as (Hsame & _). cbn in *.
    destruct (decide (q = p)) as [->|Hne].
    2: { rewrite lookup_insert_ne in Hq by done. congruence. }
    rewrite lookup_insert_eq in Hq. injection Hq as <-.
    destruct (teardown_effect p x1) as (Ht1 & Ht2 & Ht3 & _ & _ & Ht6).
    assert (Htd : (match flow with Continue => x1 | _ => teardown p x1 end) = teardown p x1).
    { destruct flow; try done. congruence. }
    rewrite Htd in *. rewrite Ht3 in Hadded. rewrite Hadded in Ht6.
    rewrite (indexOf_ext _ _ _ _ Ht6), indexOf_removeEdsCons, Ht1.
    rewrite decide_True; [done|]. split; [|done]. by rewrite <- Ht2. }
  unfold step in *. destruct (crashed sys); [congruence|].
  destruct ev as [peerAddr now|q discReq env|q env|q err|benv].
  - cbn in *. destruct (decide (p = nextLoc sys)) as [->|Hne].
    + rewrite lookup_insert_eq in Hp'. injection Hp' as <-. done.
    + rewrite lookup_insert_ne in Hp' by done. congruence.
  - apply Hround; [|done]. intros x flow x1. apply handleRequest_handler.
  - apply Hround; [|done]. intros x flow x1. apply handlePush_handler.
  - apply Hround; [|done]. intros x flow x1 [= _ <-].
    split; [done|]. split; by left.
  - exfalso.
    destruct (adsPushAll benv (heap sys, server sys)) as [h s] eqn:Hb.
    unfold adsPushAll in Hb.
    destruct (pushLoop_frame benv (map_to_list (adsClients (updateClusters benv (server sys))))
                (heap sys) (updateClusters benv (server sys))) as [_ Hv].
    rewrite Hb in Hv. specialize (Hv p). cbn in Hv, Hp'. rewrite Hp, Hp' in Hv.
    unfold view in Hv. injection Hv as _ _ Hv. congruence.
Qed.

(** The endpoint case calls addEdsCon for the names of the request and
    never removeEdsCon: a request takes the connection out of no index
    entry, whatever names it asks for. *)
Lemma request_keeps_entries (sys : System) (p : loc) (discReq : DiscoveryRequest)
    (env : PushEnv) (c c' : XdsConnection) (n : string) :
  heap sys !! p = Some c -> ConID c <> "" ->
  heap (step (EvRequest p discReq env) sys) !! p = Some c' ->
  doneChannelClosed c' = false ->
  indexOf (server sys) n (ConID c) = Some p ->
  indexOf (server (step (EvRequest p discReq env) sys)) n (ConID c') = Some p.
Proof.
  intros Hp Hid Hp' Hlive Hix. unfold step in *.
  destruct (crashed sys); [congruence|]. unfold runHandler in *. rewrite Hp in *.
  destruct (doneChannelClosed c) eqn:Hd; [congruence|].
  destruct (handleRequest p env discReq _) as [flow x1] eqn:Hr.
  cbn in *. rewrite lookup_insert_eq in Hp'. injection Hp' as <-.
  destruct (teardown_effect p x1) as (_ & _ & _ & Ht4 & _).
  assert (flow = Continue) as -> by (destruct flow; [done|congruence..]).
  apply handleRequest_effect in Hr as (_ & Hcid & Hcl). cbn in *.
  assert (ConID (cCon x1) = ConID c) as Hsame by (destruct Hcid as [[? _]|[? _]]; done).
  destruct Hcl as [[_ He]|(_ & _ & He)].
  - by rewrite (indexOf_ext _ _ _ _ He), Hsame.
  - rewrite (indexOf_ext _ _ _ _ He), indexOf_addEdsCons.
    case_decide; [done|]. by rewrite Hsame.
Qed.

(** In every state the server reaches, every cluster name in the watch list
    of a live connection has that connection in its index entry, under the
    connection id. *)
Lemma eds_index_watched (evs : list Event) (p : loc) (c : XdsConnection) (n : string) :
  heap (run evs initial) !! p = Some c -> doneChannelClosed c = false ->
  n ∈ Clusters c ->
  indexOf (server (run evs initial)) n (ConID c) = Some p.
Proof.
  pose proof (run_inv evs initial Inv_initial) as (_ & _ & _ & _ & I5). apply I5.
Qed.

(** C1 (the code at the failing input): a stream asks for the endpoints of
    a and b, then for those of c alone, and then its request channel is
    closed. After the first request it is in the index entries of a and b.
    The second request drops a and b from its watch list and enters it under
    c; it is still in the entries of a and b: the endpoint case calls
    addEdsCon only. When the stream function returns, removeCon takes it out
    of the registry and, walking the watch list of that time, out of the
    entry of c; the entries of a and b still hold the closed connection. *)
Theorem eds_index_keeps_dropped_names :
  let sys1 := run Scenario.streamWatchingAB initial in
  let sys2 := run Scenario.streamDroppingAB initial in
  let sys3 := run Scenario.streamDroppingABClosed initial in
  let id := Scenario.conID 1 in
  view <$> heap sys1 !! 0%nat = Some (id, ["a"; "b"], false)
  /\ indexOf (server sys1) "a" id = Some 0%nat
  /\ indexOf (server sys1) "b" id = Some 0%nat
  /\ view <$> heap sys2 !! 0%nat = Some (id, ["c"], false)
  /\ indexOf (server sys2) "c" id = Some 0%nat
  /\ indexOf (server sys2) "a" id = Some 0%nat
  /\ indexOf (server sys2) "b" id = Some 0%nat
  /\ adsClients (server sys2) !! id = Some 0%nat
  /\ view <$> heap sys3 !! 0%nat = Some (id, ["c"], true)
  /\ added <$> heap sys3 !! 0%nat = Some true
  /\ adsClients (server sys3) !! id = None
  /\ indexOf (server sys3) "c" id = None
  /\ indexOf (server sys3) "a" id = Some 0%nat
  /\ indexOf (server sys3) "b" id = Some 0%nat.
Proof. vm_compute. repeat split. Qed.

(** The teardown of a stream that never got into the registry runs no
    removeCon: when the push of the first request fails, the stream function
    returns before the registration, and the index entry of a keeps the
    closed stream. *)
Example unregistered_stream_stays_indexed :
  let sys := run Scenario.streamFailingFirstPush initial in
  (doneChannelClosed <$> heap sys !! 0%nat) = Some true
  /\ (added <$> heap sys !! 0%nat) = Some false
  /\ indexOf (server sys) "a" (Scenario.conID 1) = Some 0%nat.
Proof. vm_compute. repeat split. Qed.

(** *** More of the stream loop and of the registry *)

(** X9: in every state the server reaches, an entry of the registry is a
    stream whose loop is running and that has been registered, filed under
    its connection id, which is set; and no connection is in the registry
    twice. *)
Theorem registry_entries_are_live (evs : list Event) :
  let sys := run evs initial in
  (forall k p,
     adsClients (server sys) !! k = Some p ->
     k <> ""
     /\ exists c, heap sys !! p = Some c /\ ConID c = k /\ added c = true
                  /\ doneChannelClosed c = false)
  /\ NoDup (map_to_list (adsClients (server sys))).*2.
Proof.
  intros sys. split.
  - apply run_registry.
  - apply registry_NoDup, run_registry.
Qed.

(** Where X9 applies: the first of three registered streams. *)
Lemma registry_entries_are_live_witness :
  exists c, heap (run Scenario.threeStreams initial) !! 0%nat = Some c
            /\ ConID c = Scenario.conID 1 /\ added c = true
            /\ doneChannelClosed c = false.
Proof.
  destruct (registry_entries_are_live Scenario.threeStreams) as [H _].
  destruct (H (Scenario.conID 1) 0%nat) as (_ & c & Hc); [vm_compute; reflexivity|].
  by exists c.
Defined.


(** X11: addCon files the connection in the registry under the connection
    id, sets the gauge of clients to the size of the registry and, when the
    node of the connection is stored, files the connection under the node id
    as well; the index is not touched. removeCon takes the connection id out
    of the registry, sets the gauge to the size of the registry, takes the
    connection id out of the connections of the node, and logs an error when
    the registry had no such entry. *)
Theorem addCon_removeCon_tables (conID : string) (p : loc) (con : XdsConnection)
    (s : Server) :
  let s1 := addCon conID p con s in
  let s2 := removeCon conID p con s in
  adsClients s1 = <[conID := p]> (adsClients s)
  /\ xdsClients (metrics s1) = Z.of_nat (size (adsClients s1))
  /\ edsClusters s1 = edsClusters s
  /\ (forall node, modelNode con = Some node ->
        exists m, adsSidecarIDConnectionsMap s1 !! ID node = Some m
                  /\ m !! conID = Some p)
  /\ adsClients s2 = delete conID (adsClients s)
  /\ xdsClients (metrics s2) = Z.of_nat (size (adsClients s2))
  /\ (forall node m, modelNode con = Some node ->
        adsSidecarIDConnectionsMap s2 !! ID node = Some m -> m !! conID = None)
  /\ adsLog s2
     = adsLog s ++ match adsClients s !! conID with
                   | None => [LogError "ADS: Removing connection for non-existing node"]
                   | Some _ => []
                   end.
Proof.
  cbn zeta.
  assert (Hfold : forall l s0,
            let s' := foldl (fun s c => removeEdsCon c conID p s) s0 l in
            adsClients s' = adsClients s0
            /\ adsSidecarIDConnectionsMap s' = adsSidecarIDConnectionsMap s0
            /\ adsLog s' = adsLog s0).
  { induction l as [|c l IH]; intros s0; [done|]. cbn [foldl]. cbn zeta.
    destruct (IH (removeEdsCon c conID p s0)) as (-> & -> & ->).
    unfold removeEdsCon. by destruct (edsClusters s0 !! c). }
  split; [|split; [|split; [|split; [|split; [|split; [|split]]]]]].
  - unfold addCon. cbn. destruct (modelNode con) as [node|]; cbn; [|done].
    by destruct (_ !! ID node).
  - unfold addCon. cbn. destruct (modelNode con) as [node|]; cbn; [|done].
    by destruct (_ !! ID node).
  - unfold addCon. cbn. destruct (modelNode con) as [node|]; cbn; [|done].
    by destruct (_ !! ID node).
  - intros node Hn. unfold addCon. rewrite Hn. cbn.
    destruct (adsSidecarIDConnectionsMap s !! ID node) as [m|]; cbn.
    + exists (<[conID := p]> m). by rewrite !lookup_insert_eq.
    + exists {[conID := p]}. rewrite lookup_insert_eq. split; [done|].
      apply lookup_singleton_eq.
  - apply removeCon_adsClients.
  - unfold removeCon.
    destruct (Hfold (Clusters con) s) as (Hc & _ & _). cbn zeta in Hc.
    destruct (adsClients _ !! conID); destruct (modelNode con) as [node|]; cbn;
      try destruct (_ !! ID node); cbn; done.
  - intros node m Hn. unfold removeCon. rewrite Hn.
    destruct (Hfold (Clusters con) s) as (_ & Hm & _). cbn zeta in Hm.
    destruct (adsClients _ !! conID); cbn; rewrite Hm;
      destruct (adsSidecarIDConnectionsMap s !! ID node) as [m0|] eqn:H0; cbn;
      rewrite ?Hm, ?lookup_insert_eq, ?H0; try done;
      intros [= <-]; apply lookup_delete_eq.
  - unfold removeCon.
    destruct (Hfold (Clusters con) s) as (Hc & _ & Hl). cbn zeta in Hc, Hl.
    rewrite Hc.
    destruct (adsClients s !! conID); destruct (modelNode con) as [node|]; cbn;
      try destruct (_ !! ID node); cbn; rewrite ?Hl, ?app_nil_r; done.
Qed.





End AdsFacts.

(** ** v1: virtual hosts and TCP routes *)
(** ** v1: sharedHost, BuildVirtualHost, BuildTCPRoute *)
Module V1RouteFacts.
Import Model V1 V1Route.

(** The element at depth [S k] from the end is the element at index [k] of
    the reversed list. *)
Lemma fromEnd_reverse (host : list string) (k : nat) :
  fromEnd host (S k) = reverse host !! k.
Proof.
  unfold fromEnd. case_decide as Hk.
  - rewrite reverse_lookup by lia. done.
  - symmetry. apply lookup_ge_None. rewrite length_reverse. lia.
Qed.

(** The inner loop past the first host. *)
Lemma sharedAt_rest (k j : nat) (part : string) (rest : list (list string)) :
  j <> 0%nat ->
  match sharedAt (S k) j part rest with
  | Some (part', true) =>
      part' = part /\ Forall (fun h => reverse h !! k = Some part) rest
  | Some (part', false) =>
      part' = part
      /\ exists h hp, h ∈ rest /\ reverse h !! k = Some hp /\ hp <> part
  | None => exists h, h ∈ rest /\ reverse h !! k = None
  end.
Proof.
  revert j. induction rest as [|h rest IH]; intros j Hj; cbn [sharedAt].
  { split; [done|constructor]. }
  rewrite fromEnd_reverse.
  destruct (reverse h !! k) as [hp|] eqn:Hh.
  2: { exists h. split; [left|done]. }
  rewrite decide_False by done.
  destruct (decide (part <> hp)) as [Hne|Heq].
  { split; [done|]. exists h, hp. split; [left|]. split; [done|]. congruence. }
  assert (hp = part) as -> by (destruct (decide (part = hp)); [done|tauto]).
  specialize (IH (S j) ltac:(lia)).
  destruct (sharedAt (S k) (S j) part rest) as [[part' []]|].
  - destruct IH as [-> IH]. split; [done|]. by constructor.
  - destruct IH as (-> & h' & hp & Hin & Hl & Hne). split; [done|].
    exists h', hp. split; [by right|done].
  - destruct IH as (h' & Hin & Hl). exists h'. split; [by right|done].
Qed.

(** One round of the outer loop. *)
Lemma sharedAt_first (k : nat) (d : string) (p0 : list string)
    (rest : list (list string)) :
  match sharedAt (S k) 0 d (p0 :: rest) with
  | Some (part, true) =>
      Forall (fun h => reverse h !! k = Some part) (p0 :: rest)
  | Some (part, false) =>
      reverse p0 !! k = Some part
      /\ exists h hp, h ∈ rest /\ reverse h !! k = Some hp /\ hp <> part
  | None => exists h, h ∈ p0 :: rest /\ reverse h !! k = None
  end.
Proof.
  cbn [sharedAt]. rewrite fromEnd_reverse.
  destruct (reverse p0 !! k) as [part|] eqn:H0.
  2: { exists p0. split; [left|done]. }
  rewrite decide_True by done.
  pose proof (sharedAt_rest k 1 part rest ltac:(lia)) as Hr.
  destruct (sharedAt (S k) 1 part rest) as [[part' []]|].
  - destruct Hr as [-> Hr]. by constructor.
  - destruct Hr as [-> Hr]. done.
  - destruct Hr as (h & Hin & Hl). exists h. split; [by right|done].
Qed.

Lemma agree_step parts k out part :
  agree parts k out ->
  Forall (fun h => reverse h !! k = Some part) parts ->
  agree parts (S k) (out ++ [part]).
Proof.
  intros [Hlen Hall] Hf. split.
  - rewrite length_app. cbn. lia.
  - intros p Hp. rewrite Forall_forall in Hf.
    rewrite (take_S_r _ _ part) by (by apply Hf). by rewrite Hall.
Qed.

(** The outer loop: it ends at the full depth of the first host or at the
    first depth where two hosts differ, or it runs out of range at a host
    that is as long as the depth reached. *)
Lemma sharedLoop_spec (p0 : list string) (rest : list (list string)) (n k : nat)
    (out : list string) :
  agree (p0 :: rest) k out ->
  (n + k)%nat = length p0 ->
  match sharedLoop n (S k) (p0 :: rest) out with
  | Some out' =>
      exists k', agree (p0 :: rest) k' out'
        /\ (k' = length p0
            \/ exists h hp part, h ∈ rest /\ reverse p0 !! k' = Some part
                                 /\ reverse h !! k' = Some hp /\ hp <> part)
  | None =>
      exists k' out' h, (k' < length p0)%nat /\ agree (p0 :: rest) k' out'
                        /\ h ∈ rest /\ length h = k'
  end.
Proof.
  revert k out. induction n as [|n IH]; intros k out Hag Hn; cbn [sharedLoop].
  { exists k. split; [done|]. left. lia. }
  pose proof (sharedAt_first k "" p0 rest) as Hs.
  destruct (sharedAt (S k) 0 "" (p0 :: rest)) as [[part []]|].
  - apply IH; [by apply agree_step|lia].
  - exists k. split; [done|]. right. destruct Hs as (H0 & h & hp & Hin & Hl & Hne).
    by exists h, hp, part.
  - destruct Hs as (h & Hin & Hl). exists k, out, h.
    apply lookup_ge_None in Hl. rewrite length_reverse in Hl.
    apply elem_of_cons in Hin as [->|Hin]; [lia|].
    split; [lia|]. split; [done|]. split; [done|].
    destruct Hag as [Hlen Hall].
    specialize (Hall h ltac:(by right)).
    apply (f_equal length) in Hall. rewrite length_take, length_reverse in Hall. lia.
Qed.

Lemma agree_nil parts : agree parts 0 [].
Proof. split; [done|]. intros p _. by rewrite take_0. Qed.

Lemma agree_suffix parts k out p :
  agree parts k out -> p ∈ parts -> reverse out `suffix_of` p.
Proof.
  intros [_ Hall] Hp. apply suffix_prefix_reverse.
  rewrite reverse_involutive, <- (Hall p Hp). apply prefix_take.
Qed.

(** What sharedHost returns is a suffix of every host. *)
Lemma sharedHost_suffix (parts : list (list string)) (s : list string) :
  parts <> [] ->
  sharedHost parts = Some s ->
  forall p, p ∈ parts -> s `suffix_of` p.
Proof.
  intros Hne Hs. destruct parts as [|p0 [|p1 rest]]; [done| |].
  { injection Hs as <-. intros p Hp. apply list_elem_of_singleton in Hp as ->. done. }
  cbn [sharedHost] in Hs.
  pose proof (sharedLoop_spec p0 (p1 :: rest) (length p0) 0 [] (agree_nil _) ltac:(lia))
    as Hl.
  destruct (sharedLoop (length p0) 1 (p0 :: p1 :: rest) []) as [out|]; [|done].
  injection Hs as <-. destruct Hl as (k & Hag & _).
  intros p Hp. by eapply agree_suffix.
Qed.

(** X1: sharedHost, when it returns, gives the longest common suffix of the
    hosts it is given: the result is a suffix of every host, and every list
    that is a suffix of every host is a suffix of the result. *)
Theorem sharedHost_longest_common_suffix (parts : list (list string))
    (s : list string) :
  parts <> [] ->
  sharedHost parts = Some s ->
  (forall p, p ∈ parts -> s `suffix_of` p)
  /\ (forall t, (forall p, p ∈ parts -> t `suffix_of` p) -> t `suffix_of` s).
Proof.
  intros Hne Hs. split; [by apply sharedHost_suffix|].
  destruct parts as [|p0 [|p1 rest]]; [done| |].
  { injection Hs as <-. intros t Ht. apply Ht. left. }
  cbn [sharedHost] in Hs.
  pose proof (sharedLoop_spec p0 (p1 :: rest) (length p0) 0 [] (agree_nil _) ltac:(lia))
    as Hl.
  destruct (sharedLoop (length p0) 1 (p0 :: p1 :: rest) []) as [out|]; [|done].
  injection Hs as <-. destruct Hl as (k & Hag & Hend).
  intros t Ht. apply suffix_prefix_reverse. rewrite reverse_involutive.
  destruct Hag as [Hlen Hall].
  assert (Ht0 : reverse t `prefix_of` reverse p0).
  { apply prefix_suffix_reverse. rewrite !reverse_involutive. apply Ht. left. }
  rewrite <- (Hall p0 ltac:(left)).
  assert (Hk : (length t <= k)%nat).
  { destruct Hend as [->|(h & hp & part & Hin & H0 & Hh & Hne')].
    - apply prefix_length in Ht0. by rewrite !length_reverse in Ht0.
    - destruct (decide (length t <= k)%nat) as [|Hgt]; [done|exfalso].
      assert (Hth : reverse t `prefix_of` reverse h).
      { apply prefix_suffix_reverse. rewrite !reverse_involutive. apply Ht.
        by right. }
      destruct (lookup_lt_is_Some_2 (reverse t) k) as [x Hx].
      { rewrite length_reverse. lia. }
      pose proof (prefix_lookup_Some _ _ _ _ Hx Ht0) as Hx0.
      pose proof (prefix_lookup_Some _ _ _ _ Hx Hth) as Hxh.
      congruence. }
  destruct Ht0 as [u Hu]. rewrite Hu, take_app, take_ge by (rewrite length_reverse; lia).
  by eexists.
Qed.

(** Where the hypotheses of X1 hold: the domain suffix of a proxy and the
    labels of a host name of another namespace. *)
Lemma sharedHost_longest_common_suffix_witness :
  (forall p, p ∈ [["ns"; "svc"; "cluster"; "local"]; ["a"; "other"; "svc"; "cluster"; "local"]] ->
             ["svc"; "cluster"; "local"] `suffix_of` p)
  /\ (forall t,
        (forall p, p ∈ [["ns"; "svc"; "cluster"; "local"];
                        ["a"; "other"; "svc"; "cluster"; "local"]] -> t `suffix_of` p) ->
        t `suffix_of` ["svc"; "cluster"; "local"]).
Proof.
  apply (sharedHost_longest_common_suffix
           [["ns"; "svc"; "cluster"; "local"]; ["a"; "other"; "svc"; "cluster"; "local"]]
           ["svc"; "cluster"; "local"]).
  - discriminate.
  - vm_compute. reflexivity.
Defined.

(** X2: called with two hosts, as BuildVirtualHost calls it, sharedHost runs
    out of range exactly when the second host is a proper suffix of the
    first: the loop goes as deep as the first host is long, and reads the
    second host at every depth. *)
Theorem sharedHost_out_of_range (a b : list string) :
  sharedHost [a; b] = None <-> (length b < length a)%nat /\ b `suffix_of` a.
Proof.
  cbn [sharedHost].
  pose proof (sharedLoop_spec a [b] (length a) 0 [] (agree_nil _) ltac:(lia)) as Hl.
  destruct (sharedLoop (length a) 1 [a; b] []) as [out|]; cbn.
  - split; [done|]. intros [Hlen Hsuf]. exfalso.
    destruct Hl as (k & [Hk Hall] & Hend).
    assert (Hpre : reverse b `prefix_of` reverse a).
    { apply prefix_suffix_reverse. by rewrite !reverse_involutive. }
    destruct Hend as [->|(h & hp & part & Hin & H0 & Hh & Hne)].
    + specialize (Hall b ltac:(right; left)).
      apply (f_equal length) in Hall. rewrite length_take, length_reverse in Hall. lia.
    + apply list_elem_of_singleton in Hin as ->.
      pose proof (prefix_lookup_Some _ _ _ _ Hh Hpre). congruence.
  - split; [|done]. intros _.
    destruct Hl as (k & out & h & Hlt & [Hk Hall] & Hin & Hlen).
    apply list_elem_of_singleton in Hin as ->. split; [lia|].
    apply suffix_prefix_reverse.
    pose proof (Hall a ltac:(left)) as Ha. pose proof (Hall b ltac:(right; left)) as Hb.
    rewrite take_ge in Hb by (rewrite length_reverse; lia).
    rewrite Hb, <- Ha. apply prefix_take.
Qed.

(** The domain suffix of the proxy is longer than the host name, and ends in
    it. *)
Example sharedHost_out_of_range_at :
  sharedHost [["ns"; "svc"; "cluster"; "local"]; ["svc"; "cluster"; "local"]] = None.
Proof. reflexivity. Qed.

(** *** strings.Split and strings.Join *)

Lemma rev_app_app (s t u : string) :
  String.rev_app s t +:+ u = String.rev_app s (t +:+ u).
Proof. revert t. induction s as [|a s IH]; intros t; cbn; [done|]. by rewrite IH. Qed.

Lemma rev_app_nonempty (s t : string) : t <> "" -> String.rev_app s t <> "".
Proof. revert t. induction s as [|a s IH]; intros t Ht; cbn; [done|]. by apply IH. Qed.

Lemma SplitGo_cons (sep : ascii) (cur s : string) :
  exists x r, Go.SplitGo sep cur s = x :: r.
Proof.
  revert cur. induction s as [|a s IH]; intros cur; cbn; [by eexists _, _|].
  destruct (Ascii.eqb a sep); [by eexists _, _|apply IH].
Qed.

(** Joining the pieces of a split with the separator gives the string
    back. *)
Lemma Join_SplitGo (sep : ascii) (cur s : string) :
  GoStrings.Join (Go.SplitGo sep cur s) (String sep "") = String.rev cur +:+ s.
Proof.
  revert cur. induction s as [|a s IH]; intros cur; cbn [Go.SplitGo].
  { cbn. by rewrite V1Facts.append_nil_r. }
  destruct (Ascii.eqb a sep) eqn:Ha.
  - apply Ascii.eqb_eq in Ha as ->.
    destruct (SplitGo_cons sep "" s) as (x & r & Hx).
    specialize (IH ""). rewrite Hx in *.
    change (GoStrings.Join (String.rev cur :: x :: r) (String sep ""))
      with (String.rev cur +:+ String sep "" +:+ GoStrings.Join (x :: r) (String sep "")).
    rewrite IH. done.
  - rewrite IH. unfold String.rev. cbn [String.rev_app].
    rewrite !rev_app_app. done.
Qed.

Lemma Join_Split (s : string) (sep : ascii) :
  GoStrings.Join (Go.Split s sep) (String sep "") = s.
Proof. unfold Go.Split. by rewrite Join_SplitGo. Qed.

(** The first piece of a split is not empty when the string does not begin
    with the separator. *)
Lemma SplitGo_head (sep : ascii) (cur s : string) :
  cur <> "" -> exists x r, Go.SplitGo sep cur s = x :: r /\ x <> "".
Proof.
  revert cur. induction s as [|a s IH]; intros cur Hc; cbn.
  - eexists _, _. split; [done|]. destruct cur as [|c cur]; [done|].
    unfold String.rev. cbn. by apply rev_app_nonempty.
  - destruct (Ascii.eqb a sep).
    + eexists _, _. split; [done|]. destruct cur as [|c cur]; [done|].
      unfold String.rev. cbn. by apply rev_app_nonempty.
    + by apply IH.
Qed.

Lemma Split_head (a sep : ascii) (s : string) :
  a <> sep -> exists x r, Go.Split (String a s) sep = x :: r /\ x <> "".
Proof.
  intros Ha. unfold Go.Split. cbn.
  destruct (Ascii.eqb a sep) eqn:He; [by apply Ascii.eqb_eq in He|].
  by apply SplitGo_head.
Qed.

Lemma append_assoc (s t u : string) : (s +:+ t) +:+ u = s +:+ t +:+ u.
Proof.
  induction s as [|a s IH]; [done|].
  rewrite !V1Facts.append_cons. by rewrite IH.
Qed.

Lemma Join_snoc (l : list string) (x sep : string) :
  l <> [] -> GoStrings.Join (l ++ [x]) sep = GoStrings.Join l sep +:+ sep +:+ x.
Proof.
  induction l as [|e l IH]; [done|]. intros _. destruct l as [|e' l]; [done|].
  change ((e :: e' :: l) ++ [x]) with (e :: ((e' :: l) ++ [x])).
  change (GoStrings.Join (e :: (e' :: l) ++ [x]) sep)
    with (e +:+ sep +:+ GoStrings.Join ((e' :: l) ++ [x]) sep).
  rewrite IH by done.
  change (GoStrings.Join (e :: e' :: l) sep)
    with (e +:+ sep +:+ GoStrings.Join (e' :: l) sep).
  by rewrite !append_assoc.
Qed.

(** *** BuildVirtualHost *)

Lemma length_pos_nonempty (s : string) : (0 < String.length s)%nat <-> s <> "".
Proof. destruct s; cbn; split; (done || lia). Qed.

Lemma Join_nonempty (l : list string) (sep : string) :
  (forall x r, l = x :: r -> x <> "") -> l <> [] -> GoStrings.Join l sep <> "".
Proof.
  intros Hhd Hne. destruct l as [|x r]; [done|].
  specialize (Hhd x r eq_refl). destruct x as [|c x]; [done|].
  destruct r; [done|]. cbn [GoStrings.Join]. by rewrite V1Facts.append_cons.
Qed.

(** The loop over the shared parts: from the joined unshared labels on, it
    collects the host name cut after each further label. *)
Lemma extendHost_spec (parts : list string) :
  (forall x r, parts = x :: r -> x <> "") ->
  forall (shared pre hs : list string),
    parts = pre ++ shared ->
    foldl extendHost (GoStrings.Join pre ".", hs) shared
    = (GoStrings.Join parts ".",
       hs ++ map (fun i => GoStrings.Join (take (length pre + i) parts) ".")
                 (seq 1 (length shared))).
Proof.
  intros Hhd shared. induction shared as [|x sh IH]; intros pre hs Hp.
  { cbn. rewrite app_nil_r in *. by subst. }
  cbn [foldl length].
  assert (Hstep : extendHost (GoStrings.Join pre ".", hs) x
                  = (GoStrings.Join (pre ++ [x]) ".",
                     hs ++ [GoStrings.Join (pre ++ [x]) "."])).
  { unfold extendHost. destruct (decide (pre = [])) as [->|Hne].
    - cbn. done.
    - assert (GoStrings.Join pre "." <> "") as Hj.
      { apply Join_nonempty; [|done]. intros y r ->. apply (Hhd y (r ++ x :: sh)).
        by rewrite Hp. }
      rewrite decide_True by (by apply length_pos_nonempty).
      rewrite Join_snoc by done. by rewrite append_assoc. }
  rewrite Hstep. rewrite (IH (pre ++ [x])) by (by rewrite <- app_assoc).
  f_equal. rewrite <- app_assoc. f_equal. cbn [seq map app].
  f_equal.
  - f_equal. symmetry. rewrite Hp. rewrite (cons_middle x pre sh), app_assoc.
    replace (length pre + 1)%nat with (length (pre ++ [x]))
      by (rewrite length_app; cbn; lia).
    by rewrite take_app_length.
  - rewrite <- (seq_shift (length sh) 1), map_map. apply map_ext.
    intros i. rewrite length_app. cbn. do 2 f_equal. lia.
Qed.


(** *** BuildTCPRoute *)


Lemma containsChar_append (c : ascii) (s t : string) :
  Go.containsChar c (s +:+ t) = Go.containsChar c s || Go.containsChar c t.
Proof.
  induction s as [|a s IH]; [done|].
  rewrite V1Facts.append_cons. cbn. destruct (Ascii.eqb a c); [done|apply IH].
Qed.

Lemma SortStrings_Permutation (l l' : list string) :
  l ≡ₚ l' -> GoStrings.SortStrings l = GoStrings.SortStrings l'.
Proof.
  intros Hp. unfold GoStrings.SortStrings.
  apply (Sorted_unique String.le); [apply Sorted_merge_sort, _..|].
  by rewrite !merge_sort_Permutation.
Qed.


(** Two addresses out of order, one of them a range. *)
Example BuildTCPRoute_at (cluster : Cluster) :
  DestinationIPList (BuildTCPRoute cluster ["10.1.0.0/16"; "10.0.0.7"]).1
  = ["10.0.0.7/32"; "10.1.0.0/16"].
Proof. vm_compute. reflexivity. Qed.

End V1RouteFacts.

(** ** Eureka: the conversion of applications *)
(** ** eureka: the conversion of applications to services and instances *)
Module EurekaFacts.
Import Model Eureka.

Section General.
Variable ParseProtocol : string -> Protocol.
Variable statusUp : string.
Variable GetByPort : list Port -> Z -> option Port.
Hypothesis GetByPort_ok : looksUpByNumber GetByPort.

#[local] Abbreviation convertProtocol := (convertProtocol ParseProtocol).
#[local] Abbreviation convertPorts := (convertPorts ParseProtocol).
#[local] Abbreviation addPort := (addPort GetByPort).
#[local] Abbreviation convertInstance := (convertInstance ParseProtocol statusUp GetByPort).
#[local] Abbreviation convertServices := (convertServices ParseProtocol statusUp GetByPort).
#[local] Abbreviation instancesOf := (instancesOf ParseProtocol statusUp).
#[local] Abbreviation convertServiceInstances := (convertServiceInstances ParseProtocol statusUp).
#[local] Abbreviation counted := (counted statusUp).
#[local] Abbreviation servicesOf := (servicesOf ParseProtocol statusUp).

Lemma convertLabels_special (md : metadata) :
  convertLabels md !! "istio.protocol" = None /\ convertLabels md !! "@class" = None.
Proof.
  unfold convertLabels, protocolMetadata. split.
  - rewrite lookup_delete_ne by done. apply lookup_delete_eq.
  - apply lookup_delete_eq.
Qed.

(** X5: convertLabels keeps every label of the metadata but the two special
    ones, istio.protocol and @class, which it never returns; nil metadata
    gives no labels. *)
Theorem convertLabels_lookup (md : metadata) (k : string) :
  convertLabels md !! k
  = if decide (k = "istio.protocol" \/ k = "@class") then None
    else md ≫= fun m => m !! k.
Proof.
  unfold convertLabels, protocolMetadata.
  destruct (decide (k = "@class")) as [->|Hc].
  { rewrite lookup_delete_eq. by rewrite decide_True by tauto. }
  rewrite lookup_delete_ne by done.
  destruct (decide (k = "istio.protocol")) as [->|Hp].
  { rewrite lookup_delete_eq. by rewrite decide_True by tauto. }
  rewrite lookup_delete_ne by done. rewrite decide_False by tauto.
  destruct md; [done|]. cbn. apply lookup_empty.
Qed.

Lemma convertProtocol_supported (md : metadata) :
  (convertProtocol md).1 <> ProtocolUnsupported.
Proof.
  unfold Eureka.convertProtocol. destruct md; [|done]. by case_decide.
Qed.

Lemma Sprint_int (n : Z) : Go.Sprint [Go.OpInt n] = pretty n.
Proof. unfold Go.Sprint. cbn. by rewrite V1Facts.append_nil_r. Qed.

(** The ports of an instance: the port and the secure port, each when it is
    enabled. *)
Lemma convertPorts_ports (inst : instance) :
  (convertPorts inst).1
  = (if Enabled (IPort inst)
     then [ {| Name := pretty (EPort (IPort inst)); PortNum := EPort (IPort inst);
               PortProtocol := (convertProtocol (IMetadata inst)).1 |} ]
     else [])
    ++ (if Enabled (SecurePort inst)
        then [ {| Name := pretty (EPort (SecurePort inst));
                  PortNum := EPort (SecurePort inst);
                  PortProtocol := (convertProtocol (IMetadata inst)).1 |} ]
        else []).
Proof.
  unfold Eureka.convertPorts.
  destruct (convertProtocol (IMetadata inst)) as [protocol log]. cbn -[Go.Sprint].
  rewrite !Sprint_int. by destruct (Enabled (IPort inst)), (Enabled (SecurePort inst)).
Qed.

Lemma convertPorts_converted (inst : instance) (p : Port) :
  p ∈ (convertPorts inst).1 -> converted p.
Proof.
  rewrite convertPorts_ports. intros Hp.
  pose proof (convertProtocol_supported (IMetadata inst)) as Hs.
  apply elem_of_app in Hp as [Hp|Hp];
    [destruct (Enabled (IPort inst))|destruct (Enabled (SecurePort inst))];
    try (by apply elem_of_nil in Hp);
    apply list_elem_of_singleton in Hp as ->; by split.
Qed.

Lemma convertPorts_nonempty (inst : instance) :
  (convertPorts inst).1 <> []
  <-> Enabled (IPort inst) = true \/ Enabled (SecurePort inst) = true.
Proof.
  rewrite convertPorts_ports.
  destruct (Enabled (IPort inst)), (Enabled (SecurePort inst)); cbn; split;
    (done || tauto || (intros [?|?]; done) || auto).
Qed.

Lemma GetByPort_None (ports : list Port) (num : Z) :
  GetByPort ports num = None <-> num ∉ map PortNum ports.
Proof. apply GetByPort_ok. Qed.

Lemma GetByPort_Some (ports : list Port) (num : Z) (p : Port) :
  GetByPort ports num = Some p -> p ∈ ports /\ PortNum p = num.
Proof. apply GetByPort_ok. Qed.

Lemma addPort_spec (inst : instance) (protocol : Protocol) (svc : Service)
    (log : list string) (p : Port) :
  goodPorts (Ports svc) -> converted p ->
  let r := addPort inst protocol (svc, log) p in
  goodPorts (Ports r.1)
  /\ (exists more, Ports r.1 = Ports svc ++ more)
  /\ PortNum p ∈ map PortNum (Ports r.1)
  /\ setPorts (Ports svc) r.1 = svc.
Proof.
  intros [Hnd Hall] Hp. cbn zeta. unfold Eureka.addPort.
  destruct (GetByPort (Ports svc) (PortNum p)) as [sp|] eqn:Hg.
  - apply GetByPort_Some in Hg as [Hin Hnum].
    assert (PortNum p ∈ map PortNum (Ports svc)).
    { rewrite <- Hnum. apply list_elem_of_In, in_map, list_elem_of_In, Hin. }
    case_decide; cbn; (split; [done|]); (split; [exists []; by rewrite app_nil_r|]);
      (split; [done|]); by destruct svc.
  - apply GetByPort_None in Hg. cbn.
    assert (Hg' : goodPorts (Ports svc ++ [p])).
    { split.
      - rewrite map_app. cbn. apply NoDup_app. split; [done|]. split.
        + intros x Hx Hx'. apply list_elem_of_singleton in Hx' as ->. done.
        + apply NoDup_singleton.
      - apply Forall_app. split; [done|]. by apply Forall_singleton. }
    split; [done|]. split; [by eexists|]. split; [|by destruct svc].
    rewrite map_app. apply elem_of_app. right. left.
Qed.

Lemma addPorts_spec (inst : instance) (protocol : Protocol) (ports : list Port)
    (svc : Service) (log : list string) :
  goodPorts (Ports svc) -> Forall converted ports ->
  let r := foldl (addPort inst protocol) (svc, log) ports in
  goodPorts (Ports r.1)
  /\ (exists more, Ports r.1 = Ports svc ++ more)
  /\ (forall p, p ∈ ports -> PortNum p ∈ map PortNum (Ports r.1))
  /\ setPorts (Ports svc) r.1 = svc.
Proof.
  revert svc log. induction ports as [|p ports IH]; intros svc log Hg Hall; cbn zeta.
  { cbn. split; [done|]. split; [exists []; by rewrite app_nil_r|].
    split; [intros p Hp; by apply elem_of_nil in Hp|by destruct svc]. }
  cbn [foldl]. apply Forall_cons in Hall as [Hp Hall].
  destruct (addPort_spec inst protocol svc log p Hg Hp) as (Hg1 & [m1 Hm1] & Hin1 & Hs1).
  destruct (addPort inst protocol (svc, log) p) as [svc1 log1] eqn:Ha. cbn in *.
  destruct (IH svc1 log1 Hg1 Hall) as (Hg2 & [m2 Hm2] & Hin2 & Hs2).
  split; [done|]. split; [|split].
  - exists (m1 ++ m2). by rewrite Hm2, Hm1, app_assoc.
  - intros q Hq. apply elem_of_cons in Hq as [->|Hq]; [|by apply Hin2].
    rewrite Hm2, map_app. apply elem_of_app. by left.
  - transitivity (setPorts (Ports svc) svc1); [|done].
    rewrite <- Hs2 at 2. done.
Qed.

Lemma nested_foldl {A B C} (f : A -> C -> A) (g : B -> list C) (a : A) (l : list B) :
  foldl (fun acc b => foldl f acc (g b)) a l = foldl f a (flat_map g l).
Proof.
  revert a. induction l as [|b l IH]; intros a; [done|].
  cbn. by rewrite foldl_app, IH.
Qed.

Lemma allowed_test (hostnames : gmap string bool) (h : string) :
  bool_decide (0 < size hostnames)%nat && negb (default false (hostnames !! h)) = false
  <-> allowed hostnames h.
Proof.
  unfold allowed. case_bool_decide as Hs; cbn.
  - destruct (hostnames !! h) as [[]|]; cbn; split; (done || auto || intros [?|?]; (lia || done)).
  - split; [intros _; left; lia|done].
Qed.

Lemma servicesOf_skip (hostnames : gmap string bool) (seen : list instance)
    (services : gmap string Service) (inst : instance) :
  ~ counted hostnames inst ->
  servicesOf hostnames seen services ->
  servicesOf hostnames (seen ++ [inst]) services.
Proof.
  intros Hn (Ha & Hb & Hc). split; [done|]. split.
  - intros h. rewrite Hb. split.
    + intros (i & Hi & ?). exists i. split; [apply elem_of_app; by left|done].
    + intros (i & Hi & Hh & Hcnt). apply elem_of_app in Hi as [Hi|Hi]; [by exists i|].
      apply list_elem_of_singleton in Hi as ->. done.
  - intros i Hi Hcnt. apply elem_of_app in Hi as [Hi|Hi]; [by apply Hc|].
    apply list_elem_of_singleton in Hi as ->. done.
Qed.

(** One instance more keeps what convertServices has built. *)
Lemma convertInstance_servicesOf (hostnames : gmap string bool) (seen : list instance)
    (services : gmap string Service) (log : list string) (inst : instance) :
  servicesOf hostnames seen services ->
  servicesOf hostnames (seen ++ [inst])
    (convertInstance hostnames (services, log) inst).1.
Proof.
  intros HS. unfold Eureka.convertInstance.
  destruct (bool_decide (0 < size hostnames)%nat
            && negb (default false (hostnames !! IHostname inst))) eqn:Hw.
  { apply servicesOf_skip; [|done]. intros (Hal & _).
    apply allowed_test in Hal. congruence. }
  apply allowed_test in Hw.
  case_decide as Hst.
  { apply servicesOf_skip; [|done]. intros (_ & ? & _). done. }
  pose proof (convertPorts_nonempty inst) as Hne.
  pose proof (convertPorts_converted inst) as Hconv.
  destruct (convertPorts inst) as [ports plog] eqn:Hports. cbn [fst] in *.
  case_decide as Hlen.
  { cbn. apply servicesOf_skip; [|done]. intros (_ & _ & He).
    apply Hne in He. by destruct ports. }
  assert (Hcnt : counted hostnames inst).
  { split; [done|]. split; [by destruct (decide (Status inst = statusUp))|].
    apply Hne. by destruct ports. }
  destruct (convertProtocol (IMetadata inst)) as [protocol clog].
  destruct HS as (Ha & Hb & Hc).
  set (svc0 := match services !! IHostname inst with
               | Some service => service
               | None => {| Hostname := IHostname inst; Address := "::0"; Ports := [];
                            ExternalName := ""; MeshExternal := false;
                            SvcResolution := ClientSideLB |}
               end).
  assert (H0 : Hostname svc0 = IHostname inst /\ Address svc0 = "::0"
               /\ ExternalName svc0 = "" /\ MeshExternal svc0 = false
               /\ SvcResolution svc0 = ClientSideLB /\ goodPorts (Ports svc0)).
  { unfold svc0. destruct (services !! IHostname inst) as [s|] eqn:Hs.
    - apply Ha in Hs. tauto.
    - cbn. repeat split; try done; constructor. }
  destruct H0 as (H01 & H02 & H03 & H04 & H05 & H06).
  assert (Hall : Forall converted ports) by (apply Forall_forall; intros; by apply Hconv).
  destruct (addPorts_spec inst protocol ports svc0 ((log ++ plog) ++ clog) H06 Hall)
    as (Hg & [more Hmore] & Hin & Hset).
  destruct (foldl (addPort inst protocol) (svc0, (log ++ plog) ++ clog) ports)
    as [svc1 log1]. cbn [fst] in *.
  assert (Hf : Hostname svc1 = Hostname svc0 /\ Address svc1 = Address svc0
               /\ ExternalName svc1 = ExternalName svc0
               /\ MeshExternal svc1 = MeshExternal svc0
               /\ SvcResolution svc1 = SvcResolution svc0).
  { rewrite <- Hset. done. }
  destruct Hf as (Hf1 & Hf2 & Hf3 & Hf4 & Hf5).
  split; [|split].
  - intros h svc Hl. destruct (decide (h = IHostname inst)) as [->|Hh].
    + rewrite lookup_insert_eq in Hl. injection Hl as <-.
      repeat split; try congruence; try apply Hg.
      intros Hnil. destruct ports as [|p ports]; [done|].
      specialize (Hin p ltac:(left)). rewrite Hnil in Hin. by apply elem_of_nil in Hin.
    + rewrite lookup_insert_ne in Hl by done. by apply Ha.
  - intros h. destruct (decide (h = IHostname inst)) as [->|Hh].
    + rewrite lookup_insert_eq. split; [|by eexists]. intros _.
      exists inst. split; [apply elem_of_app; right; left|done].
    + rewrite lookup_insert_ne by done. rewrite Hb. split.
      * intros (i & Hi & ?). exists i. split; [apply elem_of_app; by left|done].
      * intros (i & Hi & Hih & ?). apply elem_of_app in Hi as [Hi|Hi]; [by exists i|].
        apply list_elem_of_singleton in Hi as ->. done.
  - intros i Hi Hic. destruct (decide (IHostname i = IHostname inst)) as [Heq|Hh].
    + rewrite Heq, lookup_insert_eq. exists svc1. split; [done|].
      intros p Hp. apply elem_of_app in Hi as [Hi|Hi].
      * destruct (Hc i Hi Hic) as (s & Hs & Hps). rewrite Heq in Hs.
        unfold svc0 in Hmore. rewrite Hs in Hmore.
        rewrite Hmore, map_app. apply elem_of_app. left. by apply Hps.
      * apply list_elem_of_singleton in Hi as ->. rewrite Hports in Hp. by apply Hin.
    + rewrite lookup_insert_ne by done. apply elem_of_app in Hi as [Hi|Hi]; [by apply Hc|].
      apply list_elem_of_singleton in Hi as ->. done.
Qed.

Lemma convertInstances_servicesOf (hostnames : gmap string bool) (insts seen : list instance)
    (services : gmap string Service) (log : list string) :
  servicesOf hostnames seen services ->
  servicesOf hostnames (seen ++ insts)
    (foldl (convertInstance hostnames) (services, log) insts).1.
Proof.
  revert seen services log. induction insts as [|inst insts IH]; intros seen services log HS.
  { by rewrite app_nil_r. }
  cbn [foldl].
  pose proof (convertInstance_servicesOf hostnames seen services log inst HS) as H1.
  destruct (convertInstance hostnames (services, log) inst) as [services1 log1].
  rewrite (cons_middle inst seen insts), app_assoc. by apply IH.
Qed.

Lemma convertServices_servicesOf (apps : list application) (hostnames : gmap string bool) :
  servicesOf hostnames (instancesOfApps apps) (convertServices apps hostnames).1.
Proof.
  unfold Eureka.convertServices. rewrite nested_foldl.
  apply (convertInstances_servicesOf hostnames _ []).
  split; [|split].
  - intros h svc Hl. by rewrite lookup_empty in Hl.
  - intros h. rewrite lookup_empty. split; [by intros [? ?]|].
    intros (i & Hi & _). by apply elem_of_nil in Hi.
  - intros i Hi. by apply elem_of_nil in Hi.
Qed.

(** X6: a service convertServices returns is filed under its own host name,
    has the address ::0, is internal and resolved by the client side load
    balancer, and has at least one port; its ports have distinct numbers,
    a supported protocol each, and the number in decimal for a name. *)
Theorem convertServices_service (apps : list application) (hostnames : gmap string bool)
    (h : string) (svc : Service) :
  (convertServices apps hostnames).1 !! h = Some svc ->
  Hostname svc = h /\ Address svc = "::0" /\ MeshExternal svc = false
  /\ SvcResolution svc = ClientSideLB /\ Ports svc <> []
  /\ NoDup (map PortNum (Ports svc))
  /\ Forall (fun p => PortProtocol p <> ProtocolUnsupported
                      /\ Name p = pretty (PortNum p)) (Ports svc).
Proof.
  intros Hl. destruct (convertServices_servicesOf apps hostnames) as (Ha & _ & _).
  destruct (Ha h svc Hl) as (? & ? & ? & ? & ? & ? & [? ?]). done.
Qed.

(** X7: the host names convertServices returns a service for are exactly
    those of the instances that the whitelist lets through (an empty
    whitelist lets every name through), that are up, and that have a port
    enabled. *)
Theorem convertServices_hostnames (apps : list application)
    (hostnames : gmap string bool) (h : string) :
  is_Some ((convertServices apps hostnames).1 !! h)
  <-> exists inst, inst ∈ instancesOfApps apps /\ IHostname inst = h
                   /\ (size hostnames = 0%nat \/ hostnames !! h = Some true)
                   /\ Status inst = statusUp
                   /\ (Enabled (IPort inst) = true \/ Enabled (SecurePort inst) = true).
Proof.
  destruct (convertServices_servicesOf apps hostnames) as (_ & Hb & _).
  rewrite Hb. split.
  - intros (i & Hi & <- & Hal & ? & ?). by exists i.
  - intros (i & Hi & <- & Hal & ? & ?). exists i. by repeat split.
Qed.

Lemma instancesOf_fold (services : gmap string Service) (insts : list instance)
    (out : list ServiceInstance) (log : list string) (i : ServiceInstance) :
  i ∈ (foldl (instancesOf services) (out, log) insts).1 <->
  i ∈ out
  \/ exists inst svc p,
       inst ∈ insts /\ services !! IHostname inst = Some svc
       /\ Status inst = statusUp /\ p ∈ (convertPorts inst).1
       /\ i = {| Endpoint := {| EpAddress := IIPAddress inst; EpPort := PortNum p;
                                ServicePort := p |};
                 InstService := svc;
                 InstLabels := convertLabels (IMetadata inst) |}.
Proof.
  revert out log. induction insts as [|inst insts IH]; intros out log.
  { cbn. split; [by left|]. intros [?|(? & ? & ? & H & _)]; [done|].
    by apply elem_of_nil in H. }
  cbn [foldl].
  assert (Hstep : forall j,
    j ∈ (instancesOf services (out, log) inst).1 <->
    j ∈ out
    \/ exists svc p, services !! IHostname inst = Some svc
         /\ Status inst = statusUp /\ p ∈ (convertPorts inst).1
         /\ j = {| Endpoint := {| EpAddress := IIPAddress inst; EpPort := PortNum p;
                                  ServicePort := p |};
                   InstService := svc;
                   InstLabels := convertLabels (IMetadata inst) |}).
  { intros j. unfold Eureka.instancesOf.
    destruct (services !! IHostname inst) as [svc|] eqn:Hs.
    2: { cbn. split; [by left|]. intros [?|(? & ? & ? & _)]; done. }
    case_decide as Hst.
    { cbn. split; [by left|]. intros [?|(? & ? & _ & ? & _)]; done. }
    destruct (convertPorts inst) as [ports plog]. cbn.
    rewrite elem_of_app. split.
    - intros [?|Hj]; [by left|right].
      apply list_elem_of_In, in_map_iff in Hj as (p & <- & Hp).
      exists svc, p. apply list_elem_of_In in Hp.
      split; [done|]. split; [by destruct (decide (Status inst = statusUp))|done].
    - intros [?|(svc' & p & [= <-] & _ & Hp & ->)]; [by left|right].
      apply list_elem_of_In, in_map_iff. exists p. by rewrite <- list_elem_of_In. }
  destruct (instancesOf services (out, log) inst) as [out1 log1] eqn:H1.
  rewrite IH. cbn [fst] in Hstep. rewrite Hstep. split.
  - intros [[?|(svc & p & ? & ? & ? & ?)]|(inst' & svc & p & Hin & ?)].
    + by left.
    + right. exists inst, svc, p. split; [left|done].
    + right. exists inst', svc, p. split; [by right|done].
  - intros [?|(inst' & svc & p & Hin & Hr)]; [by do 2 left|].
    apply elem_of_cons in Hin as [->|Hin].
    + left. right. by exists svc, p.
    + right. by exists inst', svc, p.
Qed.

(** X8: the two conversions fit together. An instance that
    convertServiceInstances makes from the services of convertServices
    points to the service filed under its host name, and that service has a
    port with the port number of the endpoint; the instance carries the
    address of the Eureka instance, and its labels hold neither of the two
    special keys. *)
Theorem convertServiceInstances_of_convertServices (apps : list application)
    (hostnames : gmap string bool) (i : ServiceInstance) :
  let services := (convertServices apps hostnames).1 in
  i ∈ (convertServiceInstances services apps).1 ->
  services !! Hostname (InstService i) = Some (InstService i)
  /\ is_Some (GetByPort (Ports (InstService i)) (EpPort (Endpoint i)))
  /\ EpPort (Endpoint i) = PortNum (ServicePort (Endpoint i))
  /\ PortProtocol (ServicePort (Endpoint i)) <> ProtocolUnsupported
  /\ InstLabels i !! "istio.protocol" = None
  /\ InstLabels i !! "@class" = None
  /\ exists inst, inst ∈ instancesOfApps apps /\ Status inst = statusUp
                  /\ IHostname inst = Hostname (InstService i)
                  /\ EpAddress (Endpoint i) = IIPAddress inst.
Proof.
  intros services Hi.
  destruct (convertServices_servicesOf apps hostnames) as (Ha & Hb & Hc).
  fold services in Ha, Hb, Hc.
  unfold Eureka.convertServiceInstances in Hi. rewrite nested_foldl in Hi.
  apply instancesOf_fold in Hi as [Hi|(inst & svc & p & Hin & Hs & Hst & Hp & ->)];
    [by apply elem_of_nil in Hi|].
  cbn. destruct (Ha _ _ Hs) as (Hh & _).
  assert (Hcnt : counted hostnames inst).
  { destruct (proj1 (Hb (IHostname inst)) ltac:(by eexists)) as (i' & _ & Heq & Hal & _).
    split; [by rewrite <- Heq|]. split; [done|].
    apply convertPorts_nonempty. intros Hnil. rewrite Hnil in Hp. by apply elem_of_nil in Hp. }
  destruct (Hc inst Hin Hcnt) as (svc' & Hs' & Hports).
  assert (svc' = svc) as -> by congruence.
  split; [by rewrite Hh|]. split.
  { destruct (GetByPort (Ports svc) (PortNum p)) eqn:Hg; [by eexists|].
    apply GetByPort_None in Hg. exfalso. by apply Hg, Hports. }
  split; [done|]. split; [by apply (convertPorts_converted inst)|].
  destruct (convertLabels_special (IMetadata inst)) as [-> ->].
  split; [done|]. split; [done|]. exists inst. by rewrite Hh.
Qed.

End General.

(** The stand-in looks a port up by its number. *)
Lemma firstByPort_looksUp : looksUpByNumber Scenario.firstByPort.
Proof.
  unfold Scenario.firstByPort. split.
  - intros ports num. induction ports as [|p ports IH]; cbn.
    { split; [intros _ H; by apply elem_of_nil in H|done]. }
    case_bool_decide as Hp.
    + split; [done|]. intros Hn. exfalso. apply Hn. rewrite Hp. left.
    + rewrite IH. rewrite not_elem_of_cons.
      split; [intros ?; split; [congruence|done]|by intros [_ ?]].
  - intros ports num p. induction ports as [|q ports IH]; cbn; [done|].
    case_bool_decide as Hq.
    + intros [= <-]. split; [left|done].
    + intros H. apply IH in H as [? ?]. split; [by right|done].
Qed.

(** Where the hypotheses of X6 hold: the service of a.example.com. *)
Lemma convertServices_service_witness :
  exists svc,
    Scenario.eurekaServices !! "a.example.com" = Some svc
    /\ Hostname svc = "a.example.com" /\ Address svc = "::0"
    /\ MeshExternal svc = false /\ SvcResolution svc = ClientSideLB
    /\ Ports svc <> []
    /\ NoDup (map PortNum (Ports svc))
    /\ Forall (fun p => PortProtocol p <> ProtocolUnsupported
                        /\ Name p = pretty (PortNum p)) (Ports svc).
Proof.
  eexists. split; [vm_compute; reflexivity|].
  apply (convertServices_service Scenario.parseProtocol Scenario.statusUp
           Scenario.firstByPort firstByPort_looksUp Scenario.eurekaApps ∅
           "a.example.com").
  vm_compute. reflexivity.
Defined.

(** Where the hypothesis of X7 holds: a.example.com has an instance that is
    up, with a port enabled, and no whitelist is given. *)
Lemma convertServices_hostnames_witness :
  is_Some (Scenario.eurekaServices !! "a.example.com").
Proof.
  apply (convertServices_hostnames Scenario.parseProtocol Scenario.statusUp
           Scenario.firstByPort firstByPort_looksUp Scenario.eurekaApps ∅
           "a.example.com").
  exists (mkInstance "a.example.com" "10.0.0.1" "UP"
            (mkEurekaPort 8080 true) (mkEurekaPort 8443 false)
            (Some {[ "istio.protocol" := "http"; "@class" := "metadata";
                     "version" := "v1" ]})).
  split; [left|]. split; [reflexivity|]. split; [left; reflexivity|].
  split; [reflexivity|left; reflexivity].
Defined.

(** Where the hypotheses of X8 hold: the first service instance made from
    the applications, that of 10.0.0.1. *)
Lemma convertServiceInstances_of_convertServices_witness :
  let i := default (mkServiceInstance (mkNetworkEndpoint "" 0 (mkPort "" 0 ProtocolTCP))
                      (mkService "" "" [] "" false ClientSideLB) ∅)
                   (head Scenario.eurekaInstances) in
  i ∈ Scenario.eurekaInstances
  /\ Scenario.eurekaServices !! Hostname (InstService i) = Some (InstService i)
  /\ EpAddress (Endpoint i) = "10.0.0.1"
  /\ InstLabels i !! "istio.protocol" = None
  /\ InstLabels i !! "@class" = None.
Proof.
  cbn zeta.
  set (i := default _ (head Scenario.eurekaInstances)).
  assert (Hin : i ∈ Scenario.eurekaInstances).
  { assert (H : Scenario.eurekaInstances = i :: tail Scenario.eurekaInstances)
      by (vm_compute; reflexivity).
    rewrite H. left. }
  destruct (convertServiceInstances_of_convertServices
              Scenario.parseProtocol Scenario.statusUp Scenario.firstByPort
              firstByPort_looksUp Scenario.eurekaApps ∅ i Hin)
    as (Hs & _ & _ & _ & Hp & Hc & _).
  split; [exact Hin|]. split; [exact Hs|]. split; [vm_compute; reflexivity|].
  split; [exact Hp|exact Hc].
Defined.

End EurekaFacts.
